(** * Codon usage counting and bias indices of codon_us.c

    A shallow embedding of the counting engine ([ident_codon],
    [codon_usage_tot], [codon_error]), of the reference-table loaders and
    of the index calculators of CodonW's [codon_us.c], with the
    properties of the specification stated and settled against it.

    Conventions.
    - A C [char], [int] or [long] value is a [Z].  The only arithmetic
      that can wrap in the functions below is the [unsigned int] loop
      bound of [codon_usage_tot]; its reduction modulo [2^32] is written
      out.  The [long] tallies only ever grow by one per scanned codon.
    - A C array is a list read with [Arr.get] and written with
      [Arr.set]; indices are the [Z] values the code computes.
    - [float] and [double] values are [spec_float]s of the standard
      library, with the binary32 and binary64 operations of [SpecFloat]. *)

From Stdlib Require Import String Ascii ZArith List Lia Bool FinFun.
From Stdlib Require Import Floats.SpecFloat.
Import ListNotations.
Open Scope Z_scope.

(* ================================================================== *)
(** * Arrays, ranges and sums *)

Module Arr.
Section Poly.
Context {A : Type}.
Variable d : A.

(** [a[i]]; a read outside the array yields the default [d]. *)
Definition get (a : list A) (i : Z) : A :=
  if i <? 0 then d else nth (Z.to_nat i) a d.

Fixpoint set_nat (a : list A) (n : nat) (v : A) : list A :=
  match a, n with
  | [], _ => []
  | _ :: r, O => v :: r
  | x :: r, S n' => x :: set_nat r n' v
  end.

(** [a[i] = v]; the functions below only write inside their arrays
    once the genetic-code table is well formed, and a write outside
    leaves the list as it is. *)
Definition set (a : list A) (i : Z) (v : A) : list A :=
  if i <? 0 then a else set_nat a (Z.to_nat i) v.

End Poly.
End Arr.

(** [x = lo; x < hi; x++] as the list of the values [x] takes. *)
Definition zrange (lo hi : Z) : list Z :=
  map (fun k => lo + Z.of_nat k) (seq 0 (Z.to_nat (hi - lo))).

Definition zsum (f : Z -> Z) (l : list Z) : Z :=
  fold_right (fun x acc => f x + acc) 0 l.

(** [a[lo] + ... + a[hi-1]] *)
Definition sum_arr (a : list Z) (lo hi : Z) : Z :=
  zsum (Arr.get 0 a) (zrange lo hi).

(** Index [i] lies inside array [a]. *)
Definition inside {A : Type} (a : list A) (i : Z) : bool :=
  (0 <=? i) && (i <? Z.of_nat (List.length a)).

(* ================================================================== *)
(** * Characters and C strings *)

Definition chr (a : ascii) : Z := Z.of_N (N_of_ascii a).

Definition chars (s : string) : list Z := map chr (list_ascii_of_string s).

(** The bytes a sequence occupies in memory: its characters and the
    terminating NUL. *)
Definition buffer (s : list Z) : list Z := s ++ [0].

(** [strlen]: the number of bytes before the first NUL. *)
Fixpoint strlen (buf : list Z) : Z :=
  match buf with
  | [] => 0
  | c :: r => if c =? 0 then 0 else 1 + strlen r
  end.

(** The length of a sequence as the code sees it. *)
Definition seq_len (s : list Z) : Z := strlen (buffer s).

(* ================================================================== *)
(** * ident_codon *)

Definition is_T (c : Z) : bool :=
  (c =? chr "T") || (c =? chr "t") || (c =? chr "U") || (c =? chr "u").
Definition is_C (c : Z) : bool := (c =? chr "C") || (c =? chr "c").
Definition is_A (c : Z) : bool := (c =? chr "A") || (c =? chr "a").
Definition is_G (c : Z) : bool := (c =? chr "G") || (c =? chr "g").

(** The [for (x = 0; x < 3; x++) switch (codon[x])] loop.  The flag is
    [true] when the loop left through [case '\0': return 0]; the buffer
    is the caller's array as the loop leaves it. *)
Fixpoint ident_loop (n : nat) (x : Z) (codon : list Z) : bool * list Z :=
  match n with
  | O => (false, codon)
  | S n' =>
      let c := Arr.get 0 codon x in
      if is_T c then ident_loop n' (x + 1) (Arr.set codon x 1)
      else if is_C c then ident_loop n' (x + 1) (Arr.set codon x 2)
      else if is_A c then ident_loop n' (x + 1) (Arr.set codon x 3)
      else if is_G c then ident_loop n' (x + 1) (Arr.set codon x 4)
      else if c =? 0 then (true, codon)
      else ident_loop n' (x + 1) (Arr.set codon x 0)
  end.

(** [ident_codon(codon)]: the returned [icode] and the array the
    pointer refers to, rewritten in place. *)
Definition ident_codon (codon : list Z) : Z * list Z :=
  let '(early, codon') := ident_loop 3 0 codon in
  if early then (0, codon')
  else
    let c0 := Arr.get 0 codon' 0 in
    let c1 := Arr.get 0 codon' 1 in
    let c2 := Arr.get 0 codon' 2 in
    if negb (c0 * c1 * c2 =? 0)
    then ((c0 - 1) * 16 + c1 + (c2 - 1) * 4, codon')
    else (0, codon').

(** The mapping of the specification, in its words: T/U = 1, C = 2,
    A = 3, G = 4, anything else 0. *)
Definition base_number (c : Z) : Z :=
  if is_T c then 1 else if is_C c then 2 else if is_A c then 3
  else if is_G c then 4 else 0.

Definition codon_id (b1 b2 b3 : Z) : Z := (b1 - 1) * 16 + b2 + (b3 - 1) * 4.

(** The number the specification assigns to a triplet. *)
Definition spec_codon_id (c0 c1 c2 : Z) : Z :=
  if (base_number c0 =? 0) || (base_number c1 =? 0) || (base_number c2 =? 0)
  then 0
  else codon_id (base_number c0) (base_number c1) (base_number c2).

(** The letter the code recognises for a base number. *)
Definition base_letter (b : Z) : Z :=
  if b =? 1 then chr "T" else if b =? 2 then chr "C"
  else if b =? 3 then chr "A" else chr "G".

(* ================================================================== *)
(** * Genetic code *)

(** [pm->pcu->ca]: the amino acid of each codon, 65 entries.  The tables
    themselves are in codonW.h; the functions below take the active one
    as an argument. *)
Definition ca_at (ca : list Z) (x : Z) : Z := Arr.get 0 ca x.

(** What the counting code relies on: 65 entries, slot 0 (the
    untranslatable codon) translated to amino acid 0, and every codon
    1..64 translated to an amino acid 1..21. *)
Definition wf_code (ca : list Z) : bool :=
  (Z.of_nat (List.length ca) =? 65) && (ca_at ca 0 =? 0)
  && forallb (fun x => (1 <=? ca_at ca x) && (ca_at ca x <=? 21)) (zrange 1 65).

(** Modelled from the spec: the universal genetic code of codonW.h, which
    is not among the sources.  Codons in the order of their ids
    ([(b1-1)*16 + b2 + (b3-1)*4], T=1 C=2 A=3 G=4), amino acid 11 the
    stop (TAA = 11, TGA = 12 and TAG = 15 are the stop codons), and the
    other amino acids numbered Phe 1, Leu 2, Ile 3, Met 4, Val 5, Ser 6,
    Pro 7, Thr 8, Ala 9, Tyr 10, His 12, Gln 13, Asn 14, Lys 15, Asp 16,
    Glu 17, Cys 18, Trp 19, Arg 20, Gly 21. *)
Definition universal_ca : list Z :=
  [0;
   1; 6; 10; 18; 1; 6; 10; 18; 2; 6; 11; 11; 2; 6; 11; 19;
   2; 7; 12; 20; 2; 7; 12; 20; 2; 7; 13; 20; 2; 7; 13; 20;
   3; 8; 14; 6; 3; 8; 14; 6; 3; 8; 15; 20; 4; 8; 15; 20;
   5; 9; 16; 21; 5; 9; 16; 21; 5; 9; 17; 21; 5; 9; 17; 21].

(** [how_synon]: [dds[x]], the number of codons with the amino acid of
    codon [x]. *)
Definition how_synon (ca : list Z) : list Z :=
  0 :: map (fun x =>
              zsum (fun i => if ca_at ca x =? ca_at ca i then 1 else 0)
                   (zrange 1 65))
           (zrange 1 65).

(** [how_synon_aa]: [dda[a]], the number of codons of amino acid [a]. *)
Definition how_synon_aa (ca : list Z) : list Z :=
  fold_left (fun dda x => Arr.set dda (ca_at ca x) (Arr.get 0 dda (ca_at ca x) + 1))
            (zrange 1 65) (repeat 0 22).

(* ================================================================== *)
(** * codon_usage_tot *)

(** The tallies [codon_usage_tot] updates: [long ncod[65]],
    [long naa[23]], [codon_tot] and the global [valid_stops]. *)
Record CountState := {
  ncod : list Z;
  naa : list Z;
  codon_tot : Z;
  valid_stops : Z
}.

(** The state [clean_up] leaves. *)
Definition zero_state : CountState :=
  {| ncod := repeat 0 65; naa := repeat 0 23;
     codon_tot := 0; valid_stops := 0 |}.

(** [a[i]++] *)
Definition incr (a : list Z) (i : Z) : list Z :=
  Arr.set a i (Arr.get 0 a i + 1).

(** The two character arrays [codon_usage_tot] touches: the caller's
    sequence and the local [char codon[4]]. *)
Record Mem := {
  m_seq : list Z;
  m_codon : list Z
}.

Definition uint_max : Z := 2 ^ 32.

(** [dst[k] = ... = dst[k+n-1] = '\0'], the padding of [strncpy]. *)
Fixpoint pad_nul (n : nat) (dst : list Z) (k : Z) : list Z :=
  match n with
  | O => dst
  | S n' => pad_nul n' (Arr.set dst k 0) (k + 1)
  end.

(** [strncpy(dst + k, src + i, n)]: copies bytes up to and including a
    NUL, and fills the rest of the [n] bytes with NULs.  [None] when a
    byte beyond the end of [src] is read. *)
Fixpoint strncpy (n : nat) (dst : list Z) (k : Z) (src : list Z) (i : Z)
  : option (list Z) :=
  match n with
  | O => Some dst
  | S n' =>
      match nth_error src (Z.to_nat i) with
      | None => None
      | Some c =>
          if c =? 0 then Some (pad_nul n dst k)
          else strncpy n' (Arr.set dst k c) (k + 1) src (i + 1)
      end
  end.

Inductive loop_outcome :=
| LDone (icode : option Z) (st : CountState) (m : Mem)
| LReadPastEnd (st : CountState) (m : Mem)
| LOutOfFuel.

(** One pass of the loop body on the codon copied into [codon]. *)
Definition count_codon (ca : list Z) (codon : list Z) (st : CountState)
  : Z * list Z * CountState :=
  let '(icode, codon') := ident_codon codon in
  (icode, codon',
   {| ncod := incr (ncod st) icode;
      naa := incr (naa st) (ca_at ca icode);
      codon_tot := codon_tot st + 1;
      valid_stops := valid_stops st |}).

(** [for (i = 0; i < seqlen - 2; i += 3)], with [limit] the value of
    the unsigned expression [seqlen - 2] and [i] an [unsigned int].
    [icode] is [None] until the body has assigned it. *)
Fixpoint count_loop (fuel : nat) (ca : list Z) (limit i : Z)
  (icode : option Z) (st : CountState) (m : Mem) : loop_outcome :=
  match fuel with
  | O => LOutOfFuel
  | S fuel' =>
      if i <? limit then
        match strncpy 3 (m_codon m) 0 (m_seq m) i with
        | None => LReadPastEnd st m
        | Some codon =>
            let '(ic, codon', st') := count_codon ca codon st in
            count_loop fuel' ca limit ((i + 3) mod uint_max) (Some ic) st'
                       {| m_seq := m_seq m; m_codon := codon' |}
        end
      else LDone icode st m
  end.

Inductive outcome :=
| Returned (icode : Z) (st : CountState) (m : Mem)
    (** the function returned [icode] *)
| ReadPastEnd (st : CountState) (m : Mem)
    (** [strncpy] read beyond the sequence's terminator; the tallies and
        the memory at that moment *)
| ReadUninitialised
    (** [icode] was read before any assignment *)
| OutOfFuel.

(** [codon_usage_tot(seq, &codon_tot, ncod, naa, pm)] on the bytes [seq]
    of the caller's buffer. *)
Definition codon_usage_tot (ca : list Z) (seq : list Z) (st : CountState)
  : outcome :=
  let seqlen := strlen seq mod uint_max in
  match count_loop (S (List.length seq)) ca ((seqlen - 2) mod uint_max) 0
                   None st {| m_seq := seq; m_codon := [0; 0; 0; 0] |} with
  | LOutOfFuel => OutOfFuel
  | LReadPastEnd st1 m => ReadPastEnd st1 m
  | LDone icode st1 m =>
      let '(icode1, st2) :=
        if negb (seqlen mod 3 =? 0)
        then (Some 0,
              {| ncod := incr (ncod st1) 0; naa := naa st1;
                 codon_tot := codon_tot st1;
                 valid_stops := valid_stops st1 |})
        else (icode, st1) in
      match icode1 with
      | None => ReadUninitialised
      | Some ic =>
          Returned ic
            (if ca_at ca ic =? 11
             then {| ncod := ncod st2; naa := naa st2;
                     codon_tot := codon_tot st2;
                     valid_stops := valid_stops st2 + 1 |}
             else st2)
            m
      end
  end.

(** ** The sequence as the specification reads it *)

(** The characters before the terminator. *)
Fixpoint c_text (buf : list Z) : list Z :=
  match buf with
  | [] => []
  | c :: r => if c =? 0 then [] else c :: c_text r
  end.

(** The full triplets of a text, from offset 0. *)
Fixpoint triplets (s : list Z) : list (Z * Z * Z) :=
  match s with
  | a :: b :: c :: r => (a, b, c) :: triplets r
  | _ => []
  end.

(** The ids of the full codons of a sequence. *)
Definition codon_ids (s : list Z) : list Z :=
  map (fun t => let '(a, b, c) := t in spec_codon_id a b c)
      (triplets (c_text (buffer s))).

Definition count_if (P : Z -> bool) (l : list Z) : Z :=
  Z.of_nat (List.length (filter P l)).

Definition is_zero (id : Z) : bool := id =? 0.
Definition is_codon (id : Z) : bool := negb (id =? 0).

(** Full codons whose three bases are all recognised. *)
Definition recognised (s : list Z) : Z := count_if is_codon (codon_ids s).

(** Full codons with an unrecognised base. *)
Definition unrecognised (s : list Z) : Z := count_if is_zero (codon_ids s).

(** The tallies after one more codon of number [id]. *)
Definition tally (ca : list Z) (st : CountState) (id : Z) : CountState :=
  {| ncod := incr (ncod st) id;
     naa := incr (naa st) (ca_at ca id);
     codon_tot := codon_tot st + 1;
     valid_stops := valid_stops st |}.

(** The number the function returns for a sequence of at least two
    bases: that of the last full codon, or 0 after a partial one. *)
Definition final_icode (s : list Z) : Z :=
  if seq_len s mod 3 =? 0 then last (codon_ids s) 0 else 0.

(** The tallies the function leaves for such a sequence. *)
Definition final_state (ca : list Z) (s : list Z) (st : CountState)
  : CountState :=
  let st1 := fold_left (tally ca) (codon_ids s) st in
  let st2 :=
    if seq_len s mod 3 =? 0 then st1
    else {| ncod := incr (ncod st1) 0; naa := naa st1;
            codon_tot := codon_tot st1; valid_stops := valid_stops st1 |} in
  if ca_at ca (final_icode s) =? 11
  then {| ncod := ncod st2; naa := naa st2; codon_tot := codon_tot st2;
          valid_stops := valid_stops st2 + 1 |}
  else st2.

(** The caller's buffer when the function stops. *)
Definition result_seq (o : outcome) : option (list Z) :=
  match o with
  | Returned _ _ m => Some (m_seq m)
  | ReadPastEnd _ m => Some (m_seq m)
  | ReadUninitialised => None
  | OutOfFuel => None
  end.

(* ================================================================== *)
(** * Floating point *)

(** [float] is IEEE binary32 and [double] IEEE binary64, both carried by
    [spec_float]; every operation rounds to nearest even in the format
    of its C type. *)
Module F32.
Definition prec : Z := 24.
Definition emax : Z := 128.
Definition of_long (z : Z) : spec_float := binary_normalize prec emax z 0 false.
Definition add : spec_float -> spec_float -> spec_float := SFadd prec emax.
Definition sub : spec_float -> spec_float -> spec_float := SFsub prec emax.
Definition mul : spec_float -> spec_float -> spec_float := SFmul prec emax.
Definition div : spec_float -> spec_float -> spec_float := SFdiv prec emax.
(** [(float)x] of a [double] *)
Definition of_double (x : spec_float) : spec_float :=
  match x with
  | S754_finite s m e => binary_normalize prec emax (cond_Zopp s (Zpos m)) e s
  | _ => x
  end.
End F32.

Module F64.
Definition prec : Z := 53.
Definition emax : Z := 1024.
Definition of_long (z : Z) : spec_float := binary_normalize prec emax z 0 false.
Definition add : spec_float -> spec_float -> spec_float := SFadd prec emax.
Definition sub : spec_float -> spec_float -> spec_float := SFsub prec emax.
Definition mul : spec_float -> spec_float -> spec_float := SFmul prec emax.
Definition div : spec_float -> spec_float -> spec_float := SFdiv prec emax.
(** [(double)x] of a [float]: exact, in the canonical binary64 form. *)
Definition of_float (x : spec_float) : spec_float :=
  match x with
  | S754_finite s m e => binary_normalize prec emax (cond_Zopp s (Zpos m)) e s
  | _ => x
  end.
End F64.

Definition fzero : spec_float := S754_zero false.

(** [if (x)] on a floating value: [x != 0]. *)
Definition fnonzero (x : spec_float) : bool := negb (SFeqb x fzero).

(** [0.01F] *)
Definition f32_0_01 : spec_float := S754_finite false 10737418 (-30).
(** [0.0001] *)
Definition f64_0_0001 : spec_float := S754_finite false 7378697629483821 (-66).
(** [0.0000001] *)
Definition f64_1em7 : spec_float := S754_finite false 7555786372591432 (-76).
(** [0.5] *)
Definition f64_0_5 : spec_float := S754_finite false 4503599627370496 (-53).

(* ================================================================== *)
(** * Program state *)

(** The reference data the menu structure points to, other than the
    adaptiveness weights: [pm->pcu->ca], [pm->ds], [pm->da], the
    classification [fop_cod] that both [pm->pfop] and [pm->pcbi] point
    to, and the amino-acid properties [pm->pap], as the values
    [(float)hydro[i]] and [(float)aromo[i]]. *)
Record Tables := {
  ca : list Z;
  ds : list Z;
  da : list Z;
  fop_cod : list Z;
  hydro : list spec_float;
  aromo : list spec_float
}.

(** The function-static variables of the calculators. *)
Record Statics := {
  cai_ttt : bool;
  user_cai : list spec_float;
  first_call_cbi : bool;
  has_opt_info_cbi : list Z;
  user_cbi : list Z;
  first_call_fop : bool;
  factor_in_rare : bool;
  has_opt_info_fop : list Z;
  user_fop : list Z;
  gc_header : bool;
  dinuc_called : bool
}.

(** The globals and the memory behind the pointers; [cai_val] is the
    array [pm->pcai->cai_val] of adaptiveness weights. *)
Record State := {
  counts : CountState;
  num_sequence : Z;
  num_seq_int_stop : Z;
  din : list (list Z);
  fram : Z;
  tables : Tables;
  cai_val : list spec_float;
  statics : Statics
}.

(** What one call of [fscanf(pm->caifile, "%f ", &ftemp)] does before
    the end of the file: it converts a number and stores it in [ftemp]
    (return value 1), or it meets a character no number can start or go
    on with and leaves [ftemp] alone (return value 0, which is not
    [EOF]). *)
Inductive scan :=
| Converted (v : spec_float)
| NoMatch.

(** A CAI file as the calls of [fscanf] see it: the results of the calls
    in order, and whether the end of the file is ever reported.  A
    character that stopped a conversion stays in the stream; when the
    next call cannot get past it either, every later call returns 0 and
    [EOF] never comes: [stuck]. *)
Record CaiFile := {
  scans : list scan;
  stuck : bool
}.

(** The switches of [MENU_STRUCT] the functions read, and the override
    files: a CAI file as [fscanf("%f ")] reads it, the Fop and CBI files
    as their characters. *)
Record Menu := {
  warn : bool;
  totals : bool;
  caifile : option CaiFile;
  cbifile : option (list Z);
  fopfile : option (list Z)
}.

Definition set_statics (s : State) (st : Statics) : State :=
  {| counts := counts s; num_sequence := num_sequence s;
     num_seq_int_stop := num_seq_int_stop s; din := din s; fram := fram s;
     tables := tables s; cai_val := cai_val s; statics := st |}.

Definition set_counts (s : State) (c : CountState) : State :=
  {| counts := c; num_sequence := num_sequence s;
     num_seq_int_stop := num_seq_int_stop s; din := din s; fram := fram s;
     tables := tables s; cai_val := cai_val s; statics := statics s |}.

Definition set_cai_val (s : State) (v : list spec_float) : State :=
  {| counts := counts s; num_sequence := num_sequence s;
     num_seq_int_stop := num_seq_int_stop s; din := din s; fram := fram s;
     tables := tables s; cai_val := v; statics := statics s |}.

(** What is written to the error stream. *)
Inductive warning :=
| NoStartCodon (seqno : Z)
| InternalStopsTotal (ns : Z)
| InternalStops (seqno ns : Z)
| LastCodonPartial (seqno : Z)
| NonTranslatableTotal (n : Z)
| NonTranslatable (seqno n : Z)
| NotTerminated (seqno : Z)
| NcNotCalculated (seqno x y : Z)
| TooShort.

(** Why [my_exit] was called. *)
Inductive fatal :=
| ProgrammeError
| ValueOutOfRange
| WrongCount (found : Z)
| IllegalValue (codon : Z).

(** What the C standard leaves undefined and [cai_out] can run into
    while it reads its file: a store beyond the last entry of
    [user_cai.cai_val], and a read of [ftemp] before anything was
    assigned to it. *)
Inductive fault :=
| PastTable
| Unassigned.

(** Why a call did not return. *)
Inductive halt :=
| Exited (why : fatal)
| Faulted (f : fault).

(** A value written to an output file: a [long], a [float] or [double]
    handed to [%f], or the five stars of [enc_out]. *)
Inductive cell :=
| CLong (z : Z)
| CNum (x : spec_float)
| CStars.

(** What a function leaves behind: its return value, the cells and
    warnings it wrote, whether it wrote a one-time header or banner, and
    the state; or the exit code of [my_exit]; or the undefined behaviour
    it ran into. *)
Inductive result :=
| Done (ret : Z) (cells : list cell) (warnings : list warning)
       (banner : bool) (s : State)
| Exit (code : Z) (why : fatal)
| Fault (f : fault).

(* ================================================================== *)
(** * codon_error *)

(** The first loop: [loc_cod_tot] and the number of stop codons. *)
Definition loc_cod_tot (s : State) : Z := sum_arr (ncod (counts s)) 1 65.

Definition stop_count (s : State) : Z :=
  zsum (fun i => if ca_at (ca (tables s)) i =? 11
                 then Arr.get 0 (ncod (counts s)) i else 0)
       (zrange 1 65).

Definition nonzero (z : Z) : bool := negb (z =? 0).

(** [bool valid_start = true; // FIXME] *)
Definition valid_start : bool := true.

(** [codon_error(x, y, ttitle, error_level, pm)] *)
Definition codon_error (x y error_level : Z) (pm : Menu) (s : State)
  : result :=
  let cax := ca_at (ca (tables s)) x in
  let ncod0 := Arr.get 0 (ncod (counts s)) 0 in
  if error_level =? 1 then
    let ns := stop_count s - valid_stops (counts s) in
    let w1 := if negb valid_start && warn pm
              then [NoStartCodon (num_sequence s)] else [] in
    if nonzero ns && warn pm then
      Done (loc_cod_tot s)
           []
           (w1 ++ [if totals pm && warn pm then InternalStopsTotal ns
                   else InternalStops (num_sequence s) ns])
           false
           {| counts := counts s; num_sequence := num_sequence s;
              num_seq_int_stop := num_seq_int_stop s + 1;
              din := din s; fram := fram s;
              tables := tables s; cai_val := cai_val s;
              statics := statics s |}
    else Done (loc_cod_tot s) [] w1 false s
  else if error_level =? 2 then
    if (ncod0 =? 1) && negb (cax =? 11) && warn pm then
      Done (loc_cod_tot s) [] [LastCodonPartial (num_sequence s)] false s
    else
      let w1 := if nonzero ncod0 && warn pm
                then [if totals pm then NonTranslatableTotal ncod0
                      else NonTranslatable (num_sequence s) ncod0]
                else [] in
      let w2 := if negb (cax =? 11) && warn pm
                then (if negb (totals pm)
                      then [NotTerminated (num_sequence s)] else [])
                else [] in
      Done (loc_cod_tot s) [] (w1 ++ w2) false s
  else if error_level =? 3 then
    let x' := if x =? 3 then 4 else x in
    Done (loc_cod_tot s) []
         (if warn pm then [NcNotCalculated (num_sequence s) x' y] else [])
         false s
  else if error_level =? 4 then Done (loc_cod_tot s) [] [] false s
  else Exit 99 ProgrammeError.

(** Counting a sequence into the shared tallies, as the caller does with
    [codon_usage_tot(seq, &codon_tot, ncod, naa, pm)]. *)
Definition count_sequence (seq : list Z) (s : State) : option (Z * State) :=
  match codon_usage_tot (ca (tables s)) (buffer seq) (counts s) with
  | Returned icode c _ => Some (icode, set_counts s c)
  | _ => None
  end.

(** The statics as the C initialisers leave them. *)
Definition initial_statics : Statics :=
  {| cai_ttt := false; user_cai := repeat fzero 65;
     first_call_cbi := true; has_opt_info_cbi := repeat 0 22;
     user_cbi := repeat 0 65;
     first_call_fop := true; factor_in_rare := false;
     has_opt_info_fop := repeat 0 22; user_fop := repeat 0 65;
     gc_header := false; dinuc_called := false |}.

(** The state before the first sequence, for given reference tables and
    adaptiveness weights. *)
Definition initial_state (t : Tables) (w : list spec_float) : State :=
  {| counts := zero_state; num_sequence := 1; num_seq_int_stop := 0;
     din := repeat (repeat 0 16) 3; fram := 0;
     tables := t; cai_val := w; statics := initial_statics |}.

(** [1.0F] *)
Definition f32_one : spec_float := S754_finite false 8388608 (-23).

(** Reference tables for the universal code, used to run the functions
    on examples: [ds] and [da] as [initialize_point] derives them, every
    codon classified as common (2), and amino-acid properties 0. *)
Definition universal_tables : Tables :=
  {| ca := universal_ca;
     ds := how_synon universal_ca;
     da := how_synon_aa universal_ca;
     fop_cod := 0 :: repeat 2 64;
     hydro := repeat fzero 22;
     aromo := repeat fzero 22 |}.

(** Adaptiveness weights for examples: every weight 1.0. *)
Definition unit_weights : list spec_float := fzero :: repeat f32_one 64.


(* ================================================================== *)
(** * Loading the override tables *)

Definition with_cai (st : Statics) (ttt : bool) (u : list spec_float)
  : Statics :=
  {| cai_ttt := ttt; user_cai := u;
     first_call_cbi := first_call_cbi st;
     has_opt_info_cbi := has_opt_info_cbi st; user_cbi := user_cbi st;
     first_call_fop := first_call_fop st;
     factor_in_rare := factor_in_rare st;
     has_opt_info_fop := has_opt_info_fop st; user_fop := user_fop st;
     gc_header := gc_header st; dinuc_called := dinuc_called st |}.

Definition with_cbi (st : Statics) (fc : bool) (h u : list Z) : Statics :=
  {| cai_ttt := cai_ttt st; user_cai := user_cai st;
     first_call_cbi := fc; has_opt_info_cbi := h; user_cbi := u;
     first_call_fop := first_call_fop st;
     factor_in_rare := factor_in_rare st;
     has_opt_info_fop := has_opt_info_fop st; user_fop := user_fop st;
     gc_header := gc_header st; dinuc_called := dinuc_called st |}.

Definition with_fop (st : Statics) (fc : bool) (h u : list Z) : Statics :=
  {| cai_ttt := cai_ttt st; user_cai := user_cai st;
     first_call_cbi := first_call_cbi st;
     has_opt_info_cbi := has_opt_info_cbi st; user_cbi := user_cbi st;
     first_call_fop := fc; factor_in_rare := factor_in_rare st;
     has_opt_info_fop := h; user_fop := u;
     gc_header := gc_header st; dinuc_called := dinuc_called st |}.

Definition with_gc_header (st : Statics) (b : bool) : Statics :=
  {| cai_ttt := cai_ttt st; user_cai := user_cai st;
     first_call_cbi := first_call_cbi st;
     has_opt_info_cbi := has_opt_info_cbi st; user_cbi := user_cbi st;
     first_call_fop := first_call_fop st;
     factor_in_rare := factor_in_rare st;
     has_opt_info_fop := has_opt_info_fop st; user_fop := user_fop st;
     gc_header := b; dinuc_called := dinuc_called st |}.

Definition with_dinuc_called (st : Statics) (b : bool) : Statics :=
  {| cai_ttt := cai_ttt st; user_cai := user_cai st;
     first_call_cbi := first_call_cbi st;
     has_opt_info_cbi := has_opt_info_cbi st; user_cbi := user_cbi st;
     first_call_fop := first_call_fop st;
     factor_in_rare := factor_in_rare st;
     has_opt_info_fop := has_opt_info_fop st; user_fop := user_fop st;
     gc_header := gc_header st; dinuc_called := b |}.

(** [1.0] *)
Definition f64_one : spec_float := S754_finite false 4503599627370496 (-52).

(** [ftemp < 0 || ftemp > 1.0] *)
Definition cai_out_of_range (v : spec_float) : bool :=
  SFltb v fzero || SFltb f64_one (F64.of_float v).

(** How the [while (fscanf(pm->caifile, "%f ", &ftemp) != EOF)] loop
    ends on the calls listed: at the end of the list with the final [x],
    the table and [ftemp]; in the exit on a value out of range; in a
    store beyond the table; or in a test of [ftemp] before any value was
    assigned to it. *)
Inductive cai_read_end :=
| ReadEnd (x : Z) (tbl : list spec_float) (ftemp : option spec_float)
| ReadRange
| ReadPastTable
| ReadUnassigned.

(** The loop body runs after every call that does not return [EOF],
    also after one that converted nothing: it tests [ftemp] and stores
    it in [user_cai.cai_val[x++]]. *)
Fixpoint cai_read (rs : list scan) (x : Z) (ftemp : option spec_float)
  (tbl : list spec_float) : cai_read_end :=
  match rs with
  | [] => ReadEnd x tbl ftemp
  | r :: rest =>
      let ftemp' := match r with
                    | Converted v => Some v
                    | NoMatch => ftemp
                    end in
      match ftemp' with
      | None => ReadUnassigned
      | Some v =>
          if cai_out_of_range v then ReadRange
          else if inside tbl x
               then cai_read rest (x + 1) ftemp' (Arr.set tbl x v)
               else ReadPastTable
      end
  end.

(** What loading a table ends in. *)
Inductive loaded :=
| Loaded (tbl : list spec_float)
| LoadExit (why : fatal)
| LoadFault (f : fault).

(** Loading [user_cai] from the CAI file.  When the file is stuck the
    loop never ends by itself: every further pass tests the same [ftemp]
    and stores it one entry further, until the store leaves the table
    (or, when nothing was ever converted, the first pass tests an
    unassigned [ftemp]). *)
Definition cai_load (f : CaiFile) (user : list spec_float) : loaded :=
  match cai_read (scans f) 1 None (Arr.set user 0 fzero) with
  | ReadRange => LoadExit ValueOutOfRange
  | ReadPastTable => LoadFault PastTable
  | ReadUnassigned => LoadFault Unassigned
  | ReadEnd x tbl ftemp =>
      if stuck f then
        match ftemp with
        | None => LoadFault Unassigned
        | Some _ => LoadFault PastTable
        end
      else if x =? 65 then Loaded tbl
           else LoadExit (WrongCount (x - 1))
  end.

Definition isdigit (c : Z) : bool := (chr "0" <=? c) && (c <=? chr "9").

(** [atoi] of the one-character string holding the digit [c]. *)
Definition atoi1 (c : Z) : Z := c - chr "0".

(** [isdigit(c) && atoi(str) >= 0 && atoi(str) <= 3] *)
Definition fop_digit (c : Z) : bool :=
  isdigit c && (0 <=? atoi1 c) && (atoi1 c <=? 3).

(** The [while ((c = fgetc(file)) != EOF && x <= 66)] loop of [fop_out]
    and [cbi_out]. *)
Fixpoint fop_read (cs : list Z) (x : Z) (tbl : list Z) : Z * list Z :=
  match cs with
  | [] => (x, tbl)
  | c :: r =>
      if x <=? 66 then
        if fop_digit c then fop_read r (x + 1) (Arr.set tbl x (atoi1 c))
        else fop_read r x tbl
      else (x, tbl)
  end.

(** Loading [user_fop] or [user_cbi] from the characters of the file. *)
Definition fop_load (cs : list Z) (user : list Z) : list Z + fatal :=
  let '(x, tbl) := fop_read cs 1 (Arr.set user 0 0) in
  if x =? 65 then inl tbl else inr (WrongCount (x - 1)).

(* ================================================================== *)
(** * The index calculators *)

(** Where a local table pointer ([pcai], [pcbi], [pfop]) points: at the
    built-in table of the menu structure, or at the function's static
    user table. *)
Inductive table_ptr := Builtin | User.

(** [a[i] += n] *)
Definition add_at (a : list Z) (i n : Z) : list Z :=
  Arr.set a i (Arr.get 0 a i + n).

(** [pcu->ca[x] == 11 || *(ds + x) == 1] *)
Definition stop_or_single (t : Tables) (x : Z) : bool :=
  (ca_at (ca t) x =? 11) || (Arr.get 0 (ds t) x =? 1).

(** [for (x = 1; x < 22; x++) has_opt_info[x] = 0;] *)
Definition opt_info_reset (h : list Z) : list Z :=
  fold_left (fun h x => Arr.set h x 0) (zrange 1 22) h.

(** The loop that fills [has_opt_info]: one more for each optimal (3)
    codon of a synonymous, non-stop family, and, with [rare] set, for
    each non-optimal (1) one. *)
Definition opt_info_step (t : Tables) (fopc : list Z) (rare : bool)
  (h : list Z) (x : Z) : list Z :=
  if stop_or_single t x then h
  else
    let h1 := if Arr.get 0 fopc x =? 3 then incr h (ca_at (ca t) x) else h in
    if (Arr.get 0 fopc x =? 1) && rare then incr h1 (ca_at (ca t) x) else h1.

Definition opt_info (t : Tables) (fopc : list Z) (rare : bool) (h : list Z)
  : list Z :=
  fold_left (opt_info_step t fopc rare) (zrange 1 65) (opt_info_reset h).

Section Calculators.

(** [log], [exp] and [pow] of the C library. *)
Variables c_log c_exp : spec_float -> spec_float.
Variable c_pow : spec_float -> spec_float -> spec_float.

(** ** cai_out *)

(** [if (pcai->cai_val[x] < 0.0001) pcai->cai_val[x] = 0.01F;] *)
Definition cai_clamp (tbl : list spec_float) (x : Z) : list spec_float :=
  if SFltb (F64.of_float (Arr.get fzero tbl x)) f64_0_0001
  then Arr.set tbl x f32_0_01 else tbl.

(** The body of the summation loop: the table, [sigma] and [totaa]. *)
Definition cai_step (t : Tables) (nncod : list Z)
  (acc : list spec_float * spec_float * Z) (x : Z)
  : list spec_float * spec_float * Z :=
  let '(tbl, sigma, totaa) := acc in
  if stop_or_single t x then acc
  else
    let tbl' := cai_clamp tbl x in
    (tbl',
     F64.add sigma
       (F64.mul (F64.of_long (Arr.get 0 nncod x))
                (c_log (F64.of_float (Arr.get fzero tbl' x)))),
     totaa + Arr.get 0 nncod x).

(** The [if (!cai_ttt)] block: where [pcai] points afterwards, the
    state, and whether the banner was written. *)
Definition cai_first_call (pm : Menu) (s : State)
  : table_ptr * State * bool + halt :=
  if cai_ttt (statics s) then inl (Builtin, s, false)
  else
    match caifile pm with
    | Some f =>
        match cai_load f (user_cai (statics s)) with
        | LoadExit why => inr (Exited why)
        | LoadFault ub => inr (Faulted ub)
        | Loaded tbl =>
            inl (User, set_statics s (with_cai (statics s) true tbl), true)
        end
    | None =>
        inl (Builtin,
             set_statics s (with_cai (statics s) true (user_cai (statics s))),
             true)
    end.

Definition cai_out (nncod : list Z) (pm : Menu) (s : State) : result :=
  match cai_first_call pm s with
  | inr (Exited why) => Exit 99 why
  | inr (Faulted ub) => Fault ub
  | inl (ptr, s1, banner) =>
      let tbl := match ptr with
                 | Builtin => cai_val s1
                 | User => user_cai (statics s1)
                 end in
      let '(tbl', sigma, totaa) :=
        fold_left (cai_step (tables s1) nncod) (zrange 1 65)
                  (tbl, fzero, 0) in
      let s2 := match ptr with
                | Builtin => set_cai_val s1 tbl'
                | User =>
                    set_statics s1
                      (with_cai (statics s1) (cai_ttt (statics s1)) tbl')
                end in
      let sigma' := if nonzero totaa
                    then c_exp (F64.div sigma (F64.of_long totaa))
                    else fzero in
      Done 0 [CNum sigma'] [] banner s2
  end.

(** ** cbi_out *)

Definition cbi_first_call (pm : Menu) (s : State)
  : table_ptr * State * bool + fatal :=
  if first_call_cbi (statics s) then
    let loaded :=
      match cbifile pm with
      | Some cs =>
          match fop_load cs (user_cbi (statics s)) with
          | inr why => inr why
          | inl tbl => inl (User, tbl)
          end
      | None => inl (Builtin, user_cbi (statics s))
      end in
    match loaded with
    | inr why => inr why
    | inl (ptr, user) =>
        let fopc := match ptr with
                    | Builtin => fop_cod (tables s)
                    | User => user
                    end in
        inl (ptr,
             set_statics s
               (with_cbi (statics s) false
                  (opt_info (tables s) fopc false (has_opt_info_cbi (statics s)))
                  user),
             true)
    end
  else inl (Builtin, s, false).

(** The body of the main loop of [cbi_out]: [opt], [tot_cod] and
    [exp_cod], or the codon with an illegal classification. *)
Definition cbi_step (t : Tables) (fopc h nncod nnaa : list Z)
  (acc : Z * Z * spec_float + Z) (x : Z) : Z * Z * spec_float + Z :=
  match acc with
  | inr bad => inr bad
  | inl (opt, tot_cod, exp_cod) =>
      if Arr.get 0 h (ca_at (ca t) x) =? 0 then acc
      else
        let v := Arr.get 0 fopc x in
        let n := Arr.get 0 nncod x in
        if v =? 3 then
          inl (opt + n, tot_cod + n,
               F32.add exp_cod
                 (F32.div (F32.of_long (Arr.get 0 nnaa (ca_at (ca t) x)))
                          (F32.of_long (Arr.get 0 (da t) (ca_at (ca t) x)))))
        else if (v =? 2) || (v =? 1) then inl (opt, tot_cod + n, exp_cod)
        else inr x
  end.

(** [fcbi] from the three sums. *)
Definition cbi_value (opt tot_cod : Z) (exp_cod : spec_float) : spec_float :=
  if fnonzero (F32.sub (F32.of_long tot_cod) exp_cod)
  then F32.div (F32.sub (F32.of_long opt) exp_cod)
               (F32.sub (F32.of_long tot_cod) exp_cod)
  else fzero.

Definition cbi_out (nncod nnaa : list Z) (pm : Menu) (s : State) : result :=
  match cbi_first_call pm s with
  | inr why => Exit 99 why
  | inl (ptr, s1, banner) =>
      let fopc := match ptr with
                  | Builtin => fop_cod (tables s1)
                  | User => user_cbi (statics s1)
                  end in
      match fold_left
              (cbi_step (tables s1) fopc (has_opt_info_cbi (statics s1))
                        nncod nnaa)
              (zrange 1 65) (inl (0, 0, fzero)) with
      | inr bad => Exit 99 (IllegalValue bad)
      | inl (opt, tot_cod, exp_cod) =>
          Done 0 [CNum (cbi_value opt tot_cod exp_cod)] [] banner s1
      end
  end.

(** ** fop_out *)

Definition fop_first_call (pm : Menu) (s : State)
  : table_ptr * State * bool + fatal :=
  if first_call_fop (statics s) then
    let loaded :=
      match fopfile pm with
      | Some cs =>
          match fop_load cs (user_fop (statics s)) with
          | inr why => inr why
          | inl tbl => inl (User, tbl)
          end
      | None => inl (Builtin, user_fop (statics s))
      end in
    match loaded with
    | inr why => inr why
    | inl (ptr, user) =>
        let fopc := match ptr with
                    | Builtin => fop_cod (tables s)
                    | User => user
                    end in
        inl (ptr,
             set_statics s
               (with_fop (statics s) false
                  (opt_info (tables s) fopc (factor_in_rare (statics s))
                            (has_opt_info_fop (statics s)))
                  user),
             true)
    end
  else inl (Builtin, s, false).

(** The body of the main loop of [fop_out]: [opt], [std], [nonopt]. *)
Definition fop_step (t : Tables) (fopc h nncod : list Z)
  (acc : Z * Z * Z + Z) (x : Z) : Z * Z * Z + Z :=
  match acc with
  | inr bad => inr bad
  | inl (opt, std, nonopt) =>
      if Arr.get 0 h (ca_at (ca t) x) =? 0 then acc
      else
        let v := Arr.get 0 fopc x in
        let n := Arr.get 0 nncod x in
        if v =? 3 then inl (opt + n, std, nonopt)
        else if v =? 2 then inl (opt, std + n, nonopt)
        else if v =? 1 then inl (opt, std, nonopt + n)
        else inr x
  end.

Definition fop_value (rare : bool) (opt std nonopt : Z) : spec_float :=
  if rare && nonzero (opt + nonopt + std)
  then F32.div (F32.of_long (opt - nonopt)) (F32.of_long (opt + nonopt + std))
  else if nonzero (opt + nonopt + std)
       then F32.div (F32.of_long opt) (F32.of_long (opt + nonopt + std))
       else fzero.

Definition fop_out (nncod : list Z) (pm : Menu) (s : State) : result :=
  match fop_first_call pm s with
  | inr why => Exit 99 why
  | inl (ptr, s1, banner) =>
      let fopc := match ptr with
                  | Builtin => fop_cod (tables s1)
                  | User => user_fop (statics s1)
                  end in
      match fold_left
              (fop_step (tables s1) fopc (has_opt_info_fop (statics s1)) nncod)
              (zrange 1 65) (inl (0, 0, 0)) with
      | inr bad => Exit 99 (IllegalValue bad)
      | inl (opt, std, nonopt) =>
          Done 0
               [CNum (fop_value (factor_in_rare (statics s1)) opt std nonopt)]
               [] banner s1
      end
  end.

(** ** enc_out *)

(** [2.0] *)
Definition f64_two : spec_float := S754_finite false 4503599627370496 (-51).
(** [61] as a [float] *)
Definition f32_61 : spec_float := S754_finite false 15990784 (-18).

(** [s2]: the sum of the squared frequencies of the codons of amino
    acid [i]. *)
Definition enc_s2 (t : Tables) (nncod nnaa : list Z) (i : Z) : spec_float :=
  fold_left
    (fun s2 x =>
       if negb (ca_at (ca t) x =? i) then s2
       else
         let k2 :=
           if Arr.get 0 nncod x =? 0 then fzero
           else c_pow (F64.div (F64.of_long (Arr.get 0 nncod x))
                               (F64.of_long (Arr.get 0 nnaa i)))
                      f64_two in
         F64.add s2 k2)
    (zrange 1 65) fzero.

(** [bb], the homozygosity of amino acid [i]. *)
Definition enc_bb (t : Tables) (nncod nnaa : list Z) (i : Z) : spec_float :=
  if Arr.get 0 nnaa i <=? 1 then fzero
  else
    F64.div
      (F64.sub (F64.mul (F64.of_long (Arr.get 0 nnaa i)) (enc_s2 t nncod nnaa i))
               f64_one)
      (F64.sub (F64.of_long (Arr.get 0 nnaa i)) f64_one).

(** The loop over the amino acids: [fold], [numaa] and [totb]. *)
Definition enc_aa_step (t : Tables) (nncod nnaa : list Z)
  (acc : list Z * list Z * list spec_float) (i : Z)
  : list Z * list Z * list spec_float :=
  let '(fold, numaa, totb) := acc in
  if i =? 11 then acc
  else
    let bb := enc_bb t nncod nnaa i in
    let z := Arr.get 0 (da t) i in
    let '(numaa', totb') :=
      if SFltb f64_1em7 bb
      then (incr numaa z, Arr.set totb z (F64.add (Arr.get fzero totb z) bb))
      else (numaa, totb) in
    (incr fold z, numaa', totb').

(** The average homozygosity of fold class [z], when the data give one. *)
Definition enc_averb (fold numaa : list Z) (totb : list spec_float) (z : Z)
  : option spec_float :=
  if nonzero (Arr.get 0 numaa z) && SFltb fzero (Arr.get fzero totb z)
  then Some (F64.div (Arr.get fzero totb z) (F64.of_long (Arr.get 0 numaa z)))
  else if (z =? 3) && nonzero (Arr.get 0 numaa 2)
          && nonzero (Arr.get 0 numaa 4) && (Arr.get 0 fold z =? 1)
       then Some (F64.mul
                    (F64.add
                       (F64.div (Arr.get fzero totb 2)
                                (F64.of_long (Arr.get 0 numaa 2)))
                       (F64.div (Arr.get fzero totb 4)
                                (F64.of_long (Arr.get 0 numaa 4))))
                    f64_0_5)
       else None.

(** The loop over the fold classes: [enc_tot], and after the [break] the
    class and [numaa] handed to [codon_error]. *)
Definition enc_fold_step (fold numaa : list Z) (totb : list spec_float)
  (acc : spec_float * option (Z * Z)) (z : Z) : spec_float * option (Z * Z) :=
  let '(enc_tot, err) := acc in
  match err with
  | Some _ => acc
  | None =>
      if nonzero (Arr.get 0 fold z) then
        match enc_averb fold numaa totb z with
        | Some averb =>
            (F32.add enc_tot
               (F32.div (F32.of_long (Arr.get 0 fold z)) (F32.of_double averb)),
             None)
        | None => (enc_tot, Some (z, Arr.get 0 numaa z))
        end
      else acc
  end.

Definition enc_out (nncod nnaa : list Z) (pm : Menu) (s : State) : result :=
  let '(fold, numaa, totb) :=
    fold_left (enc_aa_step (tables s) nncod nnaa) (zrange 1 22)
              (repeat 0 9, repeat 0 9, repeat fzero 9) in
  let '(enc_tot, err) :=
    fold_left (enc_fold_step fold numaa totb) (zrange 2 9)
              (F32.of_long (Arr.get 0 fold 1), None) in
  match err with
  | Some (z, y) =>
      match codon_error z y 3 pm s with
      | Done _ _ ws _ s1 => Done 0 [CStars] ws false s1
      | Exit code why => Exit code why
      | Fault ub => Fault ub
      end
  | None =>
      if SFleb enc_tot f32_61 then Done 0 [CNum enc_tot] [] false s
      else Done 0 [CNum f32_61] [] false s
  end.

(** ** gc_out *)

(** [for x, for y, for z] over 1..4: the codons in the order visited. *)
Definition base_triples : list (Z * Z * Z) :=
  flat_map (fun x => flat_map (fun y => map (fun z => (x, y, z)) (zrange 1 5))
                              (zrange 1 5))
           (zrange 1 5).

Record gc_acc := {
  bases : list Z;
  base_tot : list Z;
  base_1 : list Z;
  base_2 : list Z;
  base_3 : list Z;
  tot_s : Z;
  totalaa : Z
}.

Definition gc_step (t : Tables) (gncod : list Z) (a : gc_acc)
  (xyz : Z * Z * Z) : gc_acc :=
  let '(x, y, z) := xyz in
  let id := (x - 1) * 16 + y + (z - 1) * 4 in
  if ca_at (ca t) id =? 11 then a
  else
    let n := Arr.get 0 gncod id in
    let bt := add_at (add_at (add_at (base_tot a) x n) y n) z n in
    if Arr.get 0 (ds t) id =? 1 then
      {| bases := bases a; base_tot := bt;
         base_1 := add_at (base_1 a) x n; base_2 := add_at (base_2 a) y n;
         base_3 := add_at (base_3 a) z n;
         tot_s := tot_s a; totalaa := totalaa a + n |}
    else
      {| bases := add_at (bases a) z n; base_tot := bt;
         base_1 := add_at (base_1 a) x n; base_2 := add_at (base_2 a) y n;
         base_3 := add_at (base_3 a) z n;
         tot_s := tot_s a + n; totalaa := totalaa a + n |}.

Definition gc_tally (t : Tables) (gncod : list Z) : gc_acc :=
  fold_left (gc_step t gncod) base_triples
            {| bases := repeat 0 5; base_tot := repeat 0 5;
               base_1 := repeat 0 5; base_2 := repeat 0 5;
               base_3 := repeat 0 5; tot_s := 0; totalaa := 0 |}.

(** [(lf)a / (lf)b] *)
Definition ratio64 (a b : Z) : cell :=
  CNum (F64.div (F64.of_long a) (F64.of_long b)).

Definition gc_cells (which : Z) (a : gc_acc) : list cell :=
  let g := Arr.get 0 in
  if which =? 1 then
    [CLong (totalaa a); CLong (tot_s a);
     ratio64 (g (base_tot a) 2 + g (base_tot a) 4) (totalaa a * 3);
     ratio64 (g (bases a) 2 + g (bases a) 4) (tot_s a);
     ratio64 (g (base_tot a) 2 + g (base_tot a) 4 - g (bases a) 2 - g (bases a) 4)
             (totalaa a * 3 - tot_s a);
     ratio64 (g (base_1 a) 2 + g (base_1 a) 4) (totalaa a);
     ratio64 (g (base_2 a) 2 + g (base_2 a) 4) (totalaa a);
     ratio64 (g (base_3 a) 2 + g (base_3 a) 4) (totalaa a);
     ratio64 (g (base_1 a) 1) (totalaa a);
     ratio64 (g (base_2 a) 1) (totalaa a);
     ratio64 (g (base_3 a) 1) (totalaa a);
     ratio64 (g (base_1 a) 2) (totalaa a);
     ratio64 (g (base_2 a) 2) (totalaa a);
     ratio64 (g (base_3 a) 2) (totalaa a);
     ratio64 (g (base_1 a) 3) (totalaa a);
     ratio64 (g (base_2 a) 3) (totalaa a);
     ratio64 (g (base_3 a) 3) (totalaa a);
     ratio64 (g (base_1 a) 4) (totalaa a);
     ratio64 (g (base_2 a) 4) (totalaa a);
     ratio64 (g (base_3 a) 4) (totalaa a)]
  else if which =? 2 then
    [ratio64 (g (base_tot a) 2 + g (base_tot a) 4) (totalaa a * 3)]
  else if which =? 3 then
    [ratio64 (g (bases a) 2 + g (bases a) 4) (tot_s a)]
  else if which =? 4 then [CLong (tot_s a)]
  else if which =? 5 then [CLong (totalaa a)]
  else [].

(** [gc_out] reads the global [ncod]. *)
Definition gc_out (which : Z) (pm : Menu) (s : State) : result :=
  let a := gc_tally (tables s) (ncod (counts s)) in
  if (tot_s a =? 0) || (totalaa a =? 0) then Done 1 [] [TooShort] false s
  else if (which =? 1) && negb (gc_header (statics s)) then
    Done 0 (gc_cells which a) [] true
         (set_statics s (with_gc_header (statics s) true))
  else Done 0 (gc_cells which a) [] false s.

(** ** base_sil_us_out *)

(** [bases_s]: the synonymous codons ending in each base. *)
Definition sil_bases (t : Tables) (nncod : list Z) : list Z :=
  fold_left
    (fun b xyz =>
       let '(x, y, z) := xyz in
       let id := (x - 1) * 16 + y + (z - 1) * 4 in
       if (Arr.get 0 (ds t) id =? 1) || (ca_at (ca t) id =? 11) then b
       else add_at b (z - 1) (Arr.get 0 nncod id))
    base_triples (repeat 0 4).

(** The inner loops for amino acid [i]: [cb] and the [done] flags. *)
Definition sil_could_be_aa (t : Tables) (nnaa : list Z) (i : Z) (cb : list Z)
  : list Z :=
  fst (fold_left
         (fun (acc : list Z * list Z) xyz =>
            let '(cb, done) := acc in
            let '(x, y, z) := xyz in
            let id := (x - 1) * 16 + y + (z - 1) * 4 in
            if (ca_at (ca t) id =? i) && (Arr.get 0 done (z - 1) =? 0)
            then (add_at cb (z - 1) (Arr.get 0 nnaa i),
                  Arr.set done (z - 1) 1)
            else acc)
         base_triples (cb, repeat 0 4)).

(** [cb]: the codons that could have ended in each base. *)
Definition sil_could_be (t : Tables) (nnaa : list Z) : list Z :=
  fold_left
    (fun cb i =>
       if (i =? 11) || (Arr.get 0 (da t) i =? 1) then cb
       else sil_could_be_aa t nnaa i cb)
    (zrange 1 22) (repeat 0 4).

Definition base_sil_us_out (nncod nnaa : list Z) (pm : Menu) (s : State)
  : result :=
  let bs := sil_bases (tables s) nncod in
  let cb := sil_could_be (tables s) nnaa in
  Done 0
       (map (fun i =>
               if 0 <? Arr.get 0 cb i
               then ratio64 (Arr.get 0 bs i) (Arr.get 0 cb i)
               else CNum fzero)
            (zrange 0 4))
       [] false s.

(** ** dinuc_out *)

Definition din_at (d : list (list Z)) (x i : Z) : Z :=
  Arr.get 0 (Arr.get [] d x) i.

(** [(float)a / (float)b] *)
Definition ratio32 (a b : Z) : cell :=
  CNum (F32.div (F32.of_long a) (F32.of_long b)).

Definition dinuc_row (d : list (list Z)) (x : Z) : list cell :=
  let tot_x := zsum (din_at d x) (zrange 0 16) in
  let tot_all := zsum (fun f => zsum (din_at d f) (zrange 0 16)) (zrange 0 3) in
  map (fun i =>
         if x =? 3 then
           if nonzero tot_all
           then ratio32 (din_at d 0 i + din_at d 1 i + din_at d 2 i) tot_all
           else CNum fzero
         else
           if nonzero tot_x then ratio32 (din_at d x i) tot_x
           else CNum fzero)
      (zrange 0 16).

Definition dinuc_out (pm : Menu) (s : State) : result :=
  Done 0 (flat_map (dinuc_row (din s)) (zrange 0 4)) []
       (negb (dinuc_called (statics s)))
       (set_statics s (with_dinuc_called (statics s) true)).

(** ** hydro_out and aromo_out *)

(** [a2_tot]: the amino acids other than the stop. *)
Definition aa_total (nnaa : list Z) : Z :=
  zsum (fun i => if i =? 11 then 0 else Arr.get 0 nnaa i) (zrange 1 22).

(** The usage-weighted mean of a property, accumulated in [float]. *)
Definition weighted_mean (prop : list spec_float) (nnaa : list Z) : spec_float :=
  fold_left
    (fun acc i =>
       if i =? 11 then acc
       else F32.add acc
              (F32.mul (F32.div (F32.of_long (Arr.get 0 nnaa i))
                                (F32.of_long (aa_total nnaa)))
                       (Arr.get fzero prop i)))
    (zrange 1 22) fzero.

Definition hydro_out (nnaa : list Z) (pm : Menu) (s : State) : result :=
  if aa_total nnaa =? 0 then Done 1 [] [TooShort] false s
  else Done 0 [CNum (weighted_mean (hydro (tables s)) nnaa)] [] false s.

Definition aromo_out (nnaa : list Z) (pm : Menu) (s : State) : result :=
  if aa_total nnaa =? 0 then Done 1 [] [TooShort] false s
  else Done 0 [CNum (weighted_mean (aromo (tables s)) nnaa)] [] false s.

(** ** The calculators, on the shared tallies *)

Inductive calculator :=
| CAI | CBI | Fop | Enc | GC (which : Z)
| SilentBase | Dinuc | Hydropathicity | Aromaticity.

(** A calculator called, as the program does, with the shared arrays
    [ncod] and [naa]. *)
Definition run (c : calculator) (pm : Menu) (s : State) : result :=
  match c with
  | CAI => cai_out (ncod (counts s)) pm s
  | CBI => cbi_out (ncod (counts s)) (naa (counts s)) pm s
  | Fop => fop_out (ncod (counts s)) pm s
  | Enc => enc_out (ncod (counts s)) (naa (counts s)) pm s
  | GC which => gc_out which pm s
  | SilentBase => base_sil_us_out (ncod (counts s)) (naa (counts s)) pm s
  | Dinuc => dinuc_out pm s
  | Hydropathicity => hydro_out (naa (counts s)) pm s
  | Aromaticity => aromo_out (naa (counts s)) pm s
  end.

(** The numbers a call wrote, or why it did not return. *)
Definition payload (r : result) : list cell + halt :=
  match r with
  | Done _ cells _ _ _ => inl cells
  | Exit _ why => inr (Exited why)
  | Fault ub => inr (Faulted ub)
  end.

(** The state a call leaves, when it returns. *)
Definition state_after (r : result) : option State :=
  match r with
  | Done _ _ _ _ s => Some s
  | Exit _ _ => None
  | Fault _ => None
  end.

End Calculators.

(* ================================================================== *)
(** * Auxiliary functions of the statements *)

(** The bases of a codon number. *)
Definition decode_b1 (n : Z) : Z := (n - 1) / 16 + 1.
Definition decode_b2 (n : Z) : Z := (n - 1) mod 4 + 1.
Definition decode_b3 (n : Z) : Z := ((n - 1) / 4) mod 4 + 1.

Definition id_of (t : Z * Z * Z) : Z :=
  let '(a, b, c) := t in spec_codon_id a b c.

(** The entries a classification file supplies: its characters '0' to
    '3', in order. *)
Definition fop_digits (cs : list Z) : list Z := map atoi1 (filter fop_digit cs).

(** ** A CAI file in the words of the specification *)

(** A source all of whose tokens convert: the calls of [fscanf] yield
    its values in order and then [EOF]. *)
Definition cai_source (vals : list spec_float) : CaiFile :=
  {| scans := map Converted vals; stuck := false |}.



(** ** The codon bias index in the words of the specification *)

(** A synonymous, non-stop codon of amino acid [a] classified optimal. *)
Definition optimal_of (t : Tables) (fopc : list Z) (a x : Z) : bool :=
  (ca_at (ca t) x =? a) && negb (stop_or_single t x)
  && (Arr.get 0 fopc x =? 3).

(** The family of amino acid [a] has at least one optimal codon. *)
Definition has_optimal (t : Tables) (fopc : list Z) (a : Z) : bool :=
  existsb (optimal_of t fopc a) (zrange 1 65).

(** Codon [x] belongs to such a family. *)
Definition eligible (t : Tables) (fopc : list Z) (x : Z) : bool :=
  has_optimal t fopc (ca_at (ca t) x).

(** Occurrences of the optimal codons of the eligible families. *)
Definition cbi_opt (t : Tables) (fopc nncod : list Z) : Z :=
  zsum (fun x => if eligible t fopc x && (Arr.get 0 fopc x =? 3)
                 then Arr.get 0 nncod x else 0)
       (zrange 1 65).

(** Occurrences of all the codons of the eligible families. *)
Definition cbi_tot (t : Tables) (fopc nncod : list Z) : Z :=
  zsum (fun x => if eligible t fopc x then Arr.get 0 nncod x else 0)
       (zrange 1 65).

(** [family_count / family_size], summed in [float] over the optimal
    codons of the eligible families, in codon order. *)
Definition cbi_exp (t : Tables) (fopc nnaa : list Z) : spec_float :=
  fold_left
    (fun e x =>
       if eligible t fopc x && (Arr.get 0 fopc x =? 3)
       then F32.add e
              (F32.div (F32.of_long (Arr.get 0 nnaa (ca_at (ca t) x)))
                       (F32.of_long (Arr.get 0 (da t) (ca_at (ca t) x))))
       else e)
    (zrange 1 65) fzero.

(** Every codon of an eligible family is classified 1, 2 or 3. *)
Definition legal_classes (t : Tables) (fopc : list Z) : bool :=
  forallb (fun x => negb (eligible t fopc x)
                    || ((1 <=? Arr.get 0 fopc x) && (Arr.get 0 fopc x <=? 3)))
          (zrange 1 65).

(** The classification a first call of [cbi_out] works with: the
    built-in one, or the one loaded from the CBI file. *)
Definition cbi_table (pm : Menu) (s : State) : option (list Z) :=
  match cbifile pm with
  | None => Some (fop_cod (tables s))
  | Some cs =>
      match fop_load cs (user_cbi (statics s)) with
      | inl tbl => Some tbl
      | inr _ => None
      end
  end.

(** The classification a call of [cbi_out] reads: on a first call the
    built-in one or the one loaded from the CBI file; on every later call
    the built-in one, [pcbi] being set from [pm->pcbi] each time the
    function is entered. *)
Definition cbi_classes (pm : Menu) (s : State) : option (list Z) :=
  if first_call_cbi (statics s) then cbi_table pm s
  else Some (fop_cod (tables s)).

(** The flags [h] mark the amino acids with an optimal codon in
    [fopc]. *)
Definition flags_of (t : Tables) (fopc h : list Z) : bool :=
  forallb (fun x => Bool.eqb (Arr.get 0 h (ca_at (ca t) x) =? 0)
                             (negb (eligible t fopc x)))
          (zrange 1 65).

(** The eligibility flags a call of [cbi_out] works with are those of
    the classification [fopc]: a first call derives them from the
    classification it reads, a later call goes by the flags it finds. *)
Definition cbi_flags (s : State) (fopc : list Z) : bool :=
  first_call_cbi (statics s)
  || flags_of (tables s) fopc (has_opt_info_cbi (statics s)).

(** ** The calculators as state transformers *)

(** The clamp of [cai_out] without the summation: every weight below
    0.0001 of a synonymous non-stop codon replaced by 0.01F. *)
Definition clamp_pass (t : Tables) (tbl : list spec_float) (x : Z)
  : list spec_float :=
  if stop_or_single t x then tbl else cai_clamp tbl x.

Definition cai_clamped (t : Tables) (tbl : list spec_float)
  : list spec_float :=
  fold_left (clamp_pass t) (zrange 1 65) tbl.

(** No override file was given. *)
Definition no_overrides (pm : Menu) : Prop :=
  caifile pm = None /\ cbifile pm = None /\ fopfile pm = None.

(** [gc_out] found no codon to work on. *)
Definition gc_too_short (s : State) : bool :=
  let a := gc_tally (tables s) (ncod (counts s)) in
  (tot_s a =? 0) || (totalaa a =? 0).

(** The state a calculator leaves when it returns and no override file
    was given: latches set, [has_opt_info] filled on a first call, and
    for [cai_out] the weights clamped in place. *)
Definition after_call (c : calculator) (s : State) : State :=
  match c with
  | CAI =>
      set_cai_val
        (set_statics s (with_cai (statics s) true (user_cai (statics s))))
        (cai_clamped (tables s) (cai_val s))
  | CBI =>
      if first_call_cbi (statics s)
      then set_statics s
             (with_cbi (statics s) false
                (opt_info (tables s) (fop_cod (tables s)) false
                          (has_opt_info_cbi (statics s)))
                (user_cbi (statics s)))
      else s
  | Fop =>
      if first_call_fop (statics s)
      then set_statics s
             (with_fop (statics s) false
                (opt_info (tables s) (fop_cod (tables s))
                          (factor_in_rare (statics s))
                          (has_opt_info_fop (statics s)))
                (user_fop (statics s)))
      else s
  | GC which =>
      if gc_too_short s then s
      else if (which =? 1) && negb (gc_header (statics s))
           then set_statics s (with_gc_header (statics s) true)
           else s
  | Dinuc => set_statics s (with_dinuc_called (statics s) true)
  | Enc => s
  | SilentBase => s
  | Hydropathicity => s
  | Aromaticity => s
  end.

(** A zero weight for TTT (codon 1), every other weight 1.0. *)
Definition zero_ttt_weights : list spec_float :=
  fzero :: fzero :: repeat f32_one 63.

(** A call either exits or returns in the given state. *)
Definition returns_in (r : result) (s' : State) : Prop :=
  (exists code why, r = Exit code why)
  \/ (exists ret cells ws banner, r = Done ret cells ws banner s').

(** The weight [cai_out] reads for a codon once the clamp has been
    applied to its entry: [v] is the entry, [inside] tells whether the
    codon lies inside the table. *)
Definition clamped_weight (inside : bool) (v : spec_float) : spec_float :=
  if SFltb (F64.of_float v) f64_0_0001
  then (if inside then f32_0_01 else fzero)
  else v.

(** The tallies, the dinucleotide state, the sequence counters and the
    reference tables other than the weights are those of [s]. *)
Definition same_shared (s s1 : State) : Prop :=
  counts s1 = counts s /\ din s1 = din s /\ fram s1 = fram s
  /\ num_sequence s1 = num_sequence s
  /\ num_seq_int_stop s1 = num_seq_int_stop s
  /\ tables s1 = tables s.

(** A returning call left the shared state alone. *)
Definition frame_ok (r : result) (s : State) : Prop :=
  match r with
  | Done _ _ _ _ s1 => same_shared s s1
  | Exit _ _ => True
  | Fault _ => True
  end.

(** An override file was given. *)
Definition is_given {A : Type} (o : option A) : bool :=
  match o with
  | Some _ => true
  | None => false
  end.

(** Calling [c2] after [c1] calls once more a calculator that takes its
    table from an override file. *)
Definition reloads (pm : Menu) (c1 c2 : calculator) : bool :=
  match c1, c2 with
  | CAI, CAI => is_given (caifile pm)
  | CBI, CBI => is_given (cbifile pm)
  | Fop, Fop => is_given (fopfile pm)
  | _, _ => false
  end.

(** What a call of [c] can have changed in [s]: its own static
    variables, and for [cai_out] the weights. *)
Definition touched (c : calculator) (s s1 : State) : Prop :=
  match c with
  | CAI =>
      exists b u v,
        s1 = set_cai_val (set_statics s (with_cai (statics s) b u)) v
  | CBI => exists b h u, s1 = set_statics s (with_cbi (statics s) b h u)
  | Fop => exists b h u, s1 = set_statics s (with_fop (statics s) b h u)
  | GC _ => exists b, s1 = set_statics s (with_gc_header (statics s) b)
  | Dinuc => exists b, s1 = set_statics s (with_dinuc_called (statics s) b)
  | Enc => s1 = s
  | SilentBase => s1 = s
  | Hydropathicity => s1 = s
  | Aromaticity => s1 = s
  end.

Definition touched_ok (c : calculator) (r : result) (s : State) : Prop :=
  match r with
  | Done _ _ _ _ s1 => touched c s s1
  | Exit _ _ => True
  | Fault _ => True
  end.

(** The examples run the calculators with the identity in the place of
    [log] and [exp] and the square in the place of [pow(., 2)]; nothing
    stated about them depends on the choice. *)
Definition id_libm (x : spec_float) : spec_float := x.
Definition square_libm (x y : spec_float) : spec_float := F64.mul x x.

(** A returning call left the weights alone. *)
Definition weights_ok (r : result) (s : State) : Prop :=
  match r with
  | Done _ _ _ _ s1 => cai_val s1 = cai_val s
  | Exit _ _ => True
  | Fault _ => True
  end.

(** ** Example inputs *)

(** A classification file that marks ATT (33) and ATC (37), two of the
    three isoleucine codons, as optimal and every other codon as
    common. *)
Definition ile_source : list Z :=
  map (fun x => if (x =? 33) || (x =? 37) then chr "3" else chr "2")
      (zrange 1 65).

(** A menu with warnings on and that file as the CBI override. *)
Definition ile_menu : Menu :=
  {| warn := true; totals := false; caifile := None;
     cbifile := Some ile_source; fopfile := None |}.

(** The universal tables with that classification built in. *)
Definition ile_tables : Tables :=
  {| ca := universal_ca;
     ds := how_synon universal_ca;
     da := how_synon_aa universal_ca;
     fop_cod := 0 :: fop_digits ile_source;
     hydro := repeat fzero 22;
     aromo := repeat fzero 22 |}.

(** A menu with warnings on and no override file. *)
Definition plain_menu : Menu :=
  {| warn := true; totals := false; caifile := None;
     cbifile := None; fopfile := None |}.

(** The state after counting a sequence from the initial state of the
    universal tables (the initial state itself if counting fails). *)
Definition counted (seq : string) : State :=
  match count_sequence (chars seq) (initial_state universal_tables unit_weights) with
  | Some (_, s) => s
  | None => initial_state universal_tables unit_weights
  end.

(** The same with the isoleucine classification built in. *)
Definition ile_counted (seq : string) : State :=
  match count_sequence (chars seq) (initial_state ile_tables unit_weights) with
  | Some (_, s) => s
  | None => initial_state ile_tables unit_weights
  end.

(* ================================================================== *)
(** * initialize_point *)

(** The members of [REF_STRUCT] the function hands out: the genetic
    codes [ref->cu], the classifications [ref->fop], the adaptiveness
    tables [ref->cai] and the amino-acid properties [ref->amino_prop]. *)
Record Ref := {
  ref_cu : list (list Z);
  ref_fop : list (list Z);
  ref_cai : list (list spec_float);
  ref_hydro : list spec_float;
  ref_aromo : list spec_float
}.

(** [&(ref->tbl[i])]: the entry, when [i] lies inside the array. *)
Definition ref_entry {A : Type} (tbl : list A) (i : Z) : option A :=
  if i <? 0 then None else nth_error tbl (Z.to_nat i).

(** [initialize_point(code, fop_species, cai_species, pm, ref)]: the
    tables the menu structure points to afterwards, [pm->pfop] and
    [pm->pcbi] at the same classification, and the weights [pm->pcai]
    points to.  [None] when one of the three indices points outside its
    array. *)
Definition initialize_point (code fop_species cai_species : Z) (ref : Ref)
  : option (Tables * list spec_float) :=
  match ref_entry (ref_cai ref) cai_species,
        ref_entry (ref_fop ref) fop_species,
        ref_entry (ref_cu ref) code with
  | Some w, Some f, Some cu =>
      Some ({| ca := cu; ds := how_synon cu; da := how_synon_aa cu;
               fop_cod := f; hydro := ref_hydro ref;
               aromo := ref_aromo ref |}, w)
  | _, _, _ => None
  end.

(** Reference data holding the universal code alone, for examples. *)
Definition universal_ref : Ref :=
  {| ref_cu := [universal_ca]; ref_fop := [0 :: repeat 2 64];
     ref_cai := [unit_weights]; ref_hydro := repeat fzero 22;
     ref_aromo := repeat fzero 22 |}.

(* ================================================================== *)
(** * dinuc_count and clean_up *)

(** What [dinuc_count] works on: the global counts [din[3][16]], the
    global frame [fram], and its static [a], the number of the base seen
    last. *)
Record DinucState := {
  dn_din : list (list Z);
  dn_fram : Z;
  dn_a : Z
}.

(** The [switch (seq[i])]: t, T, u, U give 1, c and C 2, a and A 3, g and
    G 4, anything else 0. *)
Definition dinuc_base (c : Z) : Z :=
  if is_T c then 1 else if is_C c then 2 else if is_A c then 3
  else if is_G c then 4 else 0.

(** [din[f][i]++] *)
Definition din_incr (d : list (list Z)) (f i : Z) : list (list Z) :=
  Arr.set d f (incr (Arr.get [] d f) i).

(** One pass of the loop body, on the character [c]. *)
Definition dinuc_step (st : DinucState) (c : Z) : DinucState :=
  let last_base := dn_a st in
  let a := dinuc_base c in
  if (a =? 0) || (last_base =? 0)
  then {| dn_din := dn_din st; dn_fram := dn_fram st; dn_a := a |}
  else {| dn_din := din_incr (dn_din st) (dn_fram st)
                             ((last_base - 1) * 4 + a - 1);
          dn_fram := if dn_fram st + 1 =? 3 then 0 else dn_fram st + 1;
          dn_a := a |}.

(** [INT_MAX] *)
Definition int_max : Z := 2147483647.

(** [dinuc_count(seq, ttot)] on the bytes [seq] of the caller's buffer:
    the loop reads [seq[0]] to [seq[ttot-1]], whatever they hold.  [None]
    when that reaches beyond the buffer, or when [int i] would have to
    pass [INT_MAX]. *)
Definition dinuc_count (seq : list Z) (ttot : Z) (st : DinucState) : option DinucState :=
  if (ttot <=? Z.of_nat (List.length seq)) && (ttot <=? int_max)
  then Some (fold_left dinuc_step (firstn (Z.to_nat ttot) seq) st)
  else None.

(** [for (x = 0; x < n; x++) a[x] = 0;] *)
Definition zero_fill (n : Z) (a : list Z) : list Z :=
  fold_left (fun a x => Arr.set a x 0) (zrange 0 n) a.

(** [for (x = 0; x < 3; x++) for (i = 0; i < 16; i++) din[x][i] = 0;] *)
Definition zero_din (d : list (list Z)) : list (list Z) :=
  fold_left (fun d x => Arr.set d x (zero_fill 16 (Arr.get [] d x)))
            (zrange 0 3) d.

(** [clean_up(ncod, naa)], called with the shared arrays; [a] is the
    static of [dinuc_count]. *)
Definition clean_up (s : State) (a : Z) : option (State * Z) :=
  let nncod := zero_fill 65 (ncod (counts s)) in
  let nnaa := zero_fill 23 (naa (counts s)) in
  match dinuc_count (buffer (chars " ")) 1
                    {| dn_din := din s; dn_fram := fram s; dn_a := a |} with
  | None => None
  | Some d1 =>
      match dinuc_count (buffer (chars " ")) 1
                        {| dn_din := zero_din (dn_din d1);
                           dn_fram := dn_fram d1; dn_a := dn_a d1 |} with
      | None => None
      | Some d2 =>
          Some ({| counts := {| ncod := nncod; naa := nnaa;
                                codon_tot := 0; valid_stops := 0 |};
                   num_sequence := num_sequence s;
                   num_seq_int_stop := num_seq_int_stop s;
                   din := dn_din d2; fram := 0;
                   tables := tables s; cai_val := cai_val s;
                   statics := statics s |},
                dn_a d2)
      end
  end.

(** ** The dinucleotides of a text *)

(** The pairs of neighbouring recognised bases of a text, in order, each
    numbered [(first - 1) * 4 + second - 1]; [last] is the number of the
    base before the text, 0 for none. *)
Fixpoint dinucs (last : Z) (cs : list Z) : list Z :=
  match cs with
  | [] => []
  | c :: r =>
      if (dinuc_base c =? 0) || (last =? 0) then dinucs (dinuc_base c) r
      else ((last - 1) * 4 + dinuc_base c - 1) :: dinucs (dinuc_base c) r
  end.

(** How many of the pairs [ps] are the dinucleotide [j] and fall into
    frame [f], when the first pair falls into frame [f0] and every pair
    moves the frame on by one, 2 being followed by 0. *)
Fixpoint frame_count (f0 f j : Z) (ps : list Z) : Z :=
  match ps with
  | [] => 0
  | p :: r =>
      (if (p =? j) && (f0 =? f) then 1 else 0)
      + frame_count (if f0 + 1 =? 3 then 0 else f0 + 1) f j r
  end.

(** [din] has three rows of sixteen counts. *)
Definition din_shape (d : list (list Z)) : Prop :=
  List.length d = 3%nat /\ Forall (fun r => List.length r = 16%nat) d.

(* ================================================================== *)
(** * The table writers *)

(** [(int)z] of a [long] *)
Definition to_int (z : Z) : Z := (z + 2 ^ 31) mod 2 ^ 32 - 2 ^ 31.

(** The RSCU column of [cutab_out]:
    [nncod[x] ? ((float)nncod[x] / (float)nnaa[pcu->ca[x]]) * (float)ds[x] : 0] *)
Definition cutab_rscu (t : Tables) (nncod nnaa : list Z) (x : Z) : spec_float :=
  if nonzero (Arr.get 0 nncod x)
  then F32.mul (F32.div (F32.of_long (Arr.get 0 nncod x))
                        (F32.of_long (Arr.get 0 nnaa (ca_at (ca t) x))))
               (F32.of_long (Arr.get 0 (ds t) x))
  else fzero.

(** [cutab_out(fblkout, nncod, nnaa, pm)]: the global [codon_tot] is set
    to what [codon_error] returns at its silent level 4; the cells are,
    codon by codon, the count as an [int] and the RSCU value, and at the
    end [codon_tot].  The names of the amino acids and codons are text
    and not among the cells. *)
Definition cutab_out (nncod nnaa : list Z) (pm : Menu) (s : State) : result :=
  match codon_error 1 1 4 pm s with
  | Done tot _ ws _ s1 =>
      Done 0
           (flat_map (fun x => [CLong (to_int (Arr.get 0 nncod x));
                                CNum (cutab_rscu (tables s1) nncod nnaa x)])
                     (zrange 1 65)
            ++ [CLong tot])
           ws false
           (set_counts s1
              {| ncod := ncod (counts s1); naa := naa (counts s1);
                 codon_tot := tot; valid_stops := valid_stops (counts s1) |})
  | Exit code why => Exit code why
  | Fault ub => Fault ub
  end.

(** [aa_usage_out(fblkout, nnaa, pm)]: the 22 counts [nnaa[0..21]];
    [first_line] is the function's static, and the header goes out when
    it is set.  The result is the cells, whether the header was written,
    and the static afterwards. *)
Definition aa_usage_out (nnaa : list Z) (first_line : bool)
  : list cell * bool * bool :=
  (map (fun i => CLong (Arr.get 0 nnaa i)) (zrange 0 22), first_line, false).

(** ** Counting in the words of the specification *)

(** The full triplets of a sequence with codon number [j]. *)
Definition occurrences (s : list Z) (j : Z) : Z :=
  count_if (Z.eqb j) (codon_ids s).

(** The full triplets of a sequence whose codon number translates to
    amino acid [a]; number 0, a triplet with an unrecognised base,
    translates to [ca[0]]. *)
Definition translated (ca : list Z) (s : list Z) (a : Z) : Z :=
  count_if (fun id => ca_at ca id =? a) (codon_ids s).

(** One more for a trailing partial codon. *)
Definition partial (s : list Z) : Z :=
  if seq_len s mod 3 =? 0 then 0 else 1.

(* ================================================================== *)
(** * gc_out in the words of the specification *)

(** The codon number of a base triple. *)
Definition triple_id (xyz : Z * Z * Z) : Z :=
  let '(x, y, z) := xyz in (x - 1) * 16 + y + (z - 1) * 4.

(** The codons that translate to an amino acid: all but the stops. *)
Definition sense_total (t : Tables) (gncod : list Z) : Z :=
  zsum (fun x => if ca_at (ca t) x =? 11 then 0 else Arr.get 0 gncod x)
       (zrange 1 65).

(** Those of them that have a synonym. *)
Definition synonymous_total (t : Tables) (gncod : list Z) : Z :=
  zsum (fun x => if (ca_at (ca t) x =? 11) || (Arr.get 0 (ds t) x =? 1)
                 then 0 else Arr.get 0 gncod x)
       (zrange 1 65).

(** The five arrays of [gc_out] have five entries each. *)
Definition gc_shape (a : gc_acc) : Prop :=
  List.length (bases a) = 5%nat /\ List.length (base_tot a) = 5%nat
  /\ List.length (base_1 a) = 5%nat /\ List.length (base_2 a) = 5%nat
  /\ List.length (base_3 a) = 5%nat.

(** What the tallies of [gc_out] add up to. *)
Definition gc_sums (a : gc_acc) : Prop :=
  (forall b, 1 <= b <= 4 ->
     Arr.get 0 (base_tot a) b
     = Arr.get 0 (base_1 a) b + Arr.get 0 (base_2 a) b
       + Arr.get 0 (base_3 a) b)
  /\ sum_arr (base_1 a) 1 5 = totalaa a
  /\ sum_arr (base_2 a) 1 5 = totalaa a
  /\ sum_arr (base_3 a) 1 5 = totalaa a
  /\ sum_arr (bases a) 1 5 = tot_s a.



(* ================================================================== *)
(** * The codon adaptation index in the words of the specification *)

(** The table a call of [cai_out] reads: the built-in weights, or on
    the call that loads it the table of the CAI file. *)
Definition cai_table (pm : Menu) (s : State) : option (list spec_float) :=
  if cai_ttt (statics s) then Some (cai_val s)
  else
    match caifile pm with
    | None => Some (cai_val s)
    | Some f =>
        match cai_load f (user_cai (statics s)) with
        | Loaded tbl => Some tbl
        | LoadExit _ => None
        | LoadFault _ => None
        end
    end.

(** The adaptiveness the index uses for codon [x]: the weight of the
    table, or 0.01 for a weight below 0.0001. *)
Definition cai_weight (tbl : list spec_float) (x : Z) : spec_float :=
  clamped_weight (inside tbl x) (Arr.get fzero tbl x).

(** The number of codons that enter the index: those with a synonym
    that are no stops. *)
Definition cai_codons (t : Tables) (nncod : list Z) : Z :=
  zsum (fun x => if stop_or_single t x then 0 else Arr.get 0 nncod x)
       (zrange 1 65).

(** The sum of [count * log weight] over those codons, in [double], in
    codon order. *)
Definition cai_log_sum (c_log : spec_float -> spec_float) (t : Tables)
  (nncod : list Z) (tbl : list spec_float) : spec_float :=
  fold_left
    (fun sigma x =>
       if stop_or_single t x then sigma
       else F64.add sigma
              (F64.mul (F64.of_long (Arr.get 0 nncod x))
                       (c_log (F64.of_float (cai_weight tbl x)))))
    (zrange 1 65) fzero.

(* ================================================================== *)
(** * The frequency of optimal codons in the words of the specification *)

(** The classification a call of [fop_out] reads: on a first call the
    built-in one or the one loaded from the Fop file; on every later
    call the built-in one, [pfop] being set from [pm->pfop] each time
    the function is entered. *)
Definition fop_classes (pm : Menu) (s : State) : option (list Z) :=
  if first_call_fop (statics s) then
    match fopfile pm with
    | None => Some (fop_cod (tables s))
    | Some cs =>
        match fop_load cs (user_fop (statics s)) with
        | inl tbl => Some tbl
        | inr _ => None
        end
    end
  else Some (fop_cod (tables s)).

(** The eligibility flags the call works with are those of [fopc]. *)
Definition fop_flags (s : State) (fopc : list Z) : bool :=
  first_call_fop (statics s)
  || flags_of (tables s) fopc (has_opt_info_fop (statics s)).

(** Occurrences of the codons of class [k] of the eligible families. *)
Definition fop_class_total (t : Tables) (fopc nncod : list Z) (k : Z) : Z :=
  zsum (fun x => if eligible t fopc x && (Arr.get 0 fopc x =? k)
                 then Arr.get 0 nncod x else 0)
       (zrange 1 65).

(* ================================================================== *)
(** * Totals *)

(** [dinuc_tot[3]] of [dinuc_out]: all the dinucleotides counted. *)
Definition din_total (d : list (list Z)) : Z :=
  zsum (fun f => zsum (din_at d f) (zrange 0 16)) (zrange 0 3).

(** Every character is one of the bases [dinuc_count] knows. *)
Definition all_bases (cs : list Z) : Prop :=
  Forall (fun c => dinuc_base c <> 0) cs.

(* ================================================================== *)
(** * Facts about arrays, ranges and sums *)

Section ArrFacts.
Context {A : Type}.
Variable d : A.
Import Arr.

Lemma length_set_nat (a : list A) n v :
  List.length (set_nat a n v) = List.length a.
Proof.
  revert n; induction a as [|x r IH]; intros [|n]; simpl; auto.
Qed.

Lemma length_set (a : list A) i v : List.length (set a i v) = List.length a.
Proof. unfold set. destruct (i <? 0); auto using length_set_nat. Qed.

Lemma nth_set_nat_eq (a : list A) n v :
  (n < List.length a)%nat -> nth n (set_nat a n v) d = v.
Proof.
  revert n; induction a as [|x r IH]; intros [|n]; simpl; intros H;
    try lia; auto. apply IH. lia.
Qed.

Lemma nth_set_nat_ne (a : list A) n m v :
  n <> m -> nth m (set_nat a n v) d = nth m a d.
Proof.
  revert n m; induction a as [|x r IH]; intros [|n] [|m]; simpl;
    intros H; try congruence; auto.
Qed.

Lemma get_set_eq (a : list A) i v :
  0 <= i < Z.of_nat (List.length a) -> get d (set a i v) i = v.
Proof.
  intros H. unfold get, set.
  destruct (Z.ltb_spec i 0); [lia|]. apply nth_set_nat_eq. lia.
Qed.

Lemma get_set_ne (a : list A) i j v :
  i <> j -> get d (set a i v) j = get d a j.
Proof.
  intros H. unfold get, set.
  destruct (Z.ltb_spec j 0); auto.
  destruct (Z.ltb_spec i 0); auto.
  apply nth_set_nat_ne. lia.
Qed.
End ArrFacts.

Lemma in_zrange lo hi x : In x (zrange lo hi) <-> lo <= x < hi.
Proof.
  unfold zrange. rewrite in_map_iff. split.
  - intros (k & <- & Hk). apply in_seq in Hk. lia.
  - intros H. exists (Z.to_nat (x - lo)). split; [lia|].
    apply in_seq. lia.
Qed.

Lemma zrange_all (P : Z -> bool) lo hi :
  forallb P (zrange lo hi) = true ->
  forall x, lo <= x < hi -> P x = true.
Proof.
  intros H x Hx. rewrite forallb_forall in H. apply H, in_zrange, Hx.
Qed.


Lemma NoDup_zrange lo hi : NoDup (zrange lo hi).
Proof.
  unfold zrange. apply Injective_map_NoDup.
  - intros a b H. lia.
  - apply seq_NoDup.
Qed.

Lemma zsum_cons f x l : zsum f (x :: l) = f x + zsum f l.
Proof. reflexivity. Qed.

Lemma zsum_app f l1 l2 : zsum f (l1 ++ l2) = zsum f l1 + zsum f l2.
Proof. induction l1 as [|x l IH]; simpl; [reflexivity | rewrite IH; lia]. Qed.

Lemma zsum_ext f g l :
  (forall x, In x l -> f x = g x) -> zsum f l = zsum g l.
Proof.
  induction l as [|x l IH]; simpl; intros H; [reflexivity|].
  rewrite H, IH by auto. reflexivity.
Qed.

Lemma length_incr a i : List.length (incr a i) = List.length a.
Proof. apply length_set. Qed.

Lemma get_incr_eq a i :
  0 <= i < Z.of_nat (List.length a) ->
  Arr.get 0 (incr a i) i = Arr.get 0 a i + 1.
Proof. intros H. unfold incr. now rewrite get_set_eq. Qed.

Lemma get_incr_ne a i j : i <> j -> Arr.get 0 (incr a i) j = Arr.get 0 a j.
Proof. intros H. unfold incr. now rewrite get_set_ne. Qed.

Lemma zsum_incr a i l :
  0 <= i < Z.of_nat (List.length a) -> NoDup l ->
  zsum (Arr.get 0 (incr a i)) l
  = zsum (Arr.get 0 a) l + (if existsb (Z.eqb i) l then 1 else 0).
Proof.
  intros Hi. induction 1 as [|x l Hx Hl IH]; simpl; [lia|].
  rewrite IH. destruct (Z.eqb_spec i x) as [->|Hne]; simpl.
  - rewrite get_incr_eq by assumption.
    destruct (existsb (Z.eqb x) l) eqn:E; [|lia].
    apply existsb_exists in E. destruct E as (y & Hy & Hxy).
    apply Z.eqb_eq in Hxy. subst y. contradiction.
  - rewrite get_incr_ne by assumption. lia.
Qed.

Lemma existsb_zrange i lo hi :
  existsb (Z.eqb i) (zrange lo hi) = (lo <=? i) && (i <? hi).
Proof.
  destruct (existsb (Z.eqb i) (zrange lo hi)) eqn:E.
  - apply existsb_exists in E. destruct E as (y & Hy & Hxy).
    apply Z.eqb_eq in Hxy. subst y. apply in_zrange in Hy.
    symmetry. apply andb_true_iff. split; [apply Z.leb_le | apply Z.ltb_lt]; lia.
  - symmetry. apply not_true_is_false. intros H.
    apply andb_true_iff in H. destruct H as [H1 H2].
    apply Z.leb_le in H1. apply Z.ltb_lt in H2.
    assert (Hin : In i (zrange lo hi)) by (apply in_zrange; lia).
    assert (existsb (Z.eqb i) (zrange lo hi) = true)
      by (apply existsb_exists; exists i; split; [assumption | apply Z.eqb_refl]).
    congruence.
Qed.

(** Incrementing slot [i] adds one to a range sum exactly when [i] is in
    the range. *)
Lemma sum_arr_incr a i lo hi :
  0 <= i < Z.of_nat (List.length a) ->
  sum_arr (incr a i) lo hi
  = sum_arr a lo hi + (if (lo <=? i) && (i <? hi) then 1 else 0).
Proof.
  intros Hi. unfold sum_arr.
  rewrite zsum_incr by (auto using NoDup_zrange).
  now rewrite existsb_zrange.
Qed.

(* ================================================================== *)
(** * ident_codon: the codon number *)

Ltac case_base c :=
  destruct (is_T c) eqn:?;
  [| destruct (is_C c) eqn:?;
     [| destruct (is_A c) eqn:?;
        [| destruct (is_G c) eqn:?; [| destruct (c =? 0) eqn:?]]]].

Ltac step_base c :=
  case_base c; cbv -[is_T is_C is_A is_G Z.eqb]; try reflexivity.

(** The code returns the number the specification assigns, whatever the
    fourth byte of the array holds. *)
Lemma ident_codon_spec c0 c1 c2 c3 :
  fst (ident_codon [c0; c1; c2; c3]) = spec_codon_id c0 c1 c2.
Proof.
  unfold ident_codon, spec_codon_id, base_number.
  cbv -[is_T is_C is_A is_G Z.eqb].
  step_base c0; step_base c1; step_base c2.
Qed.

Lemma ident_codon_length c0 c1 c2 c3 :
  List.length (snd (ident_codon [c0; c1; c2; c3])) = 4%nat.
Proof.
  unfold ident_codon.
  cbv -[is_T is_C is_A is_G Z.eqb].
  step_base c0; step_base c1; step_base c2.
Qed.

Lemma base_number_range c : 0 <= base_number c <= 4.
Proof.
  unfold base_number.
  destruct (is_T c), (is_C c), (is_A c), (is_G c); lia.
Qed.

Lemma codon_id_range b1 b2 b3 :
  1 <= b1 <= 4 -> 1 <= b2 <= 4 -> 1 <= b3 <= 4 ->
  1 <= codon_id b1 b2 b3 <= 64.
Proof. unfold codon_id. lia. Qed.

Lemma spec_codon_id_range c0 c1 c2 : 0 <= spec_codon_id c0 c1 c2 <= 64.
Proof.
  unfold spec_codon_id.
  pose proof (base_number_range c0). pose proof (base_number_range c1).
  pose proof (base_number_range c2).
  destruct (Z.eqb_spec (base_number c0) 0); simpl; [lia|].
  destruct (Z.eqb_spec (base_number c1) 0); simpl; [lia|].
  destruct (Z.eqb_spec (base_number c2) 0); simpl; [lia|].
  unfold codon_id. lia.
Qed.

Lemma base_number_letter b : 1 <= b <= 4 -> base_number (base_letter b) = b.
Proof.
  intros H.
  assert (C : b = 1 \/ b = 2 \/ b = 3 \/ b = 4) by lia.
  destruct C as [-> | [-> | [-> | ->]]]; reflexivity.
Qed.

Lemma is_T_iff c :
  is_T c = true <-> c = chr "T" \/ c = chr "t" \/ c = chr "U" \/ c = chr "u".
Proof.
  unfold is_T. rewrite !orb_true_iff, !Z.eqb_eq. tauto.
Qed.

Lemma is_C_iff c : is_C c = true <-> c = chr "C" \/ c = chr "c".
Proof. unfold is_C. rewrite !orb_true_iff, !Z.eqb_eq. tauto. Qed.

Lemma is_A_iff c : is_A c = true <-> c = chr "A" \/ c = chr "a".
Proof. unfold is_A. rewrite !orb_true_iff, !Z.eqb_eq. tauto. Qed.

Lemma is_G_iff c : is_G c = true <-> c = chr "G" \/ c = chr "g".
Proof. unfold is_G. rewrite !orb_true_iff, !Z.eqb_eq. tauto. Qed.

Lemma base_number_cases c :
  (base_number c = 1 <->
     c = chr "T" \/ c = chr "t" \/ c = chr "U" \/ c = chr "u")
  /\ (base_number c = 2 <-> c = chr "C" \/ c = chr "c")
  /\ (base_number c = 3 <-> c = chr "A" \/ c = chr "a")
  /\ (base_number c = 4 <-> c = chr "G" \/ c = chr "g").
Proof.
  repeat split; intros H;
    try (repeat (destruct H as [H|H]); subst c; reflexivity);
    unfold base_number in H;
    destruct (is_T c) eqn:ET; try discriminate;
    try (now apply is_T_iff);
    destruct (is_C c) eqn:EC; try discriminate;
    try (now apply is_C_iff);
    destruct (is_A c) eqn:EA; try discriminate;
    try (now apply is_A_iff);
    destruct (is_G c) eqn:EG; try discriminate;
    now apply is_G_iff.
Qed.

(** The array after the call holds the base numbers, when no NUL cut the
    loop short. *)
Lemma ident_codon_rewrites c0 c1 c2 c3 :
  c0 <> 0 -> c1 <> 0 -> c2 <> 0 ->
  snd (ident_codon [c0; c1; c2; c3])
  = [base_number c0; base_number c1; base_number c2; c3].
Proof.
  intros H0 H1 H2.
  apply Z.eqb_neq in H0, H1, H2.
  unfold ident_codon, base_number.
  cbv -[is_T is_C is_A is_G Z.eqb].
  case_base c0; try congruence; cbv -[is_T is_C is_A is_G Z.eqb];
    (case_base c1; try congruence; cbv -[is_T is_C is_A is_G Z.eqb];
     (case_base c2; try congruence; reflexivity)).
Qed.

Lemma decode_codon_id n :
  1 <= n < 65 ->
  (1 <= decode_b1 n <= 4 /\ 1 <= decode_b2 n <= 4 /\ 1 <= decode_b3 n <= 4)
  /\ codon_id (decode_b1 n) (decode_b2 n) (decode_b3 n) = n.
Proof.
  intros H.
  pose (P := fun n =>
    (1 <=? decode_b1 n) && (decode_b1 n <=? 4)
    && (1 <=? decode_b2 n) && (decode_b2 n <=? 4)
    && (1 <=? decode_b3 n) && (decode_b3 n <=? 4)
    && (codon_id (decode_b1 n) (decode_b2 n) (decode_b3 n) =? n)).
  assert (A : P n = true) by (apply (zrange_all P 1 65); [vm_compute; reflexivity | assumption]).
  unfold P in A. rewrite !andb_true_iff, !Z.leb_le, Z.eqb_eq in A. lia.
Qed.

(** C2.  [ident_codon] rewrites each base of a 3-character codon to its
    number (T/t/U/u = 1, C/c = 2, A/a = 3, G/g = 4, anything else 0) and
    returns 0 as soon as a position maps to 0, and
    [(b1-1)*16 + b2 + (b3-1)*4] otherwise; on triplets of recognised
    bases this is a bijection onto 1..64; a NUL in the third position
    makes it return 0, and the byte after the triplet is never read. *)
Theorem ident_codon_correct :
  (forall c,
      (base_number c = 1 <->
         c = chr "T" \/ c = chr "t" \/ c = chr "U" \/ c = chr "u")
      /\ (base_number c = 2 <-> c = chr "C" \/ c = chr "c")
      /\ (base_number c = 3 <-> c = chr "A" \/ c = chr "a")
      /\ (base_number c = 4 <-> c = chr "G" \/ c = chr "g")
      /\ 0 <= base_number c <= 4)
  /\ (forall c0 c1 c2 c3,
         c0 <> 0 -> c1 <> 0 -> c2 <> 0 ->
         snd (ident_codon [c0; c1; c2; c3])
         = [base_number c0; base_number c1; base_number c2; c3])
  /\ (forall c0 c1 c2 c3,
         fst (ident_codon [c0; c1; c2; c3])
         = if (base_number c0 =? 0) || (base_number c1 =? 0)
              || (base_number c2 =? 0)
           then 0
           else (base_number c0 - 1) * 16 + base_number c1
                + (base_number c2 - 1) * 4)
  /\ (forall c0 c1 c2 c3,
         base_number c0 <> 0 -> base_number c1 <> 0 -> base_number c2 <> 0 ->
         1 <= fst (ident_codon [c0; c1; c2; c3]) <= 64)
  /\ (forall c0 c1 c2 c3 d0 d1 d2 d3,
         base_number c0 <> 0 -> base_number c1 <> 0 -> base_number c2 <> 0 ->
         base_number d0 <> 0 -> base_number d1 <> 0 -> base_number d2 <> 0 ->
         fst (ident_codon [c0; c1; c2; c3]) = fst (ident_codon [d0; d1; d2; d3]) ->
         base_number c0 = base_number d0 /\ base_number c1 = base_number d1
         /\ base_number c2 = base_number d2)
  /\ (forall n, 1 <= n <= 64 ->
         exists c0 c1 c2,
           base_number c0 <> 0 /\ base_number c1 <> 0 /\ base_number c2 <> 0
           /\ forall c3, fst (ident_codon [c0; c1; c2; c3]) = n)
  /\ (forall c0 c1 c3, fst (ident_codon [c0; c1; 0; c3]) = 0)
  /\ (forall c0 c1 c2 c3 c3',
         fst (ident_codon [c0; c1; c2; c3]) = fst (ident_codon [c0; c1; c2; c3'])).
Proof.
  split; [|split; [|split; [|split; [|split; [|split; [|split]]]]]].
  - intros c. pose proof (base_number_cases c) as (H1 & H2 & H3 & H4).
    pose proof (base_number_range c). tauto.
  - apply ident_codon_rewrites.
  - intros. apply ident_codon_spec.
  - intros c0 c1 c2 c3 H0 H1 H2. rewrite ident_codon_spec.
    unfold spec_codon_id.
    apply Z.eqb_neq in H0, H1, H2. rewrite H0, H1, H2. simpl.
    apply Z.eqb_neq in H0, H1, H2.
    pose proof (base_number_range c0). pose proof (base_number_range c1).
    pose proof (base_number_range c2). apply codon_id_range; lia.
  - intros c0 c1 c2 c3 d0 d1 d2 d3 H0 H1 H2 G0 G1 G2.
    rewrite !ident_codon_spec. unfold spec_codon_id.
    apply Z.eqb_neq in H0, H1, H2, G0, G1, G2.
    rewrite H0, H1, H2, G0, G1, G2. simpl.
    apply Z.eqb_neq in H0, H1, H2, G0, G1, G2.
    pose proof (base_number_range c0). pose proof (base_number_range c1).
    pose proof (base_number_range c2). pose proof (base_number_range d0).
    pose proof (base_number_range d1). pose proof (base_number_range d2).
    unfold codon_id. lia.
  - intros n Hn.
    destruct (decode_codon_id n) as ((B1 & B2 & B3) & E); [lia|].
    exists (base_letter (decode_b1 n)), (base_letter (decode_b2 n)),
      (base_letter (decode_b3 n)).
    rewrite !base_number_letter by assumption.
    repeat split; try lia.
    intros c3. rewrite ident_codon_spec. unfold spec_codon_id.
    rewrite !base_number_letter by assumption.
    replace (decode_b1 n =? 0) with false by (symmetry; apply Z.eqb_neq; lia).
    replace (decode_b2 n =? 0) with false by (symmetry; apply Z.eqb_neq; lia).
    replace (decode_b3 n =? 0) with false by (symmetry; apply Z.eqb_neq; lia).
    exact E.
  - intros c0 c1 c3. rewrite ident_codon_spec. unfold spec_codon_id.
    change (base_number 0) with 0. simpl. now rewrite !orb_true_r.
  - intros. now rewrite !ident_codon_spec.
Qed.

(* ================================================================== *)
(** * codon_usage_tot: the loop *)

Lemma last_cons (A : Type) (l : list A) (x d : A) :
  last (x :: l) d = last l x.
Proof.
  revert x d. induction l as [|y l IH]; intros x d; [reflexivity|].
  change (last (x :: y :: l) d) with (last (y :: l) d).
  now rewrite !IH.
Qed.

Lemma nth_error_middle (pre : list Z) x post :
  nth_error (pre ++ x :: post) (List.length pre) = Some x.
Proof.
  rewrite nth_error_app2 by lia. now rewrite Nat.sub_diag.
Qed.

(** Inside the text, [strncpy] copies the three bytes of the codon. *)
Lemma strncpy_codon pre a b c post d0 d1 d2 d3 :
  a <> 0 -> b <> 0 -> c <> 0 ->
  strncpy 3 [d0; d1; d2; d3] 0 (pre ++ a :: b :: c :: post)
          (Z.of_nat (List.length pre))
  = Some [a; b; c; d3].
Proof.
  intros Ha Hb Hc. apply Z.eqb_neq in Ha, Hb, Hc.
  assert (E0 : nth_error (pre ++ a :: b :: c :: post)
                 (Z.to_nat (Z.of_nat (List.length pre))) = Some a).
  { rewrite Nat2Z.id. apply nth_error_middle. }
  assert (E1 : nth_error (pre ++ a :: b :: c :: post)
                 (Z.to_nat (Z.of_nat (List.length pre) + 1)) = Some b).
  { replace (Z.to_nat (Z.of_nat (List.length pre) + 1))
      with (List.length (pre ++ [a])) by (rewrite length_app; simpl; lia).
    replace (pre ++ a :: b :: c :: post) with ((pre ++ [a]) ++ b :: c :: post)
      by (rewrite <- app_assoc; reflexivity).
    apply nth_error_middle. }
  assert (E2 : nth_error (pre ++ a :: b :: c :: post)
                 (Z.to_nat (Z.of_nat (List.length pre) + 1 + 1)) = Some c).
  { replace (Z.to_nat (Z.of_nat (List.length pre) + 1 + 1))
      with (List.length (pre ++ [a; b])) by (rewrite length_app; simpl; lia).
    replace (pre ++ a :: b :: c :: post) with ((pre ++ [a; b]) ++ c :: post)
      by (rewrite <- app_assoc; reflexivity).
    apply nth_error_middle. }
  cbn [strncpy]. rewrite E0, Ha, E1, Hb, E2, Hc. reflexivity.
Qed.

Lemma count_codon_spec ca a b c d st :
  exists d0 d1 d2,
    count_codon ca [a; b; c; d] st
    = (spec_codon_id a b c, [d0; d1; d2; d], tally ca st (spec_codon_id a b c)).
Proof.
  unfold count_codon.
  pose proof (ident_codon_spec a b c d) as E.
  assert (L : exists d0 d1 d2, snd (ident_codon [a; b; c; d]) = [d0; d1; d2; d]).
  { unfold ident_codon. cbv -[is_T is_C is_A is_G Z.eqb].
    step_base a; try (do 3 eexists; reflexivity);
      step_base b; try (do 3 eexists; reflexivity);
      step_base c; do 3 eexists; reflexivity. }
  destruct L as (d0 & d1 & d2 & L).
  destruct (ident_codon [a; b; c; d]) as [ic codon']. simpl in E, L. subst.
  exists d0, d1, d2. reflexivity.
Qed.

(** The loop on a text of at least two bytes: one pass per full triplet,
    no read outside the text, no wrap of [i]. *)
Lemma count_loop_text ca tail :
  forall fuel rest pre icode st d0 d1 d2 d3,
    Forall (fun c => c <> 0) rest ->
    (List.length rest < fuel)%nat ->
    2 <= Z.of_nat (List.length pre + List.length rest) < uint_max ->
    exists e0 e1 e2,
      count_loop fuel ca (Z.of_nat (List.length pre + List.length rest) - 2)
                 (Z.of_nat (List.length pre)) icode st
                 {| m_seq := pre ++ rest ++ 0 :: tail;
                    m_codon := [d0; d1; d2; d3] |}
      = LDone (last (map Some (map id_of (triplets rest))) icode)
              (fold_left (tally ca) (map id_of (triplets rest)) st)
              {| m_seq := pre ++ rest ++ 0 :: tail;
                 m_codon := [e0; e1; e2; d3] |}.
Proof.
  induction fuel as [|fuel IH]; intros rest pre icode st d0 d1 d2 d3 Hnz Hf Hn;
    [lia|].
  destruct rest as [|a [|b [|c rest]]].
  1-3: cbn [count_loop triplets map fold_left last];
       simpl List.length in *;
       match goal with
       | |- context [?i <? ?l] =>
           replace (i <? l) with false by (symmetry; apply Z.ltb_ge; lia)
       end; exists d0, d1, d2; reflexivity.
  cbn [count_loop]. simpl List.length in *.
  match goal with
  | |- context [?i <? ?l] =>
      replace (i <? l) with true by (symmetry; apply Z.ltb_lt; lia)
  end.
  cbn [m_seq m_codon].
  inversion Hnz as [|? ? Ha Hnz1]; subst.
  inversion Hnz1 as [|? ? Hb Hnz2]; subst.
  inversion Hnz2 as [|? ? Hc Hnz3]; subst.
  change (pre ++ (a :: b :: c :: rest) ++ 0 :: tail)
    with (pre ++ a :: b :: c :: (rest ++ 0 :: tail)).
  rewrite strncpy_codon by assumption.
  destruct (count_codon_spec ca a b c d3 st) as (f0 & f1 & f2 & E).
  rewrite E.
  assert (Ei : (Z.of_nat (List.length pre) + 3) mod uint_max
               = Z.of_nat (List.length (pre ++ [a; b; c]))).
  { rewrite length_app. simpl List.length.
    rewrite Z.mod_small by (unfold uint_max in *; lia). lia. }
  rewrite Ei.
  replace (pre ++ a :: b :: c :: rest ++ 0 :: tail)
    with ((pre ++ [a; b; c]) ++ rest ++ 0 :: tail)
    by (rewrite <- app_assoc; reflexivity).
  replace (Z.of_nat (List.length pre + S (S (S (List.length rest)))) - 2)
    with (Z.of_nat (List.length (pre ++ [a; b; c]) + List.length rest) - 2)
    by (rewrite length_app; simpl List.length; lia).
  destruct (IH rest (pre ++ [a; b; c]) (Some (spec_codon_id a b c))
              (tally ca st (spec_codon_id a b c)) f0 f1 f2 d3)
    as (e0 & e1 & e2 & R).
  - assumption.
  - lia.
  - rewrite length_app. simpl List.length. lia.
  - exists e0, e1, e2. rewrite R.
    cbn [triplets map fold_left id_of].
    f_equal. symmetry. apply last_cons.
Qed.

(** ** The text of a buffer *)

Lemma c_text_split buf :
  In 0 buf ->
  exists tail, buf = c_text buf ++ 0 :: tail.
Proof.
  induction buf as [|c r IH]; simpl; intros H; [contradiction|].
  destruct (Z.eqb_spec c 0) as [->|Hc].
  - exists r. reflexivity.
  - destruct H as [H|H]; [congruence|].
    destruct (IH H) as (tail & E). exists tail. simpl. now rewrite <- E.
Qed.

Lemma c_text_nonzero buf : Forall (fun c => c <> 0) (c_text buf).
Proof.
  induction buf as [|c r IH]; simpl; [constructor|].
  destruct (Z.eqb_spec c 0); [constructor|]. now constructor.
Qed.

Lemma strlen_c_text buf : strlen buf = Z.of_nat (List.length (c_text buf)).
Proof.
  induction buf as [|c r IH]; cbn [strlen c_text]; [reflexivity|].
  destruct (Z.eqb_spec c 0); cbn [List.length]; lia.
Qed.

Lemma strlen_bounds buf : 0 <= strlen buf <= Z.of_nat (List.length buf).
Proof.
  induction buf as [|c r IH]; cbn [strlen List.length]; [lia|].
  destruct (c =? 0); lia.
Qed.

Lemma buffer_has_nul s : In 0 (buffer s).
Proof. unfold buffer. apply in_or_app. right. now left. Qed.

Lemma seq_len_text s :
  seq_len s = Z.of_nat (List.length (c_text (buffer s))).
Proof. apply strlen_c_text. Qed.

(** A sequence without NUL characters has its length as [seq_len]. *)
Lemma seq_len_length s :
  Forall (fun c => c <> 0) s -> seq_len s = Z.of_nat (List.length s).
Proof.
  unfold seq_len, buffer.
  induction 1 as [|c r Hc _ IH]; cbn [app strlen List.length]; [reflexivity|].
  apply Z.eqb_neq in Hc. rewrite Hc, IH. lia.
Qed.

Lemma triplets_length_aux :
  forall n l, (List.length l < n)%nat ->
    Z.of_nat (List.length (triplets l)) = Z.of_nat (List.length l) / 3.
Proof.
  induction n as [|n IH]; intros l Hl; [lia|].
  destruct l as [|a [|b [|c r]]]; try reflexivity.
  cbn [triplets List.length] in *.
  rewrite Nat2Z.inj_succ, IH by lia.
  replace (Z.of_nat (S (S (S (List.length r)))))
    with (Z.of_nat (List.length r) + 1 * 3) by lia.
  rewrite Z.div_add by lia. lia.
Qed.

Lemma triplets_length l :
  Z.of_nat (List.length (triplets l)) = Z.of_nat (List.length l) / 3.
Proof. apply (triplets_length_aux (S (List.length l))). lia. Qed.

Lemma codon_ids_length s : Z.of_nat (List.length (codon_ids s)) = seq_len s / 3.
Proof.
  unfold codon_ids. rewrite length_map, triplets_length.
  now rewrite seq_len_text.
Qed.

Lemma codon_ids_range s : Forall (fun id => 0 <= id <= 64) (codon_ids s).
Proof.
  unfold codon_ids. apply Forall_forall. intros id Hid.
  apply in_map_iff in Hid. destruct Hid as (((a & b) & c) & <- & _).
  apply spec_codon_id_range.
Qed.

(** ** The function on a sequence of at least two bases *)

Lemma codon_usage_tot_text ca s st :
  2 <= seq_len s < uint_max ->
  exists m,
    codon_usage_tot ca (buffer s) st
    = Returned (final_icode s) (final_state ca s st) m
    /\ m_seq m = buffer s.
Proof.
  intros Hn.
  destruct (c_text_split (buffer s) (buffer_has_nul s)) as (tail & Hsplit).
  pose proof (c_text_nonzero (buffer s)) as Hnz.
  pose proof (seq_len_text s) as Hlen.
  unfold codon_usage_tot. fold (seq_len s).
  rewrite (Z.mod_small (seq_len s)) by (unfold uint_max in *; lia).
  rewrite (Z.mod_small (seq_len s - 2)) by (unfold uint_max in *; lia).
  destruct (count_loop_text ca tail (S (List.length (buffer s)))
              (c_text (buffer s)) [] None st 0 0 0 0)
    as (e0 & e1 & e2 & R).
  - assumption.
  - pose proof (strlen_bounds (buffer s)). unfold seq_len in *. lia.
  - simpl List.length. lia.
  - cbn [List.length Nat.add app] in R. change (Z.of_nat 0) with 0 in R.
    rewrite <- Hsplit, <- Hlen in R.
    rewrite R. clear R.
    assert (Hids : map id_of (triplets (c_text (buffer s))) = codon_ids s)
      by reflexivity.
    rewrite Hids.
    unfold final_state, final_icode.
    destruct (Z.eqb_spec (seq_len s mod 3) 0) as [Hm|Hm]; cbn [negb].
    + (* the length is a multiple of 3: at least one codon was read *)
      assert (Hne : codon_ids s <> []).
      { intros E. pose proof (codon_ids_length s) as L.
        rewrite E in L. simpl in L.
        assert (3 <= seq_len s).
        { destruct (Z.eq_dec (seq_len s) 2) as [E2|]; [rewrite E2 in Hm; discriminate | lia]. }
        assert (1 <= seq_len s / 3) by (apply Z.div_le_lower_bound; lia).
        lia. }
      destruct (codon_ids s) as [|id ids] eqn:Eids; [congruence|].
      assert (Hlast : last (map Some (id :: ids)) None
                      = Some (last (id :: ids) 0)).
      { clear. revert id. induction ids as [|y l IH]; intros id; [reflexivity|].
        change (last (map Some (id :: y :: l)) None)
          with (last (map Some (y :: l)) None).
        change (last (id :: y :: l) 0) with (last (y :: l) 0). apply IH. }
      rewrite Hlast.
      eexists. split; [reflexivity|reflexivity].
    + eexists. split; [reflexivity|reflexivity].
Qed.

(** ** What the tallies add up to *)

Lemma wf_code_inv ca :
  wf_code ca = true ->
  Z.of_nat (List.length ca) = 65 /\ ca_at ca 0 = 0
  /\ forall x, 1 <= x <= 64 -> 1 <= ca_at ca x <= 21.
Proof.
  unfold wf_code. rewrite !andb_true_iff, !Z.eqb_eq.
  intros [[H1 H2] H3]. repeat split; try assumption;
    pose proof (zrange_all _ 1 65 H3 x) as A; cbv beta in A;
    rewrite andb_true_iff, !Z.leb_le in A; lia.
Qed.

Lemma count_if_cons P x l :
  count_if P (x :: l) = (if P x then 1 else 0) + count_if P l.
Proof.
  unfold count_if. cbn [filter]. destruct (P x); cbn [List.length]; lia.
Qed.

Lemma count_if_split P l :
  count_if P l + count_if (fun x => negb (P x)) l = Z.of_nat (List.length l).
Proof.
  induction l as [|x l IH]; [reflexivity|].
  rewrite !count_if_cons. cbn [List.length]. destruct (P x); simpl negb; lia.
Qed.

Lemma count_if_nonneg P l : 0 <= count_if P l.
Proof. unfold count_if. lia. Qed.

(** The effect of a run of codons on every tally. *)
Lemma tally_fold ca :
  wf_code ca = true ->
  forall ids st,
    Forall (fun id => 0 <= id <= 64) ids ->
    List.length (ncod st) = 65%nat -> (22 <= List.length (naa st))%nat ->
    let st' := fold_left (tally ca) ids st in
    List.length (ncod st') = 65%nat
    /\ List.length (naa st') = List.length (naa st)
    /\ codon_tot st' = codon_tot st + Z.of_nat (List.length ids)
    /\ valid_stops st' = valid_stops st
    /\ sum_arr (ncod st') 1 65 = sum_arr (ncod st) 1 65 + count_if is_codon ids
    /\ Arr.get 0 (ncod st') 0 = Arr.get 0 (ncod st) 0 + count_if is_zero ids
    /\ sum_arr (naa st') 1 22 = sum_arr (naa st) 1 22 + count_if is_codon ids
    /\ Arr.get 0 (naa st') 0 = Arr.get 0 (naa st) 0 + count_if is_zero ids.
Proof.
  intros Hwf. destruct (wf_code_inv ca Hwf) as (_ & Hca0 & Hca).
  induction ids as [|id ids IH]; intros st Hr Hn Ha; cbn zeta.
  - cbn [fold_left List.length]. unfold count_if. cbn [filter List.length].
    repeat split; lia.
  - inversion Hr as [|? ? Hid Hr']; subst.
    cbn [fold_left].
    specialize (IH (tally ca st id) Hr').
    cbn zeta in IH. cbn [tally ncod naa codon_tot valid_stops] in IH.
    rewrite !length_incr in IH.
    destruct (IH Hn Ha) as (I1 & I2 & I3 & I4 & I5 & I6 & I7 & I8).
    rewrite I1, I2, I3, I4, I5, I6, I7, I8. clear I1 I2 I3 I4 I5 I6 I7 I8 IH.
    rewrite !count_if_cons. unfold is_codon, is_zero. cbn [List.length].
    rewrite (sum_arr_incr (ncod st) id 1 65) by lia.
    destruct (Z.eqb_spec id 0) as [->|Hne]; cbn [negb].
    + rewrite Hca0.
      rewrite (sum_arr_incr (naa st) 0 1 22) by lia.
      rewrite !get_incr_eq by lia.
      change ((1 <=? 0) && (0 <? 65)) with false.
      change ((1 <=? 0) && (0 <? 22)) with false.
      cbv beta iota. repeat split; lia.
    + assert (Hc : 1 <= ca_at ca id <= 21) by (apply Hca; lia).
      rewrite (sum_arr_incr (naa st) (ca_at ca id) 1 22) by lia.
      rewrite !get_incr_ne by lia.
      replace ((1 <=? id) && (id <? 65)) with true
        by (symmetry; apply andb_true_iff; split;
            [apply Z.leb_le | apply Z.ltb_lt]; lia).
      replace ((1 <=? ca_at ca id) && (ca_at ca id <? 22)) with true
        by (symmetry; apply andb_true_iff; split;
            [apply Z.leb_le | apply Z.ltb_lt]; lia).
      cbv beta iota. repeat split; lia.
Qed.

Lemma recognised_unrecognised s : recognised s + unrecognised s = seq_len s / 3.
Proof.
  unfold recognised, unrecognised.
  rewrite Z.add_comm.
  change is_codon with (fun x => negb (is_zero x)).
  rewrite (count_if_split is_zero).
  apply codon_ids_length.
Qed.

(** C1, as the code has it.  For a sequence of at least two bases and a
    well-formed genetic code, counting from the zeroed state leaves
    [codon_tot] at [floor(length/3)], the number of scanned triplets;
    [sum(ncod[1..64])] is the number of those triplets whose three bases
    are all recognised, and [sum(naa[1..21])] equals it; a triplet with
    an unrecognised base is tallied in [ncod[0]] and in [naa[0]], and a
    trailing partial codon adds one to [ncod[0]] alone. *)
Theorem codon_usage_tot_counts ca s :
  wf_code ca = true ->
  2 <= seq_len s < uint_max ->
  exists icode st m,
    codon_usage_tot ca (buffer s) zero_state = Returned icode st m
    /\ codon_tot st = seq_len s / 3
    /\ recognised s + unrecognised s = seq_len s / 3
    /\ sum_arr (ncod st) 1 65 = recognised s
    /\ sum_arr (naa st) 1 22 = sum_arr (ncod st) 1 65
    /\ Arr.get 0 (ncod st) 0
       = unrecognised s + (if seq_len s mod 3 =? 0 then 0 else 1)
    /\ Arr.get 0 (naa st) 0 = unrecognised s.
Proof.
  intros Hwf Hn.
  destruct (codon_usage_tot_text ca s zero_state Hn) as (m & E & _).
  exists (final_icode s), (final_state ca s zero_state), m.
  split; [exact E|]. clear E.
  pose proof (tally_fold ca Hwf (codon_ids s) zero_state (codon_ids_range s)
                eq_refl) as T.
  cbn zeta in T.
  destruct T as (L1 & L2 & T3 & T4 & T5 & T6 & T7 & T8);
    [cbn; lia|].
  change (sum_arr (ncod zero_state) 1 65) with 0 in T5.
  change (sum_arr (naa zero_state) 1 22) with 0 in T7.
  change (Arr.get 0 (ncod zero_state) 0) with 0 in T6.
  change (Arr.get 0 (naa zero_state) 0) with 0 in T8.
  change (codon_tot zero_state) with 0 in T3.
  rewrite codon_ids_length in T3.
  fold (recognised s) in T5, T7. fold (unrecognised s) in T6, T8.
  split; [|split; [apply recognised_unrecognised|]].
  - unfold final_state.
    destruct (ca_at ca (final_icode s) =? 11), (seq_len s mod 3 =? 0);
      cbn [codon_tot]; lia.
  - unfold final_state.
    destruct (ca_at ca (final_icode s) =? 11), (seq_len s mod 3 =? 0);
      cbn [ncod naa];
      rewrite ?(sum_arr_incr _ 0 1 65) by lia;
      rewrite ?get_incr_eq by lia;
      change ((1 <=? 0) && (0 <? 65)) with false;
      cbv beta iota; repeat split; lia.
Qed.

Lemma codon_usage_tot_counts_witness :
  exists icode st m,
    codon_usage_tot universal_ca (buffer (chars "ATGNNGCTTAAC")) zero_state
    = Returned icode st m
    /\ codon_tot st = seq_len (chars "ATGNNGCTTAAC") / 3
    /\ recognised (chars "ATGNNGCTTAAC") + unrecognised (chars "ATGNNGCTTAAC")
       = seq_len (chars "ATGNNGCTTAAC") / 3
    /\ sum_arr (ncod st) 1 65 = recognised (chars "ATGNNGCTTAAC")
    /\ sum_arr (naa st) 1 22 = sum_arr (ncod st) 1 65
    /\ Arr.get 0 (ncod st) 0
       = unrecognised (chars "ATGNNGCTTAAC")
         + (if seq_len (chars "ATGNNGCTTAAC") mod 3 =? 0 then 0 else 1)
    /\ Arr.get 0 (naa st) 0 = unrecognised (chars "ATGNNGCTTAAC").
Proof.
  apply (codon_usage_tot_counts universal_ca (chars "ATGNNGCTTAAC")).
  - reflexivity.
  - split; [vm_compute; discriminate | vm_compute; reflexivity].
Defined.

(** C1 as stated fails where a scanned triplet holds an unrecognised
    base: in "ATGNNNTAA" three triplets are scanned and [codon_tot] is 3,
    but [ncod[1..64]] and [naa[1..21]] add up to 2. *)
Lemma codon_usage_tot_counts_unrecognised :
  exists icode st m,
    codon_usage_tot universal_ca (buffer (chars "ATGNNNTAA")) zero_state
    = Returned icode st m
    /\ seq_len (chars "ATGNNNTAA") / 3 = 3
    /\ sum_arr (ncod st) 1 65 = 2
    /\ sum_arr (naa st) 1 22 = 2
    /\ codon_tot st = 3
    /\ sum_arr (ncod st) 1 65 <> seq_len (chars "ATGNNNTAA") / 3
    /\ codon_tot st <> sum_arr (ncod st) 1 65.
Proof.
  do 3 eexists. split; [vm_compute; reflexivity|].
  vm_compute. repeat split; discriminate.
Qed.

(** ** valid_stops *)

Lemma tally_fold_valid_stops ca ids :
  forall st, valid_stops (fold_left (tally ca) ids st) = valid_stops st.
Proof.
  induction ids as [|id ids IH]; intros st; [reflexivity|].
  cbn [fold_left]. now rewrite IH.
Qed.

(** C6, as the code has it.  For a sequence of at least two bases,
    [valid_stops] goes up by one exactly when the length is a multiple
    of three and the last codon translates to the stop amino acid 11;
    after one or two trailing bases [icode] is reset to 0 and
    [valid_stops] is left as it was. *)
Theorem codon_usage_tot_valid_stop ca s st :
  ca_at ca 0 <> 11 ->
  2 <= seq_len s < uint_max ->
  exists icode st' m,
    codon_usage_tot ca (buffer s) st = Returned icode st' m
    /\ icode = (if seq_len s mod 3 =? 0 then last (codon_ids s) 0 else 0)
    /\ valid_stops st'
       = valid_stops st
         + (if (seq_len s mod 3 =? 0)
               && (ca_at ca (last (codon_ids s) 0) =? 11)
            then 1 else 0).
Proof.
  intros H0 Hn.
  destruct (codon_usage_tot_text ca s st Hn) as (m & E & _).
  exists (final_icode s), (final_state ca s st), m.
  split; [exact E|]. split; [reflexivity|].
  unfold final_state, final_icode.
  destruct (seq_len s mod 3 =? 0); cbn [andb].
  - destruct (ca_at ca (last (codon_ids s) 0) =? 11); cbn [valid_stops];
      rewrite tally_fold_valid_stops; lia.
  - apply Z.eqb_neq in H0. rewrite H0. cbn [valid_stops].
    rewrite tally_fold_valid_stops. lia.
Qed.

Lemma codon_usage_tot_valid_stop_witness :
  exists icode st' m,
    codon_usage_tot universal_ca (buffer (chars "ATGGCTTAA")) zero_state
    = Returned icode st' m
    /\ icode = (if seq_len (chars "ATGGCTTAA") mod 3 =? 0
                then last (codon_ids (chars "ATGGCTTAA")) 0 else 0)
    /\ valid_stops st'
       = valid_stops zero_state
         + (if (seq_len (chars "ATGGCTTAA") mod 3 =? 0)
               && (ca_at universal_ca
                     (last (codon_ids (chars "ATGGCTTAA")) 0) =? 11)
            then 1 else 0).
Proof.
  apply (codon_usage_tot_valid_stop universal_ca (chars "ATGGCTTAA") zero_state).
  - vm_compute. discriminate.
  - split; [vm_compute; discriminate | vm_compute; reflexivity].
Defined.

(** C6 as stated fails with trailing bases: the last full codon of
    "ATGTAAG" is TAA, a stop, and [valid_stops] stays 0. *)
Lemma codon_usage_tot_valid_stop_trailing :
  exists icode st' m,
    codon_usage_tot universal_ca (buffer (chars "ATGTAAG")) zero_state
    = Returned icode st' m
    /\ ca_at universal_ca (last (codon_ids (chars "ATGTAAG")) 0) = 11
    /\ icode = 0
    /\ valid_stops st' = valid_stops zero_state.
Proof.
  do 3 eexists. split; [vm_compute; reflexivity|].
  vm_compute. repeat split.
Qed.

(** ** Sequences shorter than two bases *)

Lemma spec_codon_id_nul_2 c : spec_codon_id c 0 0 = 0.
Proof.
  unfold spec_codon_id. change (base_number 0) with 0.
  change (0 =? 0) with true. now rewrite orb_true_r.
Qed.

(** C7, where the code departs from it.  On the empty sequence and on
    every one-base sequence the unsigned bound [seqlen - 2] wraps, the
    loop body runs, the tallies of codon 0 and [codon_tot] go up by one,
    and the second [strncpy] reads at [seq + 3], beyond the terminator. *)
Theorem codon_usage_tot_short_reads_past_end ca st :
  (exists m,
      codon_usage_tot ca (buffer []) st = ReadPastEnd (tally ca st 0) m)
  /\ (forall c, exists m,
         codon_usage_tot ca (buffer [c]) st = ReadPastEnd (tally ca st 0) m).
Proof.
  split.
  - eexists. cbv -[tally ca_at incr Z.add]. reflexivity.
  - intros c. unfold codon_usage_tot, buffer.
    cbn [app strlen List.length].
    destruct (Z.eqb_spec c 0) as [->|Hc].
    + eexists. cbv -[tally ca_at incr Z.add]. reflexivity.
    + change (((1 + (if 0 =? 0 then 0 else 1 + 0)) mod uint_max - 2) mod uint_max)
        with 4294967295.
      cbn [count_loop m_seq m_codon].
      change (0 <? 4294967295) with true. cbv iota.
      assert (S : strncpy 3 [0; 0; 0; 0] 0 [c; 0] 0 = Some [c; 0; 0; 0]).
      { cbn [strncpy]. change (Z.to_nat 0) with 0%nat.
        cbn [nth_error]. apply Z.eqb_neq in Hc. rewrite Hc.
        change (Z.to_nat (0 + 1)) with 1%nat. cbn [nth_error].
        reflexivity. }
      rewrite S.
      destruct (count_codon_spec ca c 0 0 0 st) as (d0 & d1 & d2 & E).
      rewrite spec_codon_id_nul_2 in E. rewrite E.
      change ((0 + 3) mod uint_max) with 3.
      change (3 <? 4294967295) with true. cbv iota.
      eexists. reflexivity.
Qed.

(** The same at a concrete input: counting "A" from the zeroed state
    stops in the read past the end, with [codon_tot] already 1. *)
Lemma codon_usage_tot_one_base :
  exists st m,
    codon_usage_tot universal_ca (buffer (chars "A")) zero_state
    = ReadPastEnd st m
    /\ codon_tot st = 1 /\ Arr.get 0 (ncod st) 0 = 1
    /\ Arr.get 0 (naa st) 0 = 1.
Proof.
  do 2 eexists. split; [vm_compute; reflexivity|].
  vm_compute. repeat split.
Qed.

(** With exactly two bases the bound is 0, no codon is scanned and only
    [ncod[0]] moves. *)
Lemma codon_usage_tot_two_bases ca st a b :
  a <> 0 -> b <> 0 -> ca_at ca 0 <> 11 ->
  exists m,
    codon_usage_tot ca (buffer [a; b]) st
    = Returned 0 {| ncod := incr (ncod st) 0; naa := naa st;
                    codon_tot := codon_tot st;
                    valid_stops := valid_stops st |} m.
Proof.
  intros Ha Hb H0. apply Z.eqb_neq in Ha, Hb, H0.
  unfold codon_usage_tot, buffer. cbn [app strlen List.length].
  rewrite Ha, Hb.
  change (((1 + (1 + (if 0 =? 0 then 0 else 1 + 0))) mod uint_max - 2) mod uint_max)
    with 0.
  cbn [count_loop]. change (0 <? 0) with false. cbv iota.
  change ((1 + (1 + (if 0 =? 0 then 0 else 1 + 0))) mod uint_max mod 3 =? 0)
    with false.
  cbn [negb]. rewrite H0. eexists. reflexivity.
Qed.

(* ================================================================== *)
(** * codon_usage_tot: what holds for every buffer *)

(** The loop never writes to the sequence: every write of [strncpy] and
    of [ident_codon] lands in the local array. *)
Lemma count_loop_seq ca limit :
  forall fuel i icode st m,
    match count_loop fuel ca limit i icode st m with
    | LDone _ _ m' => m_seq m' = m_seq m
    | LReadPastEnd _ m' => m_seq m' = m_seq m
    | LOutOfFuel => True
    end.
Proof.
  induction fuel as [|fuel IH]; intros i icode st m; cbn [count_loop]; [exact I|].
  destruct (i <? limit); [|reflexivity].
  destruct (strncpy 3 (m_codon m) 0 (m_seq m) i) as [codon|]; [|reflexivity].
  destruct (count_codon ca codon st) as [[ic codon'] st'].
  specialize (IH ((i + 3) mod uint_max) (Some ic) st'
                {| m_seq := m_seq m; m_codon := codon' |}).
  destruct (count_loop fuel ca limit ((i + 3) mod uint_max) (Some ic) st'
              {| m_seq := m_seq m; m_codon := codon' |}); exact IH.
Qed.

Lemma strncpy_in_range n dst k src i :
  0 <= i -> strncpy (S n) dst k src i <> None ->
  i < Z.of_nat (List.length src).
Proof.
  intros Hi H. cbn [strncpy] in H.
  destruct (nth_error src (Z.to_nat i)) eqn:E; [|congruence].
  assert (nth_error src (Z.to_nat i) <> None) by congruence.
  apply nth_error_Some in H0. lia.
Qed.

(** The fuel handed to the loop is enough: [i] advances by three without
    wrapping for as long as the body finds a byte to read. *)
Lemma count_loop_total ca limit :
  0 <= limit < uint_max ->
  forall fuel i icode st m,
    0 <= i -> i mod 3 = 0 ->
    (0 < fuel)%nat ->
    Z.of_nat (List.length (m_seq m)) - i < Z.of_nat fuel ->
    count_loop fuel ca limit i icode st m <> LOutOfFuel.
Proof.
  intros Hl.
  induction fuel as [|fuel IH]; intros i icode st m Hi H3 Hf Hlen; [lia|].
  cbn [count_loop].
  destruct (Z.ltb_spec i limit) as [Hlt|]; [|discriminate].
  destruct (strncpy 3 (m_codon m) 0 (m_seq m) i) as [codon|] eqn:ES;
    [|discriminate].
  assert (Hr : i < Z.of_nat (List.length (m_seq m))).
  { apply (strncpy_in_range 2 (m_codon m) 0); [assumption | congruence]. }
  destruct (count_codon ca codon st) as [[ic codon'] st'].
  assert (Ei : (i + 3) mod uint_max = i + 3).
  { apply Z.mod_small. change uint_max with 4294967296 in *.
    pose proof (Z.div_mod i 3). lia. }
  rewrite Ei.
  apply IH; cbn [m_seq]; try lia.
  rewrite <- Z.add_mod_idemp_l, H3 by lia. reflexivity.
Qed.

(** Once the body has run, [icode] is assigned. *)
Lemma count_loop_icode ca limit :
  forall fuel i icode st m ic' st' m',
    count_loop fuel ca limit i icode st m = LDone ic' st' m' ->
    ic' = None -> icode = None /\ (i <? limit) = false.
Proof.
  induction fuel as [|fuel IH]; intros i icode st m ic' st' m' H Hn;
    cbn [count_loop] in H; [discriminate|].
  destruct (i <? limit).
  - destruct (strncpy 3 (m_codon m) 0 (m_seq m) i) as [codon|]; [|discriminate].
    destruct (count_codon ca codon st) as [[ic codon'] st1].
    destruct (IH _ _ _ _ _ _ _ H Hn) as [A _]. discriminate.
  - inversion H; subst. split; reflexivity.
Qed.

(** C10.  Whatever the sequence, genetic code and tallies,
    [codon_usage_tot] stops (by returning, or in the read past the end of
    a sequence shorter than two bases) with every byte of the caller's
    buffer as it was: the triplets are copied into the local array, and
    that array is what [ident_codon] rewrites. *)
Theorem codon_usage_tot_leaves_sequence ca s st :
  result_seq (codon_usage_tot ca (buffer s) st) = Some (buffer s).
Proof.
  unfold codon_usage_tot.
  set (seqlen := strlen (buffer s) mod uint_max).
  set (limit := (seqlen - 2) mod uint_max).
  set (m0 := {| m_seq := buffer s; m_codon := [0; 0; 0; 0] |}).
  assert (Hs : 0 <= seqlen < uint_max)
    by (apply Z.mod_pos_bound; reflexivity).
  assert (Hl : 0 <= limit < uint_max)
    by (apply Z.mod_pos_bound; reflexivity).
  pose proof (count_loop_seq ca limit (S (List.length (buffer s))) 0 None st m0)
    as Hseq.
  pose proof (count_loop_total ca limit Hl (S (List.length (buffer s))) 0 None
                st m0) as Htot.
  destruct (count_loop (S (List.length (buffer s))) ca limit 0 None st m0)
    as [icode st1 m1 | st1 m1 |] eqn:E.
  - destruct (Z.eqb_spec (seqlen mod 3) 0) as [Hm|Hm]; cbn [negb].
    + destruct icode as [ic|].
      * cbn [result_seq]. now rewrite Hseq.
      * exfalso.
        destruct (count_loop_icode ca limit _ _ _ _ _ _ _ _ E eq_refl)
          as [_ Hnl].
        apply Z.ltb_ge in Hnl.
        assert (limit = 0) by lia.
        unfold limit in *. change uint_max with 4294967296 in *.
        assert (seqlen = 2).
        { destruct (Z.eq_dec seqlen 0) as [->|]; [discriminate|].
          destruct (Z.eq_dec seqlen 1) as [->|]; [discriminate|].
          rewrite Z.mod_small in H by lia. lia. }
        subst seqlen. rewrite H0 in Hm. discriminate.
    + cbn [result_seq]. now rewrite Hseq.
  - cbn [result_seq]. now rewrite Hseq.
  - exfalso. apply Htot; cbn [m_seq m0]; try reflexivity; lia.
Qed.

(** [ident_codon] does rewrite the array it is handed: called on the
    sequence itself it would have replaced the letters by base numbers. *)
Lemma ident_codon_rewrites_argument :
  ident_codon (buffer (chars "ATG")) = (45, [3; 1; 4; 0]).
Proof. reflexivity. Qed.

(* ================================================================== *)
(** * codon_error: internal stop codons *)

(** C8, as the code has it.  At error level 1 the function warns exactly
    when warnings are enabled and the number of stop codons among the
    counted codons minus [valid_stops] is not zero (greater than zero
    whenever [valid_stops] does not exceed the stop count); it then
    writes one warning, the per-sequence one or in totals mode the
    aggregated one, and adds one to [num_seq_int_stop]; otherwise it
    writes nothing and leaves the counter alone.  It always returns
    [sum(ncod[1..64])] and never touches the tallies.  With warnings
    enabled, "ATGTAGGCTTAA" under the universal code gives exactly one
    internal-stop warning, for one internal stop. *)
Theorem codon_error_internal_stop :
  (forall x y pm s,
      let ns := stop_count s - valid_stops (counts s) in
      exists ws s',
        codon_error x y 1 pm s = Done (loc_cod_tot s) [] ws false s'
        /\ (ws <> [] <-> (ns <> 0 /\ warn pm = true))
        /\ (ws <> [] ->
            ws = [if totals pm then InternalStopsTotal ns
                  else InternalStops (num_sequence s) ns])
        /\ num_seq_int_stop s'
           = num_seq_int_stop s + match ws with [] => 0 | _ => 1 end
        /\ counts s' = counts s /\ tables s' = tables s
        /\ (valid_stops (counts s) <= stop_count s -> (ns <> 0 <-> ns > 0)))
  /\ (forall pm,
         warn pm = true -> totals pm = false ->
         exists icode s1 s2,
           count_sequence (chars "ATGTAGGCTTAA") (initial_state universal_tables unit_weights)
           = Some (icode, s1)
           /\ codon_error icode 0 1 pm s1
              = Done 4 [] [InternalStops 1 1] false s2
           /\ num_seq_int_stop s2 = 1).
Proof.
  split.
  - intros x y pm s ns. unfold codon_error. fold ns.
    change (1 =? 1) with true. cbv iota.
    change (negb valid_start && warn pm) with false. cbv iota.
    unfold nonzero.
    destruct (Z.eqb_spec ns 0) as [E|E]; cbn [negb andb].
    + exists [], s.
      split; [reflexivity|]. split; [split; [congruence | tauto]|].
      repeat split; try congruence; lia.
    + destruct (warn pm) eqn:W.
      * eexists _, _. split; [reflexivity|]. cbn [app andb].
        split; [split; [tauto | discriminate]|].
        split; [intros _; destruct (totals pm); reflexivity|].
        repeat split; cbn [num_seq_int_stop counts tables]; lia.
      * exists [], s.
        split; [reflexivity|].
        split; [split; [congruence | intros [_ H]; discriminate]|].
        repeat split; try congruence; lia.
  - intros pm W T. do 3 eexists.
    split; [vm_compute; reflexivity|].
    unfold codon_error. change (1 =? 1) with true. cbv iota.
    rewrite W, T. split; [vm_compute; reflexivity | reflexivity].
Qed.

(** C8 as stated fails with warnings switched off: the same sequence has
    one internal stop, and the function neither warns nor counts it. *)
Lemma codon_error_internal_stop_silenced :
  exists icode s1,
    count_sequence (chars "ATGTAGGCTTAA") (initial_state universal_tables unit_weights)
    = Some (icode, s1)
    /\ stop_count s1 - valid_stops (counts s1) = 1
    /\ codon_error icode 0 1
         {| warn := false; totals := false; caifile := None;
            cbifile := None; fopfile := None |} s1
       = Done 4 [] [] false s1.
Proof.
  do 2 eexists. split; [vm_compute; reflexivity|].
  split; vm_compute; reflexivity.
Qed.

(* ================================================================== *)
(** * Loading the override tables *)

Lemma set_nat_middle (A : Type) (pre : list A) (x v : A) (post : list A) :
  Arr.set_nat (pre ++ x :: post) (List.length pre) v = pre ++ v :: post.
Proof.
  induction pre as [|p pre IH]; cbn [app List.length Arr.set_nat];
    [reflexivity | now rewrite IH].
Qed.

Lemma set_middle (A : Type) (pre : list A) (x v : A) (post : list A) :
  Arr.set (pre ++ x :: post) (Z.of_nat (List.length pre)) v = pre ++ v :: post.
Proof.
  unfold Arr.set.
  destruct (Z.ltb_spec (Z.of_nat (List.length pre)) 0); [lia|].
  rewrite Nat2Z.id. apply set_nat_middle.
Qed.

Lemma set_beyond (A : Type) (l : list A) (i : Z) (v : A) :
  Z.of_nat (List.length l) <= i -> Arr.set l i v = l.
Proof.
  intros H. unfold Arr.set. destruct (Z.ltb_spec i 0); [reflexivity|].
  assert (Hn : (List.length l <= Z.to_nat i)%nat) by lia.
  clear H H0. revert Hn. generalize (Z.to_nat i). clear i.
  induction l as [|x l IH]; intros [|n] Hn; cbn [Arr.set_nat List.length] in *;
    try reflexivity; try lia.
  rewrite IH by lia. reflexivity.
Qed.

(** ** Numbers and the range test *)












(** ** The CAI loop *)

Lemma cai_read_app rs1 :
  forall rs2 x ftemp tbl,
    cai_read (rs1 ++ rs2) x ftemp tbl
    = match cai_read rs1 x ftemp tbl with
      | ReadEnd x' tbl' ftemp' => cai_read rs2 x' ftemp' tbl'
      | other => other
      end.
Proof.
  induction rs1 as [|r rs1 IH]; intros rs2 x ftemp tbl; [reflexivity|].
  cbn [app cai_read].
  destruct (match r with Converted v => Some v | NoMatch => ftemp end)
    as [v|]; [|reflexivity].
  destruct (cai_out_of_range v); [reflexivity|].
  destruct (inside tbl x); [apply IH | reflexivity].
Qed.

Lemma inside_middle (A : Type) (pre rest : list A) x :
  inside (pre ++ x :: rest) (Z.of_nat (List.length pre)) = true.
Proof.
  unfold inside. rewrite length_app. cbn [List.length].
  apply andb_true_iff. split; [apply Z.leb_le | apply Z.ltb_lt]; lia.
Qed.

(** On values that all convert, the loop stores them in order from
    entry 1 on and counts them, unless one is out of range. *)
Lemma cai_read_spec :
  forall vals pre rest ftemp,
    (List.length vals <= List.length rest)%nat ->
    cai_read (map Converted vals) (Z.of_nat (List.length pre)) ftemp
             (pre ++ rest)
    = if existsb cai_out_of_range vals then ReadRange
      else ReadEnd (Z.of_nat (List.length pre + List.length vals))
                   (pre ++ vals ++ skipn (List.length vals) rest)
                   (fold_left (fun _ v => Some v) vals ftemp).
Proof.
  induction vals as [|v vals IH]; intros pre rest ftemp Hl.
  - cbn [map cai_read existsb List.length skipn app fold_left].
    now rewrite Nat.add_0_r.
  - cbn [map cai_read existsb fold_left].
    destruct (cai_out_of_range v); [reflexivity|]. cbn [orb].
    destruct rest as [|r rest]; [cbn [List.length] in Hl; lia|].
    rewrite inside_middle, set_middle.
    replace (Z.of_nat (List.length pre) + 1)
      with (Z.of_nat (List.length (pre ++ [v])))
      by (rewrite length_app; cbn [List.length]; lia).
    replace (pre ++ v :: rest) with ((pre ++ [v]) ++ rest)
      by (rewrite <- app_assoc; reflexivity).
    rewrite IH by (cbn [List.length] in Hl; lia).
    destruct (existsb cai_out_of_range vals); [reflexivity|].
    rewrite length_app. cbn [List.length skipn app].
    rewrite <- app_assoc. cbn [app].
    f_equal. lia.
Qed.


(** With [EOF] out of reach the loop goes on with the value it has:
    after enough passes the store leaves the table. *)
Lemma cai_read_stuck v :
  cai_out_of_range v = false ->
  forall k x tbl,
    0 <= x -> (Z.to_nat (Z.of_nat (List.length tbl) - x) < k)%nat ->
    cai_read (repeat NoMatch k) x (Some v) tbl = ReadPastTable.
Proof.
  intros Hv. induction k as [|k IH]; intros x tbl Hx Hk; [lia|].
  cbn [repeat cai_read]. rewrite Hv.
  unfold inside.
  destruct (Z.ltb_spec x (Z.of_nat (List.length tbl))) as [Hin|Hout].
  - replace (0 <=? x) with true by (symmetry; apply Z.leb_le; lia).
    cbn [andb]. apply IH; [lia|]. rewrite length_set. lia.
  - now rewrite andb_false_r.
Qed.

(** A stuck file never loads and never ends in the count error. *)
Lemma cai_load_stuck f user :
  stuck f = true ->
  cai_load f user = LoadExit ValueOutOfRange
  \/ exists ub, cai_load f user = LoadFault ub.
Proof.
  intros Hs. unfold cai_load. rewrite Hs.
  destruct (cai_read (scans f) 1 None (Arr.set user 0 fzero))
    as [x tbl [v|]| | |]; eauto.
Qed.

(** A 65th value that passes the range test is stored beyond the table
    before the count is looked at. *)
Lemma cai_load_past_table vals v rest user :
  List.length user = 65%nat -> List.length vals = 64%nat ->
  existsb cai_out_of_range (vals ++ [v]) = false ->
  cai_load (cai_source (vals ++ v :: rest)) user = LoadFault PastTable.
Proof.
  intros Hu Hv Hr. unfold cai_load, cai_source. cbn [scans stuck].
  destruct user as [|u0 user]; [discriminate|].
  change (Arr.set (u0 :: user) 0 fzero) with ([fzero] ++ user).
  rewrite map_app, cai_read_app.
  change 1 with (Z.of_nat (List.length [fzero])).
  rewrite cai_read_spec by (cbn [List.length] in Hu; lia).
  rewrite existsb_app in Hr. apply orb_false_iff in Hr.
  destruct Hr as [Hr1 Hr2]. rewrite Hr1.
  cbn [existsb] in Hr2. rewrite orb_false_r in Hr2.
  cbn [map cai_read]. rewrite Hr2.
  unfold inside. rewrite !length_app, length_skipn. cbn [List.length] in *.
  replace (Z.of_nat (1 + List.length vals)
           <? Z.of_nat (1 + (List.length vals
                             + (List.length user - List.length vals))))
    with false by (symmetry; apply Z.ltb_ge; lia).
  now rewrite andb_false_r.
Qed.







(** A CAI file that reads "1.0 x": the first call converts 1.0, the
    character x stops every later call, which returns 0 and never
    [EOF].  [cai_out] goes on storing 1.0 until the store leaves the
    table; [my_exit] is never reached.  With "x" alone the first pass
    tests [ftemp] before anything was assigned to it. *)
Lemma cai_out_no_match :
  cai_out id_libm id_libm (repeat 0 65)
    {| warn := true; totals := false;
       caifile := Some {| scans := [Converted f32_one]; stuck := true |};
       cbifile := None; fopfile := None |}
    (initial_state universal_tables unit_weights)
  = Fault PastTable
  /\ cai_read (repeat NoMatch 64) 2 (Some f32_one)
              (fzero :: f32_one :: repeat fzero 63)
     = ReadPastTable
  /\ cai_out id_libm id_libm (repeat 0 65)
       {| warn := true; totals := false;
          caifile := Some {| scans := []; stuck := true |};
          cbifile := None; fopfile := None |}
       (initial_state universal_tables unit_weights)
     = Fault Unassigned.
Proof. repeat split; vm_compute; reflexivity. Qed.

(* ================================================================== *)
(** * cbi_out *)

Lemma zsum_nonneg f l : (forall x, 0 <= f x) -> 0 <= zsum f l.
Proof.
  intros H. induction l as [|x l IH]; cbn [zsum fold_right]; [lia|].
  specialize (H x). fold (zsum f l). lia.
Qed.

Lemma zsum_indicator_zero (P : Z -> bool) l :
  zsum (fun x => if P x then 1 else 0) l = 0 <-> existsb P l = false.
Proof.
  induction l as [|x l IH]; cbn [zsum fold_right existsb]; [tauto|].
  fold (zsum (fun x => if P x then 1 else 0) l).
  pose proof (zsum_nonneg (fun x => if P x then 1 else 0) l
                ltac:(intros y; cbv beta; destruct (P y); lia)) as N.
  destruct (P x); cbn [orb].
  - split; [lia | discriminate].
  - rewrite <- IH. lia.
Qed.

(** Resetting slots 1..21. *)
Lemma opt_info_reset_get h a :
  List.length h = 22%nat -> 1 <= a <= 21 ->
  Arr.get 0 (opt_info_reset h) a = 0.
Proof.
  intros Hl Ha. unfold opt_info_reset.
  assert (G : forall l h',
             List.length h' = 22%nat ->
             (forall x, In x l -> 1 <= x <= 21) ->
             Arr.get 0 (fold_left (fun h x => Arr.set h x 0) l h') a
             = if existsb (Z.eqb a) l then 0 else Arr.get 0 h' a).
  { induction l as [|x l IH]; intros h' Hh Hin; cbn [fold_left existsb];
      [reflexivity|].
    rewrite IH by (rewrite ?length_set; auto with datatypes).
    destruct (existsb (Z.eqb a) l); [now rewrite orb_true_r|].
    rewrite orb_false_r.
    destruct (Z.eqb_spec a x) as [->|Hne].
    - apply get_set_eq. specialize (Hin x (or_introl eq_refl)). lia.
    - apply get_set_ne. congruence. }
  rewrite G; [|assumption | intros x Hx; apply in_zrange in Hx; lia].
  rewrite existsb_zrange.
  replace ((1 <=? a) && (a <? 22)) with true; [reflexivity|].
  symmetry. apply andb_true_iff. split; [apply Z.leb_le | apply Z.ltb_lt]; lia.
Qed.

Lemma opt_info_reset_length h :
  List.length (opt_info_reset h) = List.length h.
Proof.
  unfold opt_info_reset. generalize (zrange 1 22). intros l. revert h.
  induction l as [|x l IH]; intros h; cbn [fold_left]; [reflexivity|].
  rewrite IH. apply length_set.
Qed.

(** [has_opt_info] counts, for each amino acid, the optimal codons among
    its synonymous non-stop codons. *)
Lemma opt_info_count t fopc h a :
  wf_code (ca t) = true -> List.length h = 22%nat -> 1 <= a <= 21 ->
  Arr.get 0 (opt_info t fopc false h) a
  = zsum (fun x => if optimal_of t fopc a x then 1 else 0) (zrange 1 65).
Proof.
  intros Hwf Hl Ha. destruct (wf_code_inv _ Hwf) as (_ & _ & Hca).
  unfold opt_info.
  assert (G : forall l h',
             List.length h' = 22%nat ->
             (forall x, In x l -> 1 <= x <= 64) ->
             Arr.get 0 (fold_left (opt_info_step t fopc false) l h') a
             = Arr.get 0 h' a
               + zsum (fun x => if optimal_of t fopc a x then 1 else 0) l).
  { induction l as [|x l IH]; intros h' Hh Hin; cbn [fold_left zsum fold_right];
      [lia|].
    fold (zsum (fun x => if optimal_of t fopc a x then 1 else 0) l).
    assert (Hx : 1 <= ca_at (ca t) x <= 21)
      by (apply Hca, Hin; now left).
    unfold opt_info_step at 2. rewrite andb_false_r. cbv zeta.
    unfold optimal_of at 1.
    destruct (stop_or_single t x); cbn [negb andb].
    - rewrite andb_false_r. cbn [andb]. rewrite IH by auto with datatypes. lia.
    - rewrite andb_true_r.
      destruct (Arr.get 0 fopc x =? 3).
      + rewrite IH by (rewrite ?length_incr; auto with datatypes).
        rewrite andb_true_r.
        destruct (Z.eqb_spec (ca_at (ca t) x) a) as [E|E].
        * rewrite E, get_incr_eq by lia. lia.
        * rewrite get_incr_ne by assumption. lia.
      + rewrite andb_false_r. rewrite IH by auto with datatypes. lia. }
  rewrite G.
  - rewrite opt_info_reset_get by assumption. lia.
  - now rewrite opt_info_reset_length.
  - intros x Hx. apply in_zrange in Hx. lia.
Qed.

Lemma opt_info_eligible t fopc h x :
  wf_code (ca t) = true -> List.length h = 22%nat -> 1 <= x <= 64 ->
  (Arr.get 0 (opt_info t fopc false h) (ca_at (ca t) x) =? 0)
  = negb (eligible t fopc x).
Proof.
  intros Hwf Hl Hx. destruct (wf_code_inv _ Hwf) as (_ & _ & Hca).
  rewrite opt_info_count by auto.
  unfold eligible, has_optimal.
  destruct (existsb (optimal_of t fopc (ca_at (ca t) x)) (zrange 1 65)) eqn:E;
    cbn [negb].
  - apply Z.eqb_neq. intros Z0. apply zsum_indicator_zero in Z0. congruence.
  - apply Z.eqb_eq. now apply zsum_indicator_zero.
Qed.

(** The main loop adds up what the specification says. *)
Lemma cbi_loop_spec t fopc h nncod nnaa :
  forall l opt tot e,
    (forall x, In x l ->
       (Arr.get 0 h (ca_at (ca t) x) =? 0) = negb (eligible t fopc x)) ->
    forallb (fun x => negb (eligible t fopc x)
                      || ((1 <=? Arr.get 0 fopc x) && (Arr.get 0 fopc x <=? 3)))
            l = true ->
    fold_left (cbi_step t fopc h nncod nnaa) l (inl (opt, tot, e))
    = inl (opt + zsum (fun x => if eligible t fopc x && (Arr.get 0 fopc x =? 3)
                                then Arr.get 0 nncod x else 0) l,
           tot + zsum (fun x => if eligible t fopc x
                                then Arr.get 0 nncod x else 0) l,
           fold_left
             (fun e x =>
                if eligible t fopc x && (Arr.get 0 fopc x =? 3)
                then F32.add e
                       (F32.div
                          (F32.of_long (Arr.get 0 nnaa (ca_at (ca t) x)))
                          (F32.of_long (Arr.get 0 (da t) (ca_at (ca t) x))))
                else e)
             l e).
Proof.
  induction l as [|x l IH]; intros opt tot e Hh Hleg; cbn [fold_left].
  - unfold zsum. cbn [fold_right]. now rewrite !Z.add_0_r.
  - rewrite !zsum_cons. cbv beta.
cbn [forallb] in Hleg. apply andb_true_iff in Hleg.
    destruct Hleg as [Hx Hleg].
    cbn [cbi_step]. rewrite (Hh x) by now left.
    destruct (eligible t fopc x); cbn [negb andb orb] in *.
    + apply andb_true_iff in Hx. destruct Hx as [H1 H3].
      apply Z.leb_le in H1, H3.
      destruct (Z.eqb_spec (Arr.get 0 fopc x) 3) as [E3|E3].
      * rewrite IH by auto with datatypes.
        now rewrite <- !Z.add_assoc.
      * replace ((Arr.get 0 fopc x =? 2) || (Arr.get 0 fopc x =? 1)) with true
          by (symmetry; apply orb_true_iff; rewrite !Z.eqb_eq; lia).
        rewrite IH by auto with datatypes.
        now rewrite <- !Z.add_assoc.
    + rewrite IH by auto with datatypes.
      now rewrite !Z.add_0_l.
Qed.

(** The flags a first call derives are those of the classification
    it reads. *)
Lemma opt_info_flags t fopc h :
  wf_code (ca t) = true -> List.length h = 22%nat ->
  flags_of t fopc (opt_info t fopc false h) = true.
Proof.
  intros Hwf Hlen. unfold flags_of. apply forallb_forall.
  intros x Hx. apply in_zrange in Hx.
  rewrite opt_info_eligible by (assumption || lia).
  apply eqb_reflx.
Qed.

Lemma opt_info_length t fopc rare h :
  List.length (opt_info t fopc rare h) = List.length h.
Proof.
  unfold opt_info. rewrite <- (opt_info_reset_length h).
  generalize (opt_info_reset h). generalize (zrange 1 65).
  induction l as [|x l IH]; intros h'; [reflexivity|].
  cbn [fold_left]. rewrite IH. unfold opt_info_step.
  destruct (stop_or_single t x); [reflexivity|].
  destruct (Arr.get 0 fopc x =? 3), ((Arr.get 0 fopc x =? 1) && rare);
    now rewrite ?length_incr.
Qed.

(** C4, as the code has it.  [cbi_out] writes
    [(opt - exp_cod) / (tot_cod - exp_cod)] in [float] arithmetic for
    the classification it reads, whose eligible codons are all
    classified 1, 2 or 3: [opt] and [tot_cod] count the optimal and all
    codons of the synonymous non-stop families with at least one optimal
    codon and [exp_cod] sums [family_count / family_size] over those
    optimal codons; it writes exactly 0 when the denominator is 0.  This
    holds on a first call, with the built-in or a loaded classification,
    and on every later call whose eligibility flags are those of the
    classification read.  No bound on the value is part of the
    statement: it may be negative and may fall below -1. *)
Theorem cbi_out_value nncod nnaa pm s fopc :
  wf_code (ca (tables s)) = true ->
  List.length (has_opt_info_cbi (statics s)) = 22%nat ->
  cbi_classes pm s = Some fopc ->
  cbi_flags s fopc = true ->
  legal_classes (tables s) fopc = true ->
  let opt := cbi_opt (tables s) fopc nncod in
  let tot := cbi_tot (tables s) fopc nncod in
  let e := cbi_exp (tables s) fopc nnaa in
  let denominator := F32.sub (F32.of_long tot) e in
  payload (cbi_out nncod nnaa pm s) = inl [CNum (cbi_value opt tot e)]
  /\ (fnonzero denominator = false -> cbi_value opt tot e = fzero)
  /\ (fnonzero denominator = true ->
      cbi_value opt tot e
      = F32.div (F32.sub (F32.of_long opt) e) denominator).
Proof.
  intros Hwf Hlen Htab Hflags Hleg opt tot e denominator.
  split; [|split].
  - assert (Hloop : forall h,
      flags_of (tables s) fopc h = true ->
      fold_left (cbi_step (tables s) fopc h nncod nnaa)
        (zrange 1 65) (inl (0, 0, fzero))
      = inl (opt, tot, e)).
    { intros h Hh. rewrite cbi_loop_spec.
      - rewrite !Z.add_0_l. subst opt tot e.
        unfold cbi_opt, cbi_tot, cbi_exp. reflexivity.
      - intros x Hx. unfold flags_of in Hh.
        rewrite forallb_forall in Hh. now apply eqb_prop, Hh.
      - exact Hleg. }
    unfold cbi_out, cbi_first_call. unfold cbi_classes in Htab.
    unfold cbi_flags in Hflags.
    destruct (first_call_cbi (statics s)).
    + unfold cbi_table in Htab.
      destruct (cbifile pm) as [cs|].
      * destruct (fop_load cs (user_cbi (statics s))) as [tbl|why];
          [|discriminate].
        inversion Htab; subst tbl.
        cbn [set_statics with_cbi statics tables user_cbi has_opt_info_cbi].
        rewrite Hloop by now apply opt_info_flags. reflexivity.
      * inversion Htab; subst fopc.
        cbn [set_statics with_cbi statics tables user_cbi has_opt_info_cbi].
        rewrite Hloop by now apply opt_info_flags. reflexivity.
    + inversion Htab; subst fopc. cbn [orb] in Hflags.
      rewrite Hloop by assumption. reflexivity.
  - intros H. unfold cbi_value. fold denominator. now rewrite H.
  - intros H. unfold cbi_value. fold denominator. now rewrite H.
Qed.

Lemma cbi_out_value_witness :
  (let s := counted "ATTATCATAATA" in
   let nncod := ncod (counts s) in
   let nnaa := naa (counts s) in
   let fopc := 0 :: fop_digits ile_source in
   let opt := cbi_opt (tables s) fopc nncod in
   let tot := cbi_tot (tables s) fopc nncod in
   let e := cbi_exp (tables s) fopc nnaa in
   let denominator := F32.sub (F32.of_long tot) e in
   payload (cbi_out nncod nnaa ile_menu s) = inl [CNum (cbi_value opt tot e)]
   /\ (fnonzero denominator = false -> cbi_value opt tot e = fzero)
   /\ (fnonzero denominator = true ->
       cbi_value opt tot e
       = F32.div (F32.sub (F32.of_long opt) e) denominator))
  /\ (let s := after_call CBI (ile_counted "ATTATCATAATA") in
      let nncod := ncod (counts s) in
      let nnaa := naa (counts s) in
      let fopc := fop_cod (tables s) in
      let opt := cbi_opt (tables s) fopc nncod in
      let tot := cbi_tot (tables s) fopc nncod in
      let e := cbi_exp (tables s) fopc nnaa in
      let denominator := F32.sub (F32.of_long tot) e in
      first_call_cbi (statics s) = false
      /\ payload (cbi_out nncod nnaa plain_menu s)
         = inl [CNum (cbi_value opt tot e)]
      /\ (fnonzero denominator = false -> cbi_value opt tot e = fzero)
      /\ (fnonzero denominator = true ->
          cbi_value opt tot e
          = F32.div (F32.sub (F32.of_long opt) e) denominator)).
Proof.
  split.
  - apply (cbi_out_value (ncod (counts (counted "ATTATCATAATA")))
             (naa (counts (counted "ATTATCATAATA"))) ile_menu
             (counted "ATTATCATAATA") (0 :: fop_digits ile_source));
      vm_compute; reflexivity.
  - split; [vm_compute; reflexivity|].
    apply (cbi_out_value
             (ncod (counts (after_call CBI (ile_counted "ATTATCATAATA"))))
             (naa (counts (after_call CBI (ile_counted "ATTATCATAATA"))))
             plain_menu
             (after_call CBI (ile_counted "ATTATCATAATA"))
             (fop_cod (tables (after_call CBI (ile_counted "ATTATCATAATA")))));
      vm_compute; reflexivity.
Defined.

Lemma cbi_out_first_builtin nncod nnaa pm s :
  first_call_cbi (statics s) = true -> cbifile pm = None ->
  (exists code why, cbi_out nncod nnaa pm s = Exit code why)
  \/ (exists cells,
        cbi_out nncod nnaa pm s
        = Done 0 cells [] true
            (set_statics s
               (with_cbi (statics s) false
                  (opt_info (tables s) (fop_cod (tables s)) false
                            (has_opt_info_cbi (statics s)))
                  (user_cbi (statics s))))).
Proof.
  intros Hfirst Hfile. unfold cbi_out, cbi_first_call.
  rewrite Hfirst, Hfile.
  match goal with
  | |- context [fold_left ?f ?l ?a] => destruct (fold_left f l a) as [[[o t] e]|bad]
  end.
  - right. eexists. reflexivity.
  - left. do 2 eexists. reflexivity.
Qed.

(** A returning first call without a CBI file leaves the flags of the
    built-in classification, the one every later call reads. *)
Lemma cbi_out_keeps_flags nncod nnaa pm s s1 :
  wf_code (ca (tables s)) = true ->
  List.length (has_opt_info_cbi (statics s)) = 22%nat ->
  first_call_cbi (statics s) = true -> cbifile pm = None ->
  state_after (cbi_out nncod nnaa pm s) = Some s1 ->
  first_call_cbi (statics s1) = false
  /\ tables s1 = tables s
  /\ List.length (has_opt_info_cbi (statics s1)) = 22%nat
  /\ cbi_classes pm s1 = Some (fop_cod (tables s))
  /\ cbi_flags s1 (fop_cod (tables s)) = true.
Proof.
  intros Hwf Hlen Hfirst Hfile H.
  destruct (cbi_out_first_builtin nncod nnaa pm s Hfirst Hfile)
    as [(code & why & E) | (cells & E)];
    rewrite E in H; cbn [state_after] in H; [discriminate|].
  injection H as <-.
  unfold cbi_classes, cbi_flags.
  cbn [set_statics with_cbi statics tables first_call_cbi has_opt_info_cbi].
  rewrite opt_info_length, opt_info_flags by assumption.
  repeat split; assumption.
Qed.

(** After a CBI file was loaded, a later call reads the built-in
    classification again while it keeps the flags of the loaded one.
    With the isoleucine file and the all-common built-in classification,
    the gene "ATAATAATA" gives -2 on the first call and 0 on the
    second. *)
Lemma cbi_out_second_call_user_table :
  let s := counted "ATAATAATA" in
  exists s1,
    state_after (cbi_out (ncod (counts s)) (naa (counts s)) ile_menu s)
    = Some s1
    /\ payload (cbi_out (ncod (counts s)) (naa (counts s)) ile_menu s)
       = inl [CNum (F32.of_long (-2))]
    /\ payload (cbi_out (ncod (counts s1)) (naa (counts s1)) ile_menu s1)
       = inl [CNum fzero].
Proof.
  eexists. split; [vm_compute; reflexivity|].
  split; vm_compute; reflexivity.
Qed.

(** C4 as stated fails on its range.  With two of the three isoleucine
    codons classified optimal and a gene that uses only the third,
    "ATAATAATA", [opt] is 0, [tot_cod] is 3 and [exp_cod] is 3/3 + 3/3 = 2:
    the index is (0 - 2) / (3 - 2) = -2, below -1. *)
Lemma cbi_out_below_minus_one :
  let s := counted "ATAATAATA" in
  payload (cbi_out (ncod (counts s)) (naa (counts s)) ile_menu s)
  = inl [CNum (F32.of_long (-2))]
  /\ SFltb (F32.of_long (-2)) (F32.of_long (-1)) = true.
Proof. split; vm_compute; reflexivity. Qed.

(* ================================================================== *)
(** * The calculators and the shared state *)

Section CalculatorFacts.

Variables c_log c_exp : spec_float -> spec_float.
Variable c_pow : spec_float -> spec_float -> spec_float.

Lemma cai_fold_table t nncod :
  forall l tbl sigma totaa,
    fst (fst (fold_left (cai_step c_log t nncod) l (tbl, sigma, totaa)))
    = fold_left (clamp_pass t) l tbl.
Proof.
  induction l as [|x l IH]; intros tbl sigma totaa; cbn [fold_left];
    [reflexivity|].
  unfold cai_step at 2. unfold clamp_pass at 2.
  destruct (stop_or_single t x); apply IH.
Qed.

Lemma with_cai_id st : cai_ttt st = true -> with_cai st true (user_cai st) = st.
Proof. destruct st. cbn. now intros ->. Qed.

Lemma set_statics_id s : set_statics s (statics s) = s.
Proof. now destruct s. Qed.

Lemma codon_error_3_state x y pm s :
  exists ret ws, codon_error x y 3 pm s = Done ret [] ws false s.
Proof.
  unfold codon_error.
  change (3 =? 1) with false. change (3 =? 2) with false.
  change (3 =? 3) with true. cbv iota.
  do 2 eexists. reflexivity.
Qed.

Lemma cai_out_returns pm s :
  caifile pm = None ->
  returns_in (cai_out c_log c_exp (ncod (counts s)) pm s) (after_call CAI s).
Proof.
  intros Hcai. right.
  unfold cai_out, cai_first_call. rewrite Hcai.
  pose proof (cai_fold_table (tables s) (ncod (counts s)) (zrange 1 65)
                (cai_val s) fzero 0) as T.
  unfold after_call, cai_clamped.
  destruct (cai_ttt (statics s)) eqn:E.
  - destruct (fold_left (cai_step c_log (tables s) (ncod (counts s)))
                (zrange 1 65) (cai_val s, fzero, 0))
      as [[tbl' sigma] totaa].
    cbn [fst] in T. subst tbl'.
    rewrite (with_cai_id (statics s) E), set_statics_id.
    do 4 eexists. reflexivity.
  - change (tables (set_statics s (with_cai (statics s) true
                                     (user_cai (statics s)))))
      with (tables s).
    change (cai_val (set_statics s (with_cai (statics s) true
                                      (user_cai (statics s)))))
      with (cai_val s).
    destruct (fold_left (cai_step c_log (tables s) (ncod (counts s)))
                (zrange 1 65) (cai_val s, fzero, 0))
      as [[tbl' sigma] totaa].
    cbn [fst] in T. subst tbl'.
    do 4 eexists. reflexivity.
Qed.

Lemma cbi_out_returns pm s :
  cbifile pm = None ->
  returns_in (cbi_out (ncod (counts s)) (naa (counts s)) pm s)
             (after_call CBI s).
Proof.
  intros Hcbi. unfold cbi_out, cbi_first_call. rewrite Hcbi.
  unfold after_call.
  destruct (first_call_cbi (statics s));
    match goal with
    | |- context [fold_left ?f ?l ?a] =>
        destruct (fold_left f l a) as [[[o t] e]|bad]
    end;
    solve [ left; do 2 eexists; reflexivity
          | right; do 4 eexists; reflexivity ].
Qed.

Lemma fop_out_returns pm s :
  fopfile pm = None ->
  returns_in (fop_out (ncod (counts s)) pm s) (after_call Fop s).
Proof.
  intros Hfop. unfold fop_out, fop_first_call. rewrite Hfop.
  unfold after_call.
  destruct (first_call_fop (statics s));
    match goal with
    | |- context [fold_left ?f ?l ?a] =>
        destruct (fold_left f l a) as [[[o t] e]|bad]
    end;
    solve [ left; do 2 eexists; reflexivity
          | right; do 4 eexists; reflexivity ].
Qed.

Lemma enc_out_returns pm s :
  returns_in (enc_out c_pow (ncod (counts s)) (naa (counts s)) pm s) s.
Proof.
  right. unfold enc_out.
  destruct (fold_left (enc_aa_step c_pow (tables s) (ncod (counts s))
                         (naa (counts s))) (zrange 1 22)
              (repeat 0 9, repeat 0 9, repeat fzero 9))
    as [[fold numaa] totb].
  destruct (fold_left (enc_fold_step fold numaa totb) (zrange 2 9)
              (F32.of_long (Arr.get 0 fold 1), None)) as [enc_tot [[z y]|]].
  - destruct (codon_error_3_state z y pm s) as (ret & ws & E).
    rewrite E. do 4 eexists. reflexivity.
  - destruct (SFleb enc_tot f32_61); do 4 eexists; reflexivity.
Qed.

Lemma gc_out_returns which pm s :
  returns_in (gc_out which pm s) (after_call (GC which) s).
Proof.
  right. unfold gc_out, after_call, gc_too_short. cbv zeta.
  destruct ((tot_s (gc_tally (tables s) (ncod (counts s))) =? 0)
            || (totalaa (gc_tally (tables s) (ncod (counts s))) =? 0));
    [do 4 eexists; reflexivity|].
  destruct ((which =? 1) && negb (gc_header (statics s)));
    do 4 eexists; reflexivity.
Qed.

Lemma run_returns c pm s :
  no_overrides pm ->
  returns_in (run c_log c_exp c_pow c pm s) (after_call c s).
Proof.
  intros (Hcai & Hcbi & Hfop).
  destruct c; unfold run.
  - now apply cai_out_returns.
  - now apply cbi_out_returns.
  - now apply fop_out_returns.
  - apply enc_out_returns.
  - apply gc_out_returns.
  - right. unfold base_sil_us_out, after_call. do 4 eexists. reflexivity.
  - right. unfold dinuc_out, after_call. do 4 eexists. reflexivity.
  - right. unfold hydro_out, after_call.
    destruct (aa_total (naa (counts s)) =? 0); do 4 eexists; reflexivity.
  - right. unfold aromo_out, after_call.
    destruct (aa_total (naa (counts s)) =? 0); do 4 eexists; reflexivity.
Qed.

(** What a returning call leaves behind. *)
Lemma run_after c pm s s1 :
  no_overrides pm ->
  state_after (run c_log c_exp c_pow c pm s) = Some s1 ->
  s1 = after_call c s.
Proof.
  intros Hno H.
  destruct (run_returns c pm s Hno) as [(code & why & E) | (r & cs & ws & b & E)];
    rewrite E in H; unfold state_after in H; congruence.
Qed.

(** ** What a calculator's numbers depend on *)

Lemma codon_error_3 x y pm s :
  codon_error x y 3 pm s
  = Done (loc_cod_tot s) []
         (if warn pm
          then [NcNotCalculated (num_sequence s) (if x =? 3 then 4 else x) y]
          else [])
         false s.
Proof.
  unfold codon_error.
  change (3 =? 1) with false. change (3 =? 2) with false.
  change (3 =? 3) with true. reflexivity.
Qed.

Ltac unfold_calc :=
  unfold run, cai_out, cai_first_call, cbi_out, cbi_first_call,
    fop_out, fop_first_call, enc_out, gc_out, base_sil_us_out, dinuc_out,
    hydro_out, aromo_out;
  rewrite ?codon_error_3.

Ltac norm_state :=
  cbn [set_statics set_cai_val set_counts
       counts num_sequence num_seq_int_stop din fram tables cai_val statics
       with_cai with_cbi with_fop with_gc_header with_dinuc_called
       cai_ttt user_cai first_call_cbi has_opt_info_cbi user_cbi
       first_call_fop factor_in_rare has_opt_info_fop user_fop
       gc_header dinuc_called].

Ltac break_payload :=
  repeat (norm_state; rewrite ?codon_error_3;
          match goal with
          | |- context [match ?x with _ => _ end] =>
              lazymatch x with
              | context [match _ with _ => _ end] => fail
              | _ => destruct x
              end
          end);
  norm_state; reflexivity.

(** The latch and the user table of [cai_out], and the weights, matter
    to [cai_out] alone. *)
Lemma payload_cai_state c pm s b u v :
  c <> CAI ->
  payload (run c_log c_exp c_pow c pm
             (set_cai_val (set_statics s (with_cai (statics s) b u)) v))
  = payload (run c_log c_exp c_pow c pm s).
Proof.
  intros Hc. destruct c; try congruence; unfold_calc; norm_state;
    break_payload.
Qed.

Lemma payload_cbi_state c pm s b h u :
  c <> CBI ->
  payload (run c_log c_exp c_pow c pm (set_statics s (with_cbi (statics s) b h u)))
  = payload (run c_log c_exp c_pow c pm s).
Proof.
  intros Hc. destruct c; try congruence; unfold_calc; norm_state;
    break_payload.
Qed.

Lemma payload_fop_state c pm s b h u :
  c <> Fop ->
  payload (run c_log c_exp c_pow c pm (set_statics s (with_fop (statics s) b h u)))
  = payload (run c_log c_exp c_pow c pm s).
Proof.
  intros Hc. destruct c; try congruence; unfold_calc; norm_state;
    break_payload.
Qed.

(** The header and banner latches matter to no number. *)
Lemma payload_gc_state c pm s b :
  payload (run c_log c_exp c_pow c pm
             (set_statics s (with_gc_header (statics s) b)))
  = payload (run c_log c_exp c_pow c pm s).
Proof. destruct c; unfold_calc; norm_state; break_payload. Qed.

Lemma payload_dinuc_state c pm s b :
  payload (run c_log c_exp c_pow c pm
             (set_statics s (with_dinuc_called (statics s) b)))
  = payload (run c_log c_exp c_pow c pm s).
Proof. destruct c; unfold_calc; norm_state; break_payload. Qed.

(** A second call of [cbi_out] or [fop_out] finds the [has_opt_info]
    the first one computed from the same built-in table. *)
Lemma payload_cbi_again pm s :
  cbifile pm = None ->
  payload (run c_log c_exp c_pow CBI pm (after_call CBI s))
  = payload (run c_log c_exp c_pow CBI pm s).
Proof.
  intros Hcbi. unfold after_call.
  destruct (first_call_cbi (statics s)) eqn:E; [|reflexivity].
  unfold_calc. norm_state. rewrite E, Hcbi. break_payload.
Qed.

Lemma payload_fop_again pm s :
  fopfile pm = None ->
  payload (run c_log c_exp c_pow Fop pm (after_call Fop s))
  = payload (run c_log c_exp c_pow Fop pm s).
Proof.
  intros Hfop. unfold after_call.
  destruct (first_call_fop (statics s)) eqn:E; [|reflexivity].
  unfold_calc. norm_state. rewrite E, Hfop. break_payload.
Qed.

(** ** Calling [cai_out] again *)

Lemma get_set_same (A : Type) (d : A) (a : list A) i v :
  Arr.get d (Arr.set a i v) i = if inside a i then v else Arr.get d a i.
Proof.
  unfold inside.
  destruct (Z.leb_spec 0 i); cbn [andb].
  - destruct (Z.ltb_spec i (Z.of_nat (List.length a))).
    + apply get_set_eq. lia.
    + now rewrite set_beyond by lia.
  - unfold Arr.set. destruct (Z.ltb_spec i 0); [reflexivity | lia].
Qed.

Lemma get_outside (A : Type) (d : A) (a : list A) i :
  inside a i = false -> Arr.get d a i = d.
Proof.
  unfold inside, Arr.get. intros H.
  destruct (Z.ltb_spec i 0); [reflexivity|].
  apply nth_overflow.
  destruct (Z.leb_spec 0 i); [|lia]. cbn [andb] in H.
  apply Z.ltb_ge in H. lia.
Qed.

Lemma length_cai_clamp tbl x :
  List.length (cai_clamp tbl x) = List.length tbl.
Proof.
  unfold cai_clamp. destruct (SFltb _ _); [apply length_set | reflexivity].
Qed.

Lemma get_cai_clamp_ne tbl x y :
  x <> y -> Arr.get fzero (cai_clamp tbl x) y = Arr.get fzero tbl y.
Proof.
  intros H. unfold cai_clamp.
  destruct (SFltb _ _); [now apply get_set_ne | reflexivity].
Qed.

(** The weight read for codon [x] right after its clamp. *)
Lemma cai_clamp_read tbl x :
  Arr.get fzero (cai_clamp tbl x) x
  = clamped_weight (inside tbl x) (Arr.get fzero tbl x).
Proof.
  unfold cai_clamp, clamped_weight.
  destruct (SFltb (F64.of_float (Arr.get fzero tbl x)) f64_0_0001);
    [|reflexivity].
  rewrite get_set_same.
  destruct (inside tbl x) eqn:E; [reflexivity | now apply get_outside].
Qed.

Lemma cai_clamp_read_ne tbl x y :
  x <> y ->
  Arr.get fzero (cai_clamp (cai_clamp tbl y) x) x
  = Arr.get fzero (cai_clamp tbl x) x.
Proof.
  intros H. rewrite !cai_clamp_read.
  rewrite get_cai_clamp_ne by congruence.
  unfold inside. now rewrite length_cai_clamp.
Qed.

(** Clamping a clamped weight changes nothing: 0.01 is not below
    0.0001. *)
Lemma clamped_weight_idem b v :
  clamped_weight b (clamped_weight b v) = clamped_weight b v.
Proof.
  unfold clamped_weight.
  destruct (SFltb (F64.of_float v) f64_0_0001) eqn:E.
  - destruct b; reflexivity.
  - now rewrite E.
Qed.

Lemma clamp_pass_get t :
  forall l, NoDup l ->
  forall tbl x,
    Arr.get fzero (fold_left (clamp_pass t) l tbl) x
    = if existsb (Z.eqb x) l && negb (stop_or_single t x)
      then clamped_weight (inside tbl x) (Arr.get fzero tbl x)
      else Arr.get fzero tbl x.
Proof.
  induction 1 as [|y l Hy Hl IH]; intros tbl x; cbn [fold_left existsb];
    [reflexivity|].
  rewrite IH. unfold clamp_pass.
  destruct (Z.eqb_spec x y) as [->|Hne]; cbn [orb].
  - assert (E : existsb (Z.eqb y) l = false).
    { apply not_true_is_false. intros E. apply existsb_exists in E.
      destruct E as (z & Hz & Hyz). apply Z.eqb_eq in Hyz. now subst z. }
    rewrite E. cbn [andb].
    destruct (stop_or_single t y); cbn [negb]; [reflexivity|].
    apply cai_clamp_read.
  - destruct (stop_or_single t y); [reflexivity|].
    rewrite get_cai_clamp_ne by congruence.
    unfold inside. now rewrite length_cai_clamp.
Qed.

Lemma clamp_pass_length t :
  forall l tbl, List.length (fold_left (clamp_pass t) l tbl) = List.length tbl.
Proof.
  induction l as [|y l IH]; intros tbl; cbn [fold_left]; [reflexivity|].
  rewrite IH. unfold clamp_pass.
  destruct (stop_or_single t y); [reflexivity | apply length_cai_clamp].
Qed.

(** [sigma] and [totaa] depend on the table only through the weights
    read after the clamp. *)
Lemma cai_fold_same t nncod :
  forall l, NoDup l ->
  forall tbl1 tbl2 sigma totaa,
    (forall x, In x l -> stop_or_single t x = false ->
       Arr.get fzero (cai_clamp tbl1 x) x = Arr.get fzero (cai_clamp tbl2 x) x) ->
    snd (fst (fold_left (cai_step c_log t nncod) l (tbl1, sigma, totaa)))
    = snd (fst (fold_left (cai_step c_log t nncod) l (tbl2, sigma, totaa)))
    /\ snd (fold_left (cai_step c_log t nncod) l (tbl1, sigma, totaa))
       = snd (fold_left (cai_step c_log t nncod) l (tbl2, sigma, totaa)).
Proof.
  induction 1 as [|y l Hy Hl IH]; intros tbl1 tbl2 sigma totaa H;
    cbn [fold_left]; [split; reflexivity|].
  unfold cai_step at 2 4 6 8.
  destruct (stop_or_single t y) eqn:E.
  - apply IH. intros x Hx. apply H. now right.
  - rewrite (H y (or_introl eq_refl) E).
    apply IH. intros x Hx Ex.
    assert (x <> y) by (intros ->; contradiction).
    rewrite !cai_clamp_read_ne by assumption.
    apply H; [now right | assumption].
Qed.

Lemma payload_cai_again pm s :
  caifile pm = None ->
  payload (run c_log c_exp c_pow CAI pm (after_call CAI s))
  = payload (run c_log c_exp c_pow CAI pm s).
Proof.
  intros Hcai. unfold after_call, run, cai_out, cai_first_call.
  norm_state. rewrite Hcai.
  assert (S : forall st b,
             (if cai_ttt (statics s)
              then @inl _ halt (Builtin, s, false)
              else inl (Builtin, st, b))
             = inl (Builtin, (if cai_ttt (statics s) then s else st),
                    (if cai_ttt (statics s) then false else b)))
    by (intros; destruct (cai_ttt (statics s)); reflexivity).
  rewrite S. clear S.
  assert (T : tables (if cai_ttt (statics s) then s
                      else set_statics s (with_cai (statics s) true
                                            (user_cai (statics s))))
              = tables s)
    by (destruct (cai_ttt (statics s)); reflexivity).
  assert (V : cai_val (if cai_ttt (statics s) then s
                       else set_statics s (with_cai (statics s) true
                                             (user_cai (statics s))))
              = cai_val s)
    by (destruct (cai_ttt (statics s)); reflexivity).
  rewrite T, V. clear T V.
  destruct (cai_fold_same (tables s) (ncod (counts s)) (zrange 1 65)
              (NoDup_zrange 1 65)
              (cai_clamped (tables s) (cai_val s)) (cai_val s) fzero 0)
    as [E1 E2].
  { intros x Hx Ex. rewrite !cai_clamp_read.
    unfold cai_clamped.
    rewrite clamp_pass_get by apply NoDup_zrange.
    unfold inside at 1. rewrite clamp_pass_length. fold (inside (cai_val s) x).
    rewrite Ex. cbn [negb]. rewrite andb_true_r.
    destruct (existsb (Z.eqb x) (zrange 1 65)); [|reflexivity].
    apply clamped_weight_idem. }
  destruct (fold_left (cai_step c_log (tables s) (ncod (counts s)))
              (zrange 1 65) (cai_clamped (tables s) (cai_val s), fzero, 0))
    as [[tbl1 sigma1] totaa1].
  destruct (fold_left (cai_step c_log (tables s) (ncod (counts s)))
              (zrange 1 65) (cai_val s, fzero, 0))
    as [[tbl2 sigma2] totaa2].
  cbn [fst snd] in E1, E2. subst sigma2 totaa2.
  reflexivity.
Qed.

(** The numbers of a call do not depend on which calculator ran before
    it. *)
Lemma payload_after c1 c2 pm s :
  no_overrides pm ->
  payload (run c_log c_exp c_pow c2 pm (after_call c1 s))
  = payload (run c_log c_exp c_pow c2 pm s).
Proof.
  intros (Hcai & Hcbi & Hfop).
  destruct c1; cbn [after_call].
  - destruct c2; try (apply payload_cai_state; discriminate).
    now apply payload_cai_again.
  - destruct c2; try (destruct (first_call_cbi (statics s));
                      [apply payload_cbi_state; discriminate | reflexivity]).
    now apply payload_cbi_again.
  - destruct c2; try (destruct (first_call_fop (statics s));
                      [apply payload_fop_state; discriminate | reflexivity]).
    now apply payload_fop_again.
  - reflexivity.
  - destruct (gc_too_short s); [reflexivity|].
    destruct ((which =? 1) && negb (gc_header (statics s)));
      [apply payload_gc_state | reflexivity].
  - reflexivity.
  - apply payload_dinuc_state.
  - reflexivity.
  - reflexivity.
Qed.

(** ** The shared state after a call *)

Lemma same_shared_refl s : same_shared s s.
Proof. repeat split. Qed.

Ltac break_frame :=
  repeat (norm_state; rewrite ?codon_error_3;
          match goal with
          | |- context [match ?x with _ => _ end] =>
              lazymatch x with
              | context [match _ with _ => _ end] => fail
              | _ => destruct x
              end
          end);
  norm_state; cbn [frame_ok]; solve [exact I | repeat split].

(** Whatever the menu and the files, a calculator that returns has left
    the tallies, the dinucleotide state and the reference tables other
    than the weights as they were. *)
Lemma run_frame c pm s : frame_ok (run c_log c_exp c_pow c pm s) s.
Proof. destruct c; unfold_calc; break_frame. Qed.

Ltac break_weights :=
  repeat (norm_state; rewrite ?codon_error_3;
          match goal with
          | |- context [match ?x with _ => _ end] =>
              lazymatch x with
              | context [match _ with _ => _ end] => fail
              | _ => destruct x
              end
          end);
  norm_state; cbn [weights_ok]; solve [exact I | reflexivity].

(** Every calculator but [cai_out] leaves the weights alone too. *)
Lemma run_weights c pm s :
  c <> CAI -> weights_ok (run c_log c_exp c_pow c pm s) s.
Proof.
  intros Hc. destruct c; [now elim Hc|..]; clear Hc;
    unfold_calc; break_weights.
Qed.

Lemma after_call_weights c s :
  cai_val (after_call c s)
  = match c with
    | CAI => cai_clamped (tables s) (cai_val s)
    | _ => cai_val s
    end.
Proof.
  destruct c; cbn [after_call]; try reflexivity.
  - now destruct (first_call_cbi (statics s)).
  - now destruct (first_call_fop (statics s)).
  - destruct (gc_too_short s); [reflexivity|].
    now destruct ((which =? 1) && negb (gc_header (statics s))).
Qed.

(** ** What a call can change *)

Ltac break_touched :=
  repeat (norm_state; rewrite ?codon_error_3;
          match goal with
          | |- context [match ?x with _ => _ end] =>
              lazymatch x with
              | context [match _ with _ => _ end] => fail
              | _ => destruct x
              end
          end);
  norm_state; cbn [touched_ok touched];
  unfold set_cai_val, set_statics, with_cai, with_cbi, with_fop,
    with_gc_header, with_dinuc_called;
  norm_state;
  try solve [exact I | reflexivity
        | eexists; reflexivity
        | eexists; eexists; eexists; reflexivity ].

Lemma run_touched c pm s : touched_ok c (run c_log c_exp c_pow c pm s) s.
Proof.
  destruct s as [cn ns ni d f t w st].
  destruct st as [a1 a2 a3 a4 a5 a6 a7 a8 a9 a10 a11].
  destruct c; unfold_calc; break_touched.
Qed.

Lemma returns_state r s' s1 :
  returns_in r s' -> state_after r = Some s1 -> s1 = s'.
Proof.
  intros [(code & why & ->) | (ret & cs & ws & b & ->)] H;
    cbn [state_after] in H; congruence.
Qed.

Lemma run_touched_state c pm s s1 :
  state_after (run c_log c_exp c_pow c pm s) = Some s1 -> touched c s s1.
Proof.
  intros H. pose proof (run_touched c pm s) as T.
  destruct (run c_log c_exp c_pow c pm s); cbn [state_after] in H;
    [|discriminate|discriminate].
  injection H as <-. exact T.
Qed.

(** A call changes none of the numbers a later call writes, unless the
    later call is a second call of a calculator that read an override
    file. *)
Lemma payload_next c1 c2 pm s s1 :
  state_after (run c_log c_exp c_pow c1 pm s) = Some s1 ->
  reloads pm c1 c2 = false ->
  payload (run c_log c_exp c_pow c2 pm s1)
  = payload (run c_log c_exp c_pow c2 pm s).
Proof.
  intros H Hr. pose proof (run_touched_state c1 pm s s1 H) as T.
  destruct c1; cbn [touched] in T.
  - destruct c2;
      try (destruct T as (b & u & v & ->); apply payload_cai_state;
           discriminate).
    cbn [reloads] in Hr. destruct (caifile pm) eqn:E; [discriminate|].
    rewrite (returns_state _ _ _ (cai_out_returns pm s E) H).
    now apply payload_cai_again.
  - destruct c2;
      try (destruct T as (b & h & u & ->); apply payload_cbi_state;
           discriminate).
    cbn [reloads] in Hr. destruct (cbifile pm) eqn:E; [discriminate|].
    rewrite (returns_state _ _ _ (cbi_out_returns pm s E) H).
    now apply payload_cbi_again.
  - destruct c2;
      try (destruct T as (b & h & u & ->); apply payload_fop_state;
           discriminate).
    cbn [reloads] in Hr. destruct (fopfile pm) eqn:E; [discriminate|].
    rewrite (returns_state _ _ _ (fop_out_returns pm s E) H).
    now apply payload_fop_again.
  - now subst s1.
  - destruct T as (b & ->). apply payload_gc_state.
  - now subst s1.
  - destruct T as (b & ->). apply payload_dinuc_state.
  - now subst s1.
  - now subst s1.
Qed.

Lemma run_weights_state c pm s s1 :
  c <> CAI ->
  state_after (run c_log c_exp c_pow c pm s) = Some s1 ->
  cai_val s1 = cai_val s.
Proof.
  intros Hc H. pose proof (run_weights c pm s Hc) as W.
  destruct (run c_log c_exp c_pow c pm s); cbn [state_after] in H;
    [|discriminate|discriminate].
  injection H as <-. exact W.
Qed.

Lemma run_frame_state c pm s s1 :
  state_after (run c_log c_exp c_pow c pm s) = Some s1 -> same_shared s s1.
Proof.
  intros H. pose proof (run_frame c pm s) as F.
  destruct (run c_log c_exp c_pow c pm s); cbn [state_after] in H;
    [|discriminate|discriminate].
  injection H as <-. exact F.
Qed.

End CalculatorFacts.

(** C9, as the code has it.  A calculator that returns has left the
    codon and amino-acid tallies, [codon_tot], [valid_stops], the
    dinucleotide state, the sequence counters and the reference tables
    other than the adaptiveness weights as they were, and every
    calculator but [cai_out] has left the weights as they were.  When no
    CAI file is given, [cai_out] has overwritten in place each weight
    below 0.0001 of a synonymous non-stop codon by 0.01.  The numbers a
    calculator writes after the call are those it would have written
    before it: the calculators can be called in any order, and again,
    with identical numeric outputs.  The second call of a calculator
    that took its table from an override file is no part of the
    statement. *)
Theorem calculators_share_state c_log c_exp c_pow c1 pm s s1 :
  state_after (run c_log c_exp c_pow c1 pm s) = Some s1 ->
  same_shared s s1
  /\ (c1 <> CAI -> cai_val s1 = cai_val s)
  /\ (c1 = CAI -> caifile pm = None ->
      cai_val s1 = cai_clamped (tables s) (cai_val s))
  /\ forall c2,
       reloads pm c1 c2 = false ->
       payload (run c_log c_exp c_pow c2 pm s1)
       = payload (run c_log c_exp c_pow c2 pm s).
Proof.
  intros H. split; [|split; [|split]].
  - now apply (run_frame_state c_log c_exp c_pow c1 pm).
  - intros Hc. now apply (run_weights_state c_log c_exp c_pow c1 pm).
  - intros -> Hfile.
    rewrite (returns_state _ _ _ (cai_out_returns c_log c_exp pm s Hfile) H).
    apply after_call_weights.
  - intros c2 Hr. now apply (payload_next c_log c_exp c_pow c1 c2 pm s).
Qed.

Lemma calculators_share_state_witness :
  let s0 := initial_state universal_tables zero_ttt_weights in
  let s1 := after_call CAI s0 in
  same_shared s0 s1
  /\ (CAI <> CAI -> cai_val s1 = cai_val s0)
  /\ (CAI = CAI -> caifile plain_menu = None ->
      cai_val s1 = cai_clamped (tables s0) (cai_val s0))
  /\ forall c2,
       reloads plain_menu CAI c2 = false ->
       payload (run id_libm id_libm square_libm c2 plain_menu s1)
       = payload (run id_libm id_libm square_libm c2 plain_menu s0).
Proof.
  apply (calculators_share_state id_libm id_libm square_libm CAI plain_menu
           (initial_state universal_tables zero_ttt_weights)
           (after_call CAI (initial_state universal_tables zero_ttt_weights))).
  vm_compute. reflexivity.
Defined.

(** C9 as stated fails for the reference weights: [cai_out] writes to
    them.  With a zero weight for TTT, a call of [cai_out] leaves 0.01
    in its place. *)
Lemma cai_out_rewrites_weights :
  let s0 := initial_state universal_tables zero_ttt_weights in
  exists cells s1,
    run id_libm id_libm square_libm CAI plain_menu s0
    = Done 0 cells [] true s1
    /\ Arr.get fzero (cai_val s0) 1 = fzero
    /\ Arr.get fzero (cai_val s1) 1 = f32_0_01
    /\ cai_val s1 <> cai_val s0.
Proof.
  do 2 eexists. split; [vm_compute; reflexivity|].
  split; [reflexivity|]. split; [reflexivity|].
  vm_compute. discriminate.
Qed.

(* ================================================================== *)
(** * initialize_point: the degeneracy tables *)

Lemma zrange_cons lo hi : lo < hi -> zrange lo hi = lo :: zrange (lo + 1) hi.
Proof.
  intros H. unfold zrange.
  replace (Z.to_nat (hi - lo)) with (S (Z.to_nat (hi - (lo + 1)))) by lia.
  cbn [seq map]. f_equal; [lia|].
  rewrite <- seq_shift, map_map. apply map_ext. intros k. lia.
Qed.

Lemma sum_arr_split_first a lo hi :
  lo < hi -> sum_arr a lo hi = Arr.get 0 a lo + sum_arr a (lo + 1) hi.
Proof.
  intros H. unfold sum_arr. now rewrite (zrange_cons lo hi H), zsum_cons.
Qed.

Lemma length_zrange lo hi : List.length (zrange lo hi) = Z.to_nat (hi - lo).
Proof. unfold zrange. now rewrite length_map, length_seq. Qed.

Lemma zsum_indicator_bounds (P : Z -> bool) l :
  0 <= zsum (fun x => if P x then 1 else 0) l <= Z.of_nat (List.length l).
Proof.
  induction l as [|x l IH]; [cbn; lia|].
  rewrite zsum_cons. cbn [List.length]. destruct (P x); lia.
Qed.

Lemma zsum_indicator_pos (P : Z -> bool) l x :
  In x l -> P x = true -> 1 <= zsum (fun x => if P x then 1 else 0) l.
Proof.
  induction l as [|y l IH]; intros Hin Hx; [contradiction|].
  rewrite zsum_cons.
  pose proof (zsum_indicator_bounds P l) as B.
  destruct Hin as [->|Hin].
  - rewrite Hx. lia.
  - specialize (IH Hin Hx). destruct (P y); lia.
Qed.

(** Reading a table built over a range. *)
Lemma get_map_zrange (A : Type) (d : A) (f : Z -> A) lo hi x :
  lo <= x < hi -> Arr.get d (map f (zrange lo hi)) (x - lo) = f x.
Proof.
  intros H. unfold Arr.get, zrange.
  destruct (Z.ltb_spec (x - lo) 0); [lia|].
  rewrite map_map.
  rewrite nth_indep with (d' := f (lo + Z.of_nat 0)).
  - rewrite (map_nth (fun k => f (lo + Z.of_nat k))).
    rewrite seq_nth by lia. f_equal. lia.
  - rewrite length_map, length_seq. lia.
Qed.

Lemma how_synon_get ca x :
  1 <= x <= 64 ->
  Arr.get 0 (how_synon ca) x
  = zsum (fun i => if ca_at ca x =? ca_at ca i then 1 else 0) (zrange 1 65).
Proof.
  intros H. unfold how_synon.
  rewrite <- (get_map_zrange Z 0
                (fun x => zsum (fun i => if ca_at ca x =? ca_at ca i
                                         then 1 else 0) (zrange 1 65))
                1 65 x) by lia.
  unfold Arr.get.
  destruct (Z.ltb_spec x 0); [lia|]. destruct (Z.ltb_spec (x - 1) 0); [lia|].
  replace (Z.to_nat x) with (S (Z.to_nat (x - 1))) by lia.
  reflexivity.
Qed.

Lemma how_synon_length ca : List.length (how_synon ca) = 65%nat.
Proof.
  unfold how_synon. cbn [List.length]. now rewrite length_map, length_zrange.
Qed.

Lemma how_synon_aa_fold ca a :
  0 <= a < 22 ->
  forall l dda,
    List.length dda = 22%nat ->
    Arr.get 0
      (fold_left (fun dda x => Arr.set dda (ca_at ca x)
                                 (Arr.get 0 dda (ca_at ca x) + 1)) l dda) a
    = Arr.get 0 dda a + zsum (fun x => if ca_at ca x =? a then 1 else 0) l.
Proof.
  intros Ha. induction l as [|x l IH]; intros dda Hlen; cbn [fold_left].
  - cbn. lia.
  - rewrite IH by now rewrite length_set.
    rewrite zsum_cons.
    destruct (Z.eqb_spec (ca_at ca x) a) as [->|Hne].
    + rewrite get_set_eq by lia. lia.
    + rewrite get_set_ne by assumption. lia.
Qed.

(** [da[a]] is the number of codons of amino acid [a]. *)
Lemma how_synon_aa_get ca a :
  0 <= a < 22 ->
  Arr.get 0 (how_synon_aa ca) a
  = zsum (fun x => if ca_at ca x =? a then 1 else 0) (zrange 1 65).
Proof.
  intros Ha. unfold how_synon_aa.
  rewrite how_synon_aa_fold by (assumption || reflexivity).
  replace (Arr.get 0 (repeat 0 22) a) with 0; [lia|].
  unfold Arr.get. destruct (a <? 0); [reflexivity|].
  symmetry. apply nth_repeat.
Qed.

Lemma how_synon_aa_total ca :
  forall l dda,
    List.length dda = 22%nat ->
    (forall x, In x l -> 0 <= ca_at ca x < 22) ->
    let dda' := fold_left (fun dda x => Arr.set dda (ca_at ca x)
                                          (Arr.get 0 dda (ca_at ca x) + 1))
                          l dda in
    List.length dda' = 22%nat
    /\ sum_arr dda' 0 22 = sum_arr dda 0 22 + Z.of_nat (List.length l).
Proof.
  induction l as [|x l IH]; intros dda Hlen Hr; cbn zeta; cbn [fold_left].
  - cbn [List.length]. split; [assumption | lia].
  - assert (Hx : 0 <= ca_at ca x < 22) by (apply Hr; now left).
    destruct (IH (Arr.set dda (ca_at ca x) (Arr.get 0 dda (ca_at ca x) + 1)))
      as [L S].
    + now rewrite length_set.
    + intros y Hy. apply Hr. now right.
    + split; [exact L|]. rewrite S.
      change (Arr.set dda (ca_at ca x) (Arr.get 0 dda (ca_at ca x) + 1))
        with (incr dda (ca_at ca x)).
      rewrite sum_arr_incr by lia.
      replace ((0 <=? ca_at ca x) && (ca_at ca x <? 22)) with true
        by (symmetry; apply andb_true_iff; split;
            [apply Z.leb_le | apply Z.ltb_lt]; lia).
      cbn [List.length]. lia.
Qed.

Lemma how_synon_aa_sum ca :
  (forall x, 1 <= x <= 64 -> 0 <= ca_at ca x < 22) ->
  List.length (how_synon_aa ca) = 22%nat
  /\ sum_arr (how_synon_aa ca) 0 22 = 64.
Proof.
  intros H. unfold how_synon_aa.
  destruct (how_synon_aa_total ca (zrange 1 65) (repeat 0 22) eq_refl)
    as [L S].
  { intros x Hx. apply in_zrange in Hx. apply H. lia. }
  split; [exact L|]. rewrite S. reflexivity.
Qed.

Lemma how_synon_aa_zero ca :
  (forall x, 1 <= x <= 64 -> ca_at ca x <> 0) ->
  Arr.get 0 (how_synon_aa ca) 0 = 0.
Proof.
  intros H. rewrite how_synon_aa_get by lia.
  assert (G : forall l, (forall x, In x l -> ca_at ca x <> 0) ->
                        zsum (fun x => if ca_at ca x =? 0 then 1 else 0) l = 0).
  { induction l as [|y l IH]; intros Hl; [reflexivity|].
    rewrite zsum_cons, IH by (intros x Hx; apply Hl; now right).
    destruct (Z.eqb_spec (ca_at ca y) 0) as [E|E]; [|reflexivity].
    exfalso. apply (Hl y); [now left | assumption]. }
  apply G. intros x Hx. apply in_zrange in Hx. apply H. lia.
Qed.

Lemma how_synon_family ca x :
  1 <= x <= 64 -> 0 <= ca_at ca x < 22 ->
  Arr.get 0 (how_synon ca) x = Arr.get 0 (how_synon_aa ca) (ca_at ca x)
  /\ 1 <= Arr.get 0 (how_synon ca) x <= 64.
Proof.
  intros Hx Hc.
  rewrite how_synon_get by assumption.
  rewrite how_synon_aa_get by assumption.
  split.
  - apply zsum_ext. intros i _. now rewrite Z.eqb_sym.
  - split.
    + apply (zsum_indicator_pos (fun i => ca_at ca x =? ca_at ca i) _ x).
      * apply in_zrange. lia.
      * apply Z.eqb_refl.
    + pose proof (zsum_indicator_bounds
                    (fun i => ca_at ca x =? ca_at ca i) (zrange 1 65)) as B.
      rewrite length_zrange in B. cbv beta in B. lia.
Qed.

Lemma initialize_point_tables code fop_species cai_species ref t w :
  initialize_point code fop_species cai_species ref = Some (t, w) ->
  ds t = how_synon (ca t) /\ da t = how_synon_aa (ca t)
  /\ ref_entry (ref_cu ref) code = Some (ca t)
  /\ ref_entry (ref_fop ref) fop_species = Some (fop_cod t)
  /\ ref_entry (ref_cai ref) cai_species = Some w.
Proof.
  unfold initialize_point.
  destruct (ref_entry (ref_cai ref) cai_species) as [w'|]; [|discriminate].
  destruct (ref_entry (ref_fop ref) fop_species) as [f|]; [|discriminate].
  destruct (ref_entry (ref_cu ref) code) as [cu|]; [|discriminate].
  intros [= <- <-]. repeat split.
Qed.

(** The degeneracy of a codon is the size of the family of its amino
    acid.  For a well-formed genetic code, [initialize_point] leaves
    [ds[x] = da[ca[x]]] for every codon [x] of 1..64, a number between 1
    and 64, the family sizes [da[1..21]] add up to 64, and [ds[0]] and
    [da[0]] are 0. *)
Theorem initialize_point_degeneracy code fop_species cai_species ref t w :
  initialize_point code fop_species cai_species ref = Some (t, w) ->
  wf_code (ca t) = true ->
  (forall x, 1 <= x <= 64 ->
     Arr.get 0 (ds t) x = Arr.get 0 (da t) (ca_at (ca t) x)
     /\ 1 <= Arr.get 0 (ds t) x <= 64)
  /\ sum_arr (da t) 1 22 = 64
  /\ Arr.get 0 (ds t) 0 = 0 /\ Arr.get 0 (da t) 0 = 0
  /\ List.length (ds t) = 65%nat /\ List.length (da t) = 22%nat.
Proof.
  intros Hinit Hwf.
  destruct (initialize_point_tables _ _ _ _ _ _ Hinit) as (Hds & Hda & _).
  rewrite Hds, Hda.
  destruct (wf_code_inv (ca t) Hwf) as (_ & _ & Hca).
  assert (H0 : Arr.get 0 (how_synon_aa (ca t)) 0 = 0).
  { apply how_synon_aa_zero. intros x Hx. specialize (Hca x Hx). lia. }
  destruct (how_synon_aa_sum (ca t)) as [L S].
  { intros x Hx. specialize (Hca x Hx). lia. }
  split; [|split; [|split; [|split; [|split]]]].
  - intros x Hx. apply how_synon_family; [assumption|].
    specialize (Hca x Hx). lia.
  - rewrite (sum_arr_split_first (how_synon_aa (ca t)) 0 22) in S by lia.
    rewrite H0 in S. change (0 + 1) with 1 in S. lia.
  - reflexivity.
  - exact H0.
  - apply how_synon_length.
  - exact L.
Qed.

Lemma initialize_point_degeneracy_witness :
  (forall x, 1 <= x <= 64 ->
     Arr.get 0 (ds universal_tables) x
     = Arr.get 0 (da universal_tables) (ca_at (ca universal_tables) x)
     /\ 1 <= Arr.get 0 (ds universal_tables) x <= 64)
  /\ sum_arr (da universal_tables) 1 22 = 64
  /\ Arr.get 0 (ds universal_tables) 0 = 0
  /\ Arr.get 0 (da universal_tables) 0 = 0
  /\ List.length (ds universal_tables) = 65%nat
  /\ List.length (da universal_tables) = 22%nat.
Proof.
  apply (initialize_point_degeneracy 0 0 0 universal_ref universal_tables
           unit_weights); vm_compute; reflexivity.
Defined.

(* ================================================================== *)
(** * dinuc_count and clean_up *)

Lemma dinuc_base_range c : 0 <= dinuc_base c <= 4.
Proof.
  unfold dinuc_base.
  destruct (is_T c), (is_C c), (is_A c), (is_G c); lia.
Qed.

Lemma din_shape_row d f :
  din_shape d -> 0 <= f < 3 -> List.length (Arr.get [] d f) = 16%nat.
Proof.
  intros [L R] Hf. unfold Arr.get.
  destruct (Z.ltb_spec f 0); [lia|].
  rewrite Forall_forall in R. apply R. apply nth_In. lia.
Qed.

Lemma Forall_set (A : Type) (P : A -> Prop) (a : list A) i v :
  Forall P a -> P v -> Forall P (Arr.set a i v).
Proof.
  intros Ha Hv. unfold Arr.set. destruct (i <? 0); [assumption|].
  generalize (Z.to_nat i). clear i. induction Ha as [|x r Hx Hr IH];
    intros [|n]; cbn [Arr.set_nat]; auto.
Qed.

Lemma din_incr_shape d f i : din_shape d -> 0 <= f < 3 -> din_shape (din_incr d f i).
Proof.
  intros Hd Hf. pose proof (din_shape_row d f Hd Hf) as Hr.
  destruct Hd as [L R]. unfold din_incr. split.
  - now rewrite length_set.
  - apply Forall_set; [assumption|]. now rewrite length_incr.
Qed.

Lemma din_at_incr d f0 i f j :
  din_shape d -> 0 <= f0 < 3 -> 0 <= i < 16 ->
  din_at (din_incr d f0 i) f j
  = din_at d f j + (if (i =? j) && (f0 =? f) then 1 else 0).
Proof.
  intros Hd Hf Hi. pose proof (din_shape_row d f0 Hd Hf) as Hr.
  destruct Hd as [L R]. unfold din_at, din_incr.
  destruct (Z.eqb_spec f0 f) as [<-|Hne].
  - rewrite get_set_eq by lia.
    destruct (Z.eqb_spec i j) as [<-|Hij]; cbn [andb].
    + rewrite get_incr_eq by lia. reflexivity.
    + rewrite get_incr_ne by assumption. lia.
  - rewrite get_set_ne by assumption. rewrite andb_false_r. lia.
Qed.

(** What the loop does to the counts, the frame and the remembered
    base. *)
Lemma dinuc_loop_spec cs :
  forall st,
    din_shape (dn_din st) -> 0 <= dn_fram st < 3 -> 0 <= dn_a st <= 4 ->
    let st' := fold_left dinuc_step cs st in
    let ps := dinucs (dn_a st) cs in
    din_shape (dn_din st')
    /\ (forall f j,
          din_at (dn_din st') f j
          = din_at (dn_din st) f j + frame_count (dn_fram st) f j ps)
    /\ dn_fram st' = (dn_fram st + Z.of_nat (List.length ps)) mod 3
    /\ dn_a st' = last (map dinuc_base cs) (dn_a st).
Proof.
  induction cs as [|c cs IH]; intros st Hd Hf Ha; cbn zeta.
  - cbn [fold_left dinucs frame_count List.length map last].
    split; [assumption|]. split; [|split].
    + intros f j. lia.
    + rewrite Z.add_0_r. symmetry. apply Z.mod_small. assumption.
    + reflexivity.
  - cbn [fold_left dinucs map].
    pose proof (dinuc_base_range c) as Hc.
    assert (Hstep :
      dinuc_step st c
      = if (dinuc_base c =? 0) || (dn_a st =? 0)
        then {| dn_din := dn_din st; dn_fram := dn_fram st;
                dn_a := dinuc_base c |}
        else {| dn_din := din_incr (dn_din st) (dn_fram st)
                            ((dn_a st - 1) * 4 + dinuc_base c - 1);
                dn_fram := if dn_fram st + 1 =? 3 then 0
                           else dn_fram st + 1;
                dn_a := dinuc_base c |}) by reflexivity.
    rewrite Hstep. clear Hstep.
    destruct ((dinuc_base c =? 0) || (dn_a st =? 0)) eqn:E.
    + specialize (IH {| dn_din := dn_din st; dn_fram := dn_fram st;
                        dn_a := dinuc_base c |} Hd Hf Hc).
      cbn zeta in IH. cbn [dn_din dn_fram dn_a] in IH.
      destruct IH as (I1 & I2 & I3 & I4).
      split; [assumption|]. split; [assumption|]. split; [assumption|].
      rewrite I4. symmetry. apply last_cons.
    + apply orb_false_iff in E. destruct E as [E1 E2].
      apply Z.eqb_neq in E1, E2.
      assert (Hf' : 0 <= (if dn_fram st + 1 =? 3 then 0 else dn_fram st + 1) < 3)
        by (destruct (Z.eqb_spec (dn_fram st + 1) 3); lia).
      specialize (IH {| dn_din := din_incr (dn_din st) (dn_fram st)
                                    ((dn_a st - 1) * 4 + dinuc_base c - 1);
                        dn_fram := if dn_fram st + 1 =? 3 then 0
                                   else dn_fram st + 1;
                        dn_a := dinuc_base c |}
                     (din_incr_shape _ _ _ Hd Hf) Hf' Hc).
      cbn zeta in IH. cbn [dn_din dn_fram dn_a] in IH.
      destruct IH as (I1 & I2 & I3 & I4).
      split; [assumption|]. split; [|split].
      * intros f j. rewrite I2. cbn [frame_count].
        rewrite din_at_incr by (assumption || lia). lia.
      * rewrite I3. cbn [List.length].
        destruct (Z.eqb_spec (dn_fram st + 1) 3) as [E3|E3].
        -- replace (dn_fram st) with 2 by lia.
           rewrite Nat2Z.inj_succ.
           replace (2 + Z.succ (Z.of_nat (List.length
                      (dinucs (dinuc_base c) cs))))
             with (Z.of_nat (List.length (dinucs (dinuc_base c) cs)) + 1 * 3)
             by lia.
           rewrite Z.mod_add by lia. reflexivity.
        -- f_equal. lia.
      * rewrite I4. symmetry. apply last_cons.
Qed.

(** [dinuc_count] files the k-th pair of neighbouring recognised bases
    it meets under the frame [(fram + k) mod 3]: the frame follows the
    number of pairs counted, not the position in the sequence, and a
    character that is no base breaks the chain without moving the frame.
    The base seen last is remembered for the next call. *)
Theorem dinuc_count_spec seq ttot st st' :
  din_shape (dn_din st) -> 0 <= dn_fram st < 3 -> 0 <= dn_a st <= 4 ->
  dinuc_count seq ttot st = Some st' ->
  let cs := firstn (Z.to_nat ttot) seq in
  let ps := dinucs (dn_a st) cs in
  din_shape (dn_din st')
  /\ (forall f j,
        din_at (dn_din st') f j
        = din_at (dn_din st) f j + frame_count (dn_fram st) f j ps)
  /\ dn_fram st' = (dn_fram st + Z.of_nat (List.length ps)) mod 3
  /\ dn_a st' = last (map dinuc_base cs) (dn_a st).
Proof.
  intros Hd Hf Ha H. unfold dinuc_count in H.
  destruct ((ttot <=? Z.of_nat (List.length seq)) && (ttot <=? int_max));
    [|discriminate].
  injection H as <-.
  apply dinuc_loop_spec; assumption.
Qed.

Lemma dinuc_count_spec_witness :
  let st := {| dn_din := repeat (repeat 0 16) 3; dn_fram := 0; dn_a := 0 |} in
  let seq := buffer (chars "ACGNTT") in
  exists st',
    dinuc_count seq 6 st = Some st'
    /\ dinucs 0 (firstn 6 seq) = [9; 7; 0]
    /\ din_at (dn_din st') 0 9 = 1 /\ din_at (dn_din st') 1 7 = 1
    /\ din_at (dn_din st') 2 0 = 1
    /\ din_shape (dn_din st')
    /\ (forall f j,
          din_at (dn_din st') f j
          = din_at (dn_din st) f j
            + frame_count (dn_fram st) f j (dinucs (dn_a st) (firstn 6 seq)))
    /\ dn_fram st' = (dn_fram st
                      + Z.of_nat (List.length (dinucs (dn_a st) (firstn 6 seq))))
                     mod 3
    /\ dn_a st' = last (map dinuc_base (firstn 6 seq)) (dn_a st).
Proof.
  eexists. split; [vm_compute; reflexivity|].
  split; [reflexivity|]. split; [reflexivity|]. split; [reflexivity|].
  split; [reflexivity|].
  apply (dinuc_count_spec (buffer (chars "ACGNTT")) 6
           {| dn_din := repeat (repeat 0 16) 3; dn_fram := 0; dn_a := 0 |}).
  - split; [reflexivity|]. repeat constructor.
  - cbn. lia.
  - cbn. lia.
  - vm_compute. reflexivity.
Defined.

(** Counting a sequence fragment by fragment gives the counts of the
    whole: the second call pairs its first base with the last base of
    the first fragment. *)
Theorem dinuc_count_fragments seq1 seq2 n1 n2 st st1 st2 :
  0 <= n1 -> 0 <= n2 -> n1 + n2 <= int_max ->
  dinuc_count seq1 n1 st = Some st1 ->
  dinuc_count seq2 n2 st1 = Some st2 ->
  dinuc_count (firstn (Z.to_nat n1) seq1 ++ firstn (Z.to_nat n2) seq2)
              (n1 + n2) st
  = Some st2.
Proof.
  intros H1 H2 Hmax C1 C2. unfold dinuc_count in *.
  destruct (Z.leb_spec n1 (Z.of_nat (List.length seq1))) as [L1|];
    [|discriminate].
  destruct (Z.leb_spec n2 (Z.of_nat (List.length seq2))) as [L2|];
    [|cbn [andb] in C2; discriminate].
  destruct (n1 <=? int_max); [|discriminate].
  destruct (n2 <=? int_max); [|discriminate].
  cbn [andb] in C1, C2. injection C1 as <-. injection C2 as <-.
  rewrite length_app, !length_firstn.
  replace (n1 + n2 <=? Z.of_nat (Nat.min (Z.to_nat n1) (List.length seq1)
                                 + Nat.min (Z.to_nat n2) (List.length seq2)))
    with true by (symmetry; apply Z.leb_le; lia).
  replace (n1 + n2 <=? int_max) with true by (symmetry; apply Z.leb_le; lia).
  cbn [andb]. f_equal.
  rewrite firstn_all2 by (rewrite length_app, !length_firstn; lia).
  apply fold_left_app.
Qed.

Lemma dinuc_count_fragments_witness :
  let st := {| dn_din := repeat (repeat 0 16) 3; dn_fram := 0; dn_a := 0 |} in
  exists st1 st2,
    dinuc_count (buffer (chars "ACG")) 3 st = Some st1
    /\ dinuc_count (buffer (chars "TTA")) 3 st1 = Some st2
    /\ dinuc_count (firstn 3 (buffer (chars "ACG"))
                    ++ firstn 3 (buffer (chars "TTA"))) (3 + 3) st
       = Some st2.
Proof.
  do 2 eexists. split; [vm_compute; reflexivity|].
  split; [vm_compute; reflexivity|].
  apply (dinuc_count_fragments (buffer (chars "ACG")) (buffer (chars "TTA"))
           3 3 {| dn_din := repeat (repeat 0 16) 3; dn_fram := 0; dn_a := 0 |}
           (fold_left dinuc_step (chars "ACG")
              {| dn_din := repeat (repeat 0 16) 3; dn_fram := 0; dn_a := 0 |}));
    [lia | lia | unfold int_max; lia
    | vm_compute; reflexivity | vm_compute; reflexivity].
Defined.

(** ** clean_up *)

Lemma zero_fill_get a :
  forall l i,
    Arr.get 0 (fold_left (fun a x => Arr.set a x 0) l a) i
    = if existsb (Z.eqb i) l && inside a i then 0 else Arr.get 0 a i.
Proof.
  intros l. revert a. induction l as [|x l IH]; intros a i; cbn [fold_left existsb].
  - reflexivity.
  - rewrite IH. unfold inside. rewrite length_set.
    fold (inside a i).
    destruct (Z.eqb_spec i x) as [->|Hne]; cbn [orb].
    + destruct (existsb (Z.eqb x) l); cbn [andb].
      * destruct (inside a x) eqn:E; [reflexivity|].
        unfold inside in E. unfold Arr.get, Arr.set.
        destruct (Z.ltb_spec x 0); [reflexivity|].
        rewrite nth_overflow; [|rewrite length_set_nat].
        -- rewrite nth_overflow; [reflexivity|].
           apply andb_false_iff in E. rewrite Z.leb_gt, Z.ltb_ge in E. lia.
        -- apply andb_false_iff in E. rewrite Z.leb_gt, Z.ltb_ge in E. lia.
      * destruct (inside a x) eqn:E.
        -- unfold inside in E. apply andb_true_iff in E.
           rewrite Z.leb_le, Z.ltb_lt in E. now rewrite get_set_eq.
        -- unfold inside in E. unfold Arr.get, Arr.set.
           destruct (Z.ltb_spec x 0); [reflexivity|].
           rewrite nth_overflow; [|rewrite length_set_nat].
           ++ rewrite nth_overflow; [reflexivity|].
              apply andb_false_iff in E. rewrite Z.leb_gt, Z.ltb_ge in E. lia.
           ++ apply andb_false_iff in E. rewrite Z.leb_gt, Z.ltb_ge in E. lia.
    + now rewrite get_set_ne by congruence.
Qed.

Lemma zero_fill_length n a : List.length (zero_fill n a) = List.length a.
Proof.
  unfold zero_fill. generalize (zrange 0 n). intros l. revert a.
  induction l as [|x l IH]; intros a; cbn [fold_left]; [reflexivity|].
  now rewrite IH, length_set.
Qed.

(** Zeroing an array over its whole length leaves zeros alone. *)
Lemma zero_fill_all n a :
  List.length a = n -> zero_fill (Z.of_nat n) a = repeat 0 n.
Proof.
  intros Hn. apply (nth_ext _ _ 0 0).
  - now rewrite zero_fill_length, repeat_length.
  - intros k Hk. rewrite zero_fill_length in Hk.
    rewrite nth_repeat.
    pose proof (zero_fill_get a (zrange 0 (Z.of_nat n)) (Z.of_nat k)) as G.
    fold (zero_fill (Z.of_nat n) a) in G.
    unfold Arr.get in G.
    destruct (Z.ltb_spec (Z.of_nat k) 0); [lia|].
    rewrite Nat2Z.id in G. rewrite G.
    rewrite existsb_zrange. unfold inside.
    replace ((0 <=? Z.of_nat k) && (Z.of_nat k <? Z.of_nat n)) with true
      by (symmetry; apply andb_true_iff; split;
          [apply Z.leb_le | apply Z.ltb_lt]; lia).
    replace ((0 <=? Z.of_nat k) && (Z.of_nat k <? Z.of_nat (List.length a)))
      with true
      by (symmetry; apply andb_true_iff; split;
          [apply Z.leb_le | apply Z.ltb_lt]; lia).
    reflexivity.
Qed.

Lemma zero_din_all d : din_shape d -> zero_din d = repeat (repeat 0 16) 3.
Proof.
  intros [L R].
  destruct d as [|r0 [|r1 [|r2 [|]]]]; try discriminate.
  inversion R as [|? ? H0 R1]; subst. inversion R1 as [|? ? H1 R2]; subst.
  inversion R2 as [|? ? H2 _]; subst.
  unfold zero_din.
  change (zrange 0 3) with [0; 1; 2]. cbn [fold_left].
  change (Arr.get [] [r0; r1; r2] 0) with r0.
  change (Arr.set [r0; r1; r2] 0 (zero_fill 16 r0))
    with [zero_fill 16 r0; r1; r2].
  change (Arr.get [] [zero_fill 16 r0; r1; r2] 1) with r1.
  change (Arr.set [zero_fill 16 r0; r1; r2] 1 (zero_fill 16 r1))
    with [zero_fill 16 r0; zero_fill 16 r1; r2].
  change (Arr.get [] [zero_fill 16 r0; zero_fill 16 r1; r2] 2) with r2.
  change (Arr.set [zero_fill 16 r0; zero_fill 16 r1; r2] 2 (zero_fill 16 r2))
    with [zero_fill 16 r0; zero_fill 16 r1; zero_fill 16 r2].
  change 16 with (Z.of_nat 16).
  now rewrite !zero_fill_all by assumption.
Qed.

(** Whatever was counted before, [clean_up] leaves the tallies, the
    dinucleotide counts and the frame at zero and forgets the base
    [dinuc_count] saw last, so that the next sequence is counted as the
    first one was; the sequence counters, the reference tables and the
    calculators' statics stay. *)
Theorem clean_up_resets s a :
  List.length (ncod (counts s)) = 65%nat ->
  List.length (naa (counts s)) = 23%nat ->
  din_shape (din s) ->
  exists s',
    clean_up s a = Some (s', 0)
    /\ counts s' = zero_state
    /\ din s' = repeat (repeat 0 16) 3 /\ fram s' = 0
    /\ num_sequence s' = num_sequence s
    /\ num_seq_int_stop s' = num_seq_int_stop s
    /\ tables s' = tables s /\ cai_val s' = cai_val s
    /\ statics s' = statics s.
Proof.
  intros Hn Ha Hd. unfold clean_up.
  change (dinuc_count (buffer (chars " ")) 1
            {| dn_din := din s; dn_fram := fram s; dn_a := a |})
    with (Some {| dn_din := din s; dn_fram := fram s; dn_a := 0 |}).
  cbn [dn_din dn_fram dn_a].
  change (dinuc_count (buffer (chars " ")) 1
            {| dn_din := zero_din (din s); dn_fram := fram s; dn_a := 0 |})
    with (Some {| dn_din := zero_din (din s); dn_fram := fram s; dn_a := 0 |}).
  cbn [dn_din dn_fram dn_a].
  eexists. split; [reflexivity|].
  cbn [counts din fram num_sequence num_seq_int_stop tables cai_val statics].
  change 65 with (Z.of_nat 65). change 23 with (Z.of_nat 23).
  rewrite !zero_fill_all, zero_din_all by assumption.
  repeat split.
Qed.

Lemma clean_up_resets_witness :
  let s := counted "ATGGCTTAA" in
  exists s',
    clean_up s 3 = Some (s', 0)
    /\ counts s' = zero_state
    /\ din s' = repeat (repeat 0 16) 3 /\ fram s' = 0
    /\ num_sequence s' = num_sequence s
    /\ num_seq_int_stop s' = num_seq_int_stop s
    /\ tables s' = tables s /\ cai_val s' = cai_val s
    /\ statics s' = statics s.
Proof.
  apply (clean_up_resets (counted "ATGGCTTAA") 3).
  - vm_compute. reflexivity.
  - vm_compute. reflexivity.
  - split; [reflexivity|]. vm_compute. repeat constructor.
Defined.

(* ================================================================== *)
(** * Counting, codon by codon *)

Lemma tally_fold_get ca :
  wf_code ca = true ->
  forall ids st,
    Forall (fun id => 0 <= id <= 64) ids ->
    List.length (ncod st) = 65%nat -> (22 <= List.length (naa st))%nat ->
    let st' := fold_left (tally ca) ids st in
    (forall j, 0 <= j <= 64 ->
       Arr.get 0 (ncod st') j = Arr.get 0 (ncod st) j + count_if (Z.eqb j) ids)
    /\ (forall a, 0 <= a <= 21 ->
          Arr.get 0 (naa st') a
          = Arr.get 0 (naa st) a + count_if (fun id => ca_at ca id =? a) ids).
Proof.
  intros Hwf. destruct (wf_code_inv ca Hwf) as (_ & Hca0 & Hca).
  induction ids as [|id ids IH]; intros st Hr Hn Ha; cbn zeta.
  - cbn [fold_left]. unfold count_if. cbn [filter List.length].
    split; intros; lia.
  - inversion Hr as [|? ? Hid Hr']; subst.
    cbn [fold_left].
    specialize (IH (tally ca st id) Hr').
    cbn zeta in IH. cbn [tally ncod naa] in IH.
    rewrite !length_incr in IH. destruct (IH Hn Ha) as [I1 I2]. clear IH.
    assert (Hc : 0 <= ca_at ca id <= 21).
    { destruct (Z.eq_dec id 0) as [->|Hne]; [rewrite Hca0; lia|].
      specialize (Hca id). lia. }
    split.
    + intros j Hj. rewrite I1 by assumption. rewrite count_if_cons.
      destruct (Z.eqb_spec j id) as [->|Hne].
      * rewrite get_incr_eq by lia. lia.
      * rewrite get_incr_ne by congruence. lia.
    + intros a Ha'. rewrite I2 by assumption. rewrite count_if_cons.
      destruct (Z.eqb_spec (ca_at ca id) a) as [<-|Hne].
      * rewrite get_incr_eq by lia. lia.
      * rewrite get_incr_ne by assumption. lia.
Qed.

Lemma final_state_fields ca s st :
  let st1 := fold_left (tally ca) (codon_ids s) st in
  ncod (final_state ca s st)
  = (if seq_len s mod 3 =? 0 then ncod st1 else incr (ncod st1) 0)
  /\ naa (final_state ca s st) = naa st1
  /\ codon_tot (final_state ca s st) = codon_tot st1.
Proof.
  cbn zeta. unfold final_state.
  destruct (ca_at ca (final_icode s) =? 11), (seq_len s mod 3 =? 0);
    repeat split.
Qed.

(** [codon_usage_tot] adds to every tally what the sequence holds: to
    [ncod[j]] the number of full triplets with codon number [j] (and, to
    [ncod[0]], one more for a trailing partial codon), to [naa[a]] the
    number of full triplets translated to amino acid [a], and to
    [codon_tot] the number of full triplets.  Tallies that are not zero
    are added to: sequences counted one after the other accumulate. *)
Theorem codon_usage_tot_adds ca s st :
  wf_code ca = true ->
  2 <= seq_len s < uint_max ->
  List.length (ncod st) = 65%nat -> List.length (naa st) = 23%nat ->
  exists icode st' m,
    codon_usage_tot ca (buffer s) st = Returned icode st' m
    /\ (forall j, 1 <= j <= 64 ->
          Arr.get 0 (ncod st') j = Arr.get 0 (ncod st) j + occurrences s j)
    /\ Arr.get 0 (ncod st') 0
       = Arr.get 0 (ncod st) 0 + occurrences s 0 + partial s
    /\ (forall a, 0 <= a <= 21 ->
          Arr.get 0 (naa st') a = Arr.get 0 (naa st) a + translated ca s a)
    /\ codon_tot st' = codon_tot st + seq_len s / 3
    /\ List.length (ncod st') = 65%nat /\ List.length (naa st') = 23%nat.
Proof.
  intros Hwf Hn Hnc Hna.
  destruct (codon_usage_tot_text ca s st Hn) as (m & E & _).
  exists (final_icode s), (final_state ca s st), m.
  split; [exact E|]. clear E.
  destruct (final_state_fields ca s st) as (F1 & F2 & F3).
  cbn zeta in F1, F2, F3. rewrite F1, F2, F3. clear F1 F2 F3.
  pose proof (tally_fold ca Hwf (codon_ids s) st (codon_ids_range s) Hnc) as T.
  cbn zeta in T. destruct T as (L1 & L2 & T3 & _); [lia|].
  pose proof (tally_fold_get ca Hwf (codon_ids s) st (codon_ids_range s) Hnc)
    as G.
  cbn zeta in G. destruct G as (G1 & G2); [lia|].
  unfold occurrences, translated, partial.
  split; [|split; [|split; [|split; [|split]]]].
  - intros j Hj. rewrite <- G1 by lia.
    destruct (seq_len s mod 3 =? 0); [reflexivity|].
    apply get_incr_ne. lia.
  - rewrite <- Z.add_assoc.
    destruct (seq_len s mod 3 =? 0).
    + rewrite G1 by lia. lia.
    + rewrite get_incr_eq by lia. rewrite G1 by lia. lia.
  - exact G2.
  - rewrite T3. now rewrite codon_ids_length.
  - destruct (seq_len s mod 3 =? 0); [assumption|]. now rewrite length_incr.
  - lia.
Qed.

Lemma codon_usage_tot_adds_witness :
  let s := chars "ATGNNGCTTAAC" in
  let st := {| ncod := repeat 1 65; naa := repeat 1 23;
               codon_tot := 7; valid_stops := 0 |} in
  exists icode st' m,
    codon_usage_tot universal_ca (buffer s) st = Returned icode st' m
    /\ (forall j, 1 <= j <= 64 ->
          Arr.get 0 (ncod st') j = Arr.get 0 (ncod st) j + occurrences s j)
    /\ Arr.get 0 (ncod st') 0
       = Arr.get 0 (ncod st) 0 + occurrences s 0 + partial s
    /\ (forall a, 0 <= a <= 21 ->
          Arr.get 0 (naa st') a
          = Arr.get 0 (naa st) a + translated universal_ca s a)
    /\ codon_tot st' = codon_tot st + seq_len s / 3
    /\ List.length (ncod st') = 65%nat /\ List.length (naa st') = 23%nat.
Proof.
  apply (codon_usage_tot_adds universal_ca (chars "ATGNNGCTTAAC")
           {| ncod := repeat 1 65; naa := repeat 1 23;
              codon_tot := 7; valid_stops := 0 |}).
  - vm_compute. reflexivity.
  - vm_compute. split; [discriminate | reflexivity].
  - reflexivity.
  - reflexivity.
Defined.

(* ================================================================== *)
(** * The table writers *)

Lemma codon_error_4 x y pm s :
  codon_error x y 4 pm s = Done (loc_cod_tot s) [] [] false s.
Proof. reflexivity. Qed.

Lemma count_sequence_zero seq s icode s1 :
  wf_code (ca (tables s)) = true ->
  counts s = zero_state ->
  2 <= seq_len seq < uint_max ->
  count_sequence seq s = Some (icode, s1) ->
  s1 = set_counts s (counts s1)
  /\ codon_tot (counts s1) = seq_len seq / 3
  /\ sum_arr (ncod (counts s1)) 1 65 = recognised seq
  /\ sum_arr (naa (counts s1)) 1 22 = recognised seq
  /\ Arr.get 0 (naa (counts s1)) 0 = unrecognised seq.
Proof.
  intros Hwf Hz Hn H. unfold count_sequence in H. rewrite Hz in H.
  destruct (codon_usage_tot_text (ca (tables s)) seq zero_state Hn)
    as (m & E & _).
  rewrite E in H. injection H as <- <-.
  cbn [set_counts counts].
  split; [reflexivity|].
  destruct (final_state_fields (ca (tables s)) seq zero_state)
    as (F1 & F2 & F3).
  cbn zeta in F1, F2, F3. rewrite F1, F2, F3. clear F1 F2 F3.
  pose proof (tally_fold (ca (tables s)) Hwf (codon_ids seq) zero_state
                (codon_ids_range seq) eq_refl) as T.
  cbn zeta in T.
  destruct T as (L1 & L2 & T3 & T4 & T5 & T6 & T7 & T8);
    [cbn; lia|].
  change (sum_arr (ncod zero_state) 1 65) with 0 in T5.
  change (sum_arr (naa zero_state) 1 22) with 0 in T7.
  change (Arr.get 0 (naa zero_state) 0) with 0 in T8.
  change (codon_tot zero_state) with 0 in T3.
  rewrite codon_ids_length in T3.
  fold (recognised seq) in T5, T7. fold (unrecognised seq) in T8.
  split; [lia|]. split; [|split; lia].
  destruct (seq_len seq mod 3 =? 0); [lia|].
  rewrite (sum_arr_incr _ 0 1 65) by lia.
  change ((1 <=? 0) && (0 <? 65)) with false. cbv iota. lia.
Qed.

(** [cutab_out] overwrites the shared [codon_tot]: it becomes the sum
    of [ncod[1..64]].  After a sequence was counted from zeroed tallies
    [codon_tot] is the number of full triplets; [cutab_out] lowers it to
    the number of triplets all of whose bases are recognised, writes
    that number as the total of its table, and leaves the other tallies
    as they are. *)
Theorem cutab_out_codon_tot seq pm s icode s1 :
  wf_code (ca (tables s)) = true ->
  counts s = zero_state ->
  2 <= seq_len seq < uint_max ->
  count_sequence seq s = Some (icode, s1) ->
  codon_tot (counts s1) = recognised seq + unrecognised seq
  /\ exists cells s2,
       cutab_out (ncod (counts s1)) (naa (counts s1)) pm s1
       = Done 0 (cells ++ [CLong (recognised seq)]) [] false s2
       /\ codon_tot (counts s2) = recognised seq
       /\ ncod (counts s2) = ncod (counts s1)
       /\ naa (counts s2) = naa (counts s1)
       /\ valid_stops (counts s2) = valid_stops (counts s1)
       /\ same_shared s1 (set_counts s2 (counts s1)).
Proof.
  intros Hwf Hz Hn H.
  destruct (count_sequence_zero seq s icode s1 Hwf Hz Hn H)
    as (_ & C1 & C2 & _).
  split; [rewrite C1; symmetry; apply recognised_unrecognised|].
  unfold cutab_out. rewrite codon_error_4.
  unfold loc_cod_tot. rewrite C2.
  do 2 eexists. split; [reflexivity|].
  cbn [set_counts counts codon_tot ncod naa valid_stops].
  repeat split.
Qed.

Lemma cutab_out_codon_tot_witness :
  let s := initial_state universal_tables unit_weights in
  let seq := chars "ATGNNNTAA" in
  exists s1,
    count_sequence seq s = Some (11, s1)
    /\ recognised seq = 2 /\ unrecognised seq = 1
    /\ codon_tot (counts s1) = recognised seq + unrecognised seq
    /\ exists cells s2,
         cutab_out (ncod (counts s1)) (naa (counts s1)) plain_menu s1
         = Done 0 (cells ++ [CLong (recognised seq)]) [] false s2
         /\ codon_tot (counts s2) = recognised seq
         /\ ncod (counts s2) = ncod (counts s1)
         /\ naa (counts s2) = naa (counts s1)
         /\ valid_stops (counts s2) = valid_stops (counts s1)
         /\ same_shared s1 (set_counts s2 (counts s1)).
Proof.
  eexists. split; [vm_compute; reflexivity|].
  split; [reflexivity|]. split; [reflexivity|].
  apply (cutab_out_codon_tot (chars "ATGNNNTAA") plain_menu
           (initial_state universal_tables unit_weights) 11).
  - vm_compute. reflexivity.
  - reflexivity.
  - vm_compute. split; [discriminate | reflexivity].
  - vm_compute. reflexivity.
Defined.

(** The row [aa_usage_out] writes after a sequence was counted from
    zeroed tallies adds up to the number of full triplets of the
    sequence: the column of amino acid 0 holds the triplets with an
    unrecognised base and column 11 the stops.  The header goes out on
    the first call alone. *)
Theorem aa_usage_out_total seq s icode s1 first_line :
  wf_code (ca (tables s)) = true ->
  counts s = zero_state ->
  2 <= seq_len seq < uint_max ->
  count_sequence seq s = Some (icode, s1) ->
  let '(cells, header, first_line') :=
    aa_usage_out (naa (counts s1)) first_line in
  cells = map (fun i => CLong (Arr.get 0 (naa (counts s1)) i)) (zrange 0 22)
  /\ sum_arr (naa (counts s1)) 0 22 = seq_len seq / 3
  /\ Arr.get 0 (naa (counts s1)) 0 = unrecognised seq
  /\ header = first_line /\ first_line' = false
  /\ snd (fst (aa_usage_out (naa (counts s1)) first_line')) = false.
Proof.
  intros Hwf Hz Hn H.
  destruct (count_sequence_zero seq s icode s1 Hwf Hz Hn H)
    as (_ & C1 & C2 & C3 & C4).
  cbn [aa_usage_out fst snd].
  split; [reflexivity|]. split; [|repeat split; assumption].
  rewrite (sum_arr_split_first _ 0 22) by lia.
  change (0 + 1) with 1. rewrite C3, C4, Z.add_comm.
  apply recognised_unrecognised.
Qed.

Lemma aa_usage_out_total_witness :
  let s := initial_state universal_tables unit_weights in
  let seq := chars "ATGNNNTAA" in
  exists s1,
    count_sequence seq s = Some (11, s1)
    /\ let '(cells, header, first_line') :=
         aa_usage_out (naa (counts s1)) true in
       cells = map (fun i => CLong (Arr.get 0 (naa (counts s1)) i))
                   (zrange 0 22)
       /\ sum_arr (naa (counts s1)) 0 22 = seq_len seq / 3
       /\ Arr.get 0 (naa (counts s1)) 0 = unrecognised seq
       /\ header = true /\ first_line' = false
       /\ snd (fst (aa_usage_out (naa (counts s1)) first_line')) = false.
Proof.
  eexists. split; [vm_compute; reflexivity|].
  apply (aa_usage_out_total (chars "ATGNNNTAA")
           (initial_state universal_tables unit_weights) 11).
  - vm_compute. reflexivity.
  - reflexivity.
  - vm_compute. split; [discriminate | reflexivity].
  - vm_compute. reflexivity.
Defined.

(* ================================================================== *)
(** * gc_out: what the base tallies add up to *)

Lemma length_add_at a i n : List.length (add_at a i n) = List.length a.
Proof. apply length_set. Qed.

Lemma get_add_at a i n j :
  0 <= i < Z.of_nat (List.length a) ->
  Arr.get 0 (add_at a i n) j
  = Arr.get 0 a j + (if i =? j then n else 0).
Proof.
  intros Hi. unfold add_at.
  destruct (Z.eqb_spec i j) as [<-|Hne].
  - now rewrite get_set_eq.
  - rewrite get_set_ne by assumption. lia.
Qed.

Lemma sum_arr_1_5 a :
  sum_arr a 1 5
  = Arr.get 0 a 1 + Arr.get 0 a 2 + Arr.get 0 a 3 + Arr.get 0 a 4.
Proof.
  unfold sum_arr. change (zrange 1 5) with [1; 2; 3; 4].
  rewrite !zsum_cons. change (zsum (Arr.get 0 a) []) with 0. lia.
Qed.

Lemma sum_arr_add_at a i n :
  List.length a = 5%nat -> 1 <= i <= 4 ->
  sum_arr (add_at a i n) 1 5 = sum_arr a 1 5 + n.
Proof.
  intros L Hi. rewrite !sum_arr_1_5, !get_add_at by lia.
  destruct (Z.eqb_spec i 1), (Z.eqb_spec i 2), (Z.eqb_spec i 3),
    (Z.eqb_spec i 4); lia.
Qed.

Lemma in_base_triples x y z :
  In (x, y, z) base_triples -> 1 <= x <= 4 /\ 1 <= y <= 4 /\ 1 <= z <= 4.
Proof.
  unfold base_triples. rewrite in_flat_map.
  intros (x' & Hx & H). rewrite in_flat_map in H.
  destruct H as (y' & Hy & H). rewrite in_map_iff in H.
  destruct H as (z' & E & Hz). injection E as <- <- <-.
  apply in_zrange in Hx, Hy, Hz. lia.
Qed.

(** One codon more keeps the sums. *)
Lemma gc_step_sums t gncod a x y z :
  1 <= x <= 4 -> 1 <= y <= 4 -> 1 <= z <= 4 ->
  gc_shape a -> gc_sums a ->
  let a' := gc_step t gncod a (x, y, z) in
  gc_shape a' /\ gc_sums a'
  /\ totalaa a'
     = totalaa a + (if ca_at (ca t) (triple_id (x, y, z)) =? 11 then 0
                    else Arr.get 0 gncod (triple_id (x, y, z)))
  /\ tot_s a'
     = tot_s a + (if (ca_at (ca t) (triple_id (x, y, z)) =? 11)
                     || (Arr.get 0 (ds t) (triple_id (x, y, z)) =? 1)
                  then 0 else Arr.get 0 gncod (triple_id (x, y, z))).
Proof.
  intros Hx Hy Hz (L0 & L1 & L2 & L3 & L4) (S0 & S1 & S2 & S3 & S4).
  cbn zeta. unfold gc_step, triple_id.
  destruct (ca_at (ca t) ((x - 1) * 16 + y + (z - 1) * 4) =? 11).
  - cbn [orb]. repeat split; try assumption; lia.
  - cbn [orb].
    set (n := Arr.get 0 gncod ((x - 1) * 16 + y + (z - 1) * 4)).
    assert (Hbt : forall b, 1 <= b <= 4 ->
              Arr.get 0 (add_at (add_at (add_at (base_tot a) x n) y n) z n) b
              = Arr.get 0 (add_at (base_1 a) x n) b
                + Arr.get 0 (add_at (base_2 a) y n) b
                + Arr.get 0 (add_at (base_3 a) z n) b).
    { intros b Hb. rewrite !get_add_at by (rewrite ?length_add_at; lia).
      rewrite S0 by assumption. lia. }
    destruct (Arr.get 0 (ds t) ((x - 1) * 16 + y + (z - 1) * 4) =? 1);
      unfold gc_shape, gc_sums;
      cbn [bases base_tot base_1 base_2 base_3 tot_s totalaa];
      rewrite ?length_add_at, ?sum_arr_add_at by assumption;
      repeat split; try assumption; try lia.
Qed.

Lemma gc_fold_sums t gncod :
  forall l a,
    (forall x y z, In (x, y, z) l ->
       1 <= x <= 4 /\ 1 <= y <= 4 /\ 1 <= z <= 4) ->
    gc_shape a -> gc_sums a ->
    let a' := fold_left (gc_step t gncod) l a in
    gc_shape a' /\ gc_sums a'
    /\ totalaa a'
       = totalaa a
         + zsum (fun x => if ca_at (ca t) x =? 11 then 0
                          else Arr.get 0 gncod x)
                (map triple_id l)
    /\ tot_s a'
       = tot_s a
         + zsum (fun x => if (ca_at (ca t) x =? 11)
                             || (Arr.get 0 (ds t) x =? 1)
                          then 0 else Arr.get 0 gncod x)
                (map triple_id l).
Proof.
  induction l as [|[[x y] z] l IH]; intros a Hl Hs Hi; cbn zeta.
  - cbn [fold_left map]. unfold zsum. cbn [fold_right].
    split; [assumption|]. split; [assumption|]. split; lia.
  - cbn [fold_left map]. rewrite !zsum_cons.
    destruct (Hl x y z (or_introl eq_refl)) as (Hx & Hy & Hz).
    destruct (gc_step_sums t gncod a x y z Hx Hy Hz Hs Hi)
      as (Hs1 & Hi1 & T1 & T2).
    cbn zeta in Hs1, Hi1, T1, T2.
    destruct (IH (gc_step t gncod a (x, y, z))) as (Hs2 & Hi2 & T3 & T4);
      [intros; apply Hl; now right | assumption | assumption |].
    cbn zeta in Hs2, Hi2, T3, T4.
    split; [assumption|]. split; [assumption|].
    rewrite T3, T4, T1, T2. split; lia.
Qed.

(** The three loops visit every codon number once. *)
Lemma zsum_base_triples (F : Z -> Z) :
  zsum F (map triple_id base_triples) = zsum F (zrange 1 65).
Proof.
  replace (map triple_id base_triples)
    with [1; 5; 9; 13; 2; 6; 10; 14; 3; 7; 11; 15; 4; 8; 12; 16;
          17; 21; 25; 29; 18; 22; 26; 30; 19; 23; 27; 31; 20; 24; 28; 32;
          33; 37; 41; 45; 34; 38; 42; 46; 35; 39; 43; 47; 36; 40; 44; 48;
          49; 53; 57; 61; 50; 54; 58; 62; 51; 55; 59; 63; 52; 56; 60; 64]
    by (vm_compute; reflexivity).
  replace (zrange 1 65)
    with [1; 2; 3; 4; 5; 6; 7; 8; 9; 10; 11; 12; 13; 14; 15; 16;
          17; 18; 19; 20; 21; 22; 23; 24; 25; 26; 27; 28; 29; 30; 31; 32;
          33; 34; 35; 36; 37; 38; 39; 40; 41; 42; 43; 44; 45; 46; 47; 48;
          49; 50; 51; 52; 53; 54; 55; 56; 57; 58; 59; 60; 61; 62; 63; 64]
    by (vm_compute; reflexivity).
  rewrite !zsum_cons. change (zsum F []) with 0. lia.
Qed.

(** The tallies behind the numbers of [gc_out], for every genetic code
    and all counts: the length in amino acids is the number of codons
    other than stops, [Len_sym] the number of those with a synonym; each
    of the three codon positions holds [totalaa] bases, the overall
    count of a base is the sum of its counts at the three positions,
    and the synonymous third positions add up to [tot_s]. *)
Theorem gc_tally_sums t gncod :
  let a := gc_tally t gncod in
  totalaa a = sense_total t gncod
  /\ tot_s a = synonymous_total t gncod
  /\ (forall b, 1 <= b <= 4 ->
        Arr.get 0 (base_tot a) b
        = Arr.get 0 (base_1 a) b + Arr.get 0 (base_2 a) b
          + Arr.get 0 (base_3 a) b)
  /\ sum_arr (base_1 a) 1 5 = totalaa a
  /\ sum_arr (base_2 a) 1 5 = totalaa a
  /\ sum_arr (base_3 a) 1 5 = totalaa a
  /\ sum_arr (base_tot a) 1 5 = 3 * totalaa a
  /\ sum_arr (bases a) 1 5 = tot_s a.
Proof.
  cbn zeta. unfold gc_tally.
  destruct (gc_fold_sums t gncod base_triples
              {| bases := repeat 0 5; base_tot := repeat 0 5;
                 base_1 := repeat 0 5; base_2 := repeat 0 5;
                 base_3 := repeat 0 5; tot_s := 0; totalaa := 0 |})
    as (_ & (S0 & S1 & S2 & S3 & S4) & T1 & T2).
  - intros x y z. apply in_base_triples.
  - repeat split.
  - repeat split. intros b Hb.
    cbn [base_tot base_1 base_2 base_3].
    unfold Arr.get. destruct (b <? 0); [reflexivity|].
    now rewrite nth_repeat.
  - cbn zeta in S0, S1, S2, S3, S4, T1, T2.
    rewrite zsum_base_triples in T1, T2.
    cbn [totalaa tot_s] in T1, T2.
    unfold sense_total, synonymous_total.
    split; [lia|]. split; [lia|]. split; [exact S0|].
    split; [exact S1|]. split; [exact S2|]. split; [exact S3|].
    split; [|exact S4].
    rewrite sum_arr_1_5, !S0 by lia.
    rewrite sum_arr_1_5 in S1, S2, S3. lia.
Qed.





(* ================================================================== *)
(** * enc_out: the cap *)

(** Whatever the counts and whatever [pow] returns, [enc_out] writes
    either the five stars or one number that is at most 61 (a total
    above 61, or one that is no number, is replaced by 61); it returns 0,
    leaves the state alone, and writes a warning only with the stars. *)
Theorem enc_out_capped c_pow nncod nnaa pm s :
  (exists ws, enc_out c_pow nncod nnaa pm s = Done 0 [CStars] ws false s)
  \/ (exists v,
        enc_out c_pow nncod nnaa pm s = Done 0 [CNum v] [] false s
        /\ SFleb v f32_61 = true).
Proof.
  unfold enc_out.
  destruct (fold_left (enc_aa_step c_pow (tables s) nncod nnaa) (zrange 1 22)
              (repeat 0 9, repeat 0 9, repeat fzero 9))
    as [[fold numaa] totb].
  destruct (fold_left (enc_fold_step fold numaa totb) (zrange 2 9)
              (F32.of_long (Arr.get 0 fold 1), None)) as [enc_tot [[z y]|]].
  - left. rewrite codon_error_3. eexists. reflexivity.
  - right. destruct (SFleb enc_tot f32_61) eqn:E.
    + exists enc_tot. split; [reflexivity | exact E].
    + exists f32_61. split; reflexivity.
Qed.

(* ================================================================== *)
(** * codon_error at level 2 *)

Lemma count_sequence_returns seq s icode s1 :
  wf_code (ca (tables s)) = true ->
  counts s = zero_state ->
  2 <= seq_len seq < uint_max ->
  count_sequence seq s = Some (icode, s1) ->
  icode = final_icode seq
  /\ Arr.get 0 (ncod (counts s1)) 0 = unrecognised seq + partial seq
  /\ num_sequence s1 = num_sequence s /\ tables s1 = tables s.
Proof.
  intros Hwf Hz Hn H. unfold count_sequence in H. rewrite Hz in H.
  destruct (codon_usage_tot_text (ca (tables s)) seq zero_state Hn)
    as (m & E & _).
  rewrite E in H. injection H as <- <-.
  cbn [set_counts counts num_sequence tables].
  split; [reflexivity|]. split; [|split; reflexivity].
  destruct (final_state_fields (ca (tables s)) seq zero_state)
    as (F1 & _).
  cbn zeta in F1. rewrite F1. clear F1.
  pose proof (tally_fold (ca (tables s)) Hwf (codon_ids seq) zero_state
                (codon_ids_range seq) eq_refl) as T.
  cbn zeta in T.
  destruct T as (L1 & _ & _ & _ & _ & T6 & _); [cbn; lia|].
  change (Arr.get 0 (ncod zero_state) 0) with 0 in T6.
  fold (unrecognised seq) in T6. unfold partial.
  destruct (seq_len seq mod 3 =? 0); [lia|].
  rewrite get_incr_eq by lia. lia.
Qed.

(** A sequence whose length is a multiple of three, with exactly one
    triplet that holds an unrecognised base and no stop codon at its
    end, is reported by [codon_error] at level 2 as one whose last codon
    was partial, and as nothing else: the test is [ncod[0] == 1]. *)
Theorem codon_error_partial_report seq pm s icode s1 y :
  wf_code (ca (tables s)) = true ->
  counts s = zero_state ->
  2 <= seq_len seq < uint_max ->
  seq_len seq mod 3 = 0 ->
  unrecognised seq = 1 ->
  ca_at (ca (tables s)) (last (codon_ids seq) 0) <> 11 ->
  warn pm = true ->
  count_sequence seq s = Some (icode, s1) ->
  codon_error icode y 2 pm s1
  = Done (recognised seq) [] [LastCodonPartial (num_sequence s)] false s1.
Proof.
  intros Hwf Hz Hn Hm Hu Hstop Hw H.
  destruct (count_sequence_returns seq s icode s1 Hwf Hz Hn H)
    as (Hi & H0 & Hns & Ht).
  destruct (count_sequence_zero seq s icode s1 Hwf Hz Hn H)
    as (_ & _ & C2 & _).
  unfold codon_error.
  change (2 =? 1) with false. change (2 =? 2) with true. cbv iota.
  rewrite H0, Hu. unfold partial. rewrite Hm. cbn [Z.eqb Z.add Pos.eqb].
  rewrite Ht, Hi. unfold final_icode. rewrite Hm. cbn [Z.eqb].
  replace (ca_at (ca (tables s)) (last (codon_ids seq) 0) =? 11) with false
    by (symmetry; now apply Z.eqb_neq).
  rewrite Hw. cbn [negb andb].
  unfold loc_cod_tot. now rewrite C2, Hns.
Qed.

Lemma codon_error_partial_report_witness :
  let s := initial_state universal_tables unit_weights in
  let seq := chars "ATGNNNGCT" in
  exists icode s1,
    count_sequence seq s = Some (icode, s1)
    /\ codon_error icode 0 2 plain_menu s1
       = Done (recognised seq) [] [LastCodonPartial (num_sequence s)] false s1.
Proof.
  do 2 eexists. split; [vm_compute; reflexivity|].
  apply (codon_error_partial_report (chars "ATGNNNGCT") plain_menu
           (initial_state universal_tables unit_weights)).
  - vm_compute. reflexivity.
  - reflexivity.
  - vm_compute. split; [discriminate | reflexivity].
  - reflexivity.
  - reflexivity.
  - vm_compute. discriminate.
  - reflexivity.
  - vm_compute. reflexivity.
Defined.

(* ================================================================== *)
(** * cai_out: the index *)

Section CaiValue.

Variables c_log c_exp : spec_float -> spec_float.

(** The loop reads for every codon the weight of the table it started
    from, clamped: a clamp changes the entry of its own codon alone. *)
Lemma cai_fold_spec t nncod tbl0 :
  forall l, NoDup l ->
  forall tbl sigma totaa,
    List.length tbl = List.length tbl0 ->
    (forall x, In x l -> Arr.get fzero tbl x = Arr.get fzero tbl0 x) ->
    snd (fst (fold_left (cai_step c_log t nncod) l (tbl, sigma, totaa)))
    = fold_left
        (fun sigma x =>
           if stop_or_single t x then sigma
           else F64.add sigma
                  (F64.mul (F64.of_long (Arr.get 0 nncod x))
                           (c_log (F64.of_float (cai_weight tbl0 x)))))
        l sigma
    /\ snd (fold_left (cai_step c_log t nncod) l (tbl, sigma, totaa))
       = totaa + zsum (fun x => if stop_or_single t x then 0
                                else Arr.get 0 nncod x) l.
Proof.
  induction 1 as [|y l Hy Hl IH]; intros tbl sigma totaa Hlen Hget;
    cbn [fold_left].
  - cbn [fst snd]. unfold zsum. cbn [fold_right]. split; [reflexivity | lia].
  - rewrite zsum_cons. unfold cai_step at 2 4.
    destruct (stop_or_single t y) eqn:E.
    + destruct (IH tbl sigma totaa Hlen) as [I1 I2];
        [intros x Hx; apply Hget; now right|].
      rewrite I1, I2. split; [reflexivity | lia].
    + destruct (IH (cai_clamp tbl y)
                   (F64.add sigma
                      (F64.mul (F64.of_long (Arr.get 0 nncod y))
                         (c_log (F64.of_float
                                   (Arr.get fzero (cai_clamp tbl y) y)))))
                   (totaa + Arr.get 0 nncod y)) as [I1 I2].
      * now rewrite length_cai_clamp.
      * intros x Hx. rewrite get_cai_clamp_ne; [apply Hget; now right|].
        intros ->. contradiction.
      * rewrite I1, I2. split; [|lia].
        rewrite cai_clamp_read. unfold cai_weight, inside.
        rewrite Hlen, (Hget y) by now left. reflexivity.
Qed.

(** [cai_out] writes [exp] of the mean of [log w] over the codons that
    have a synonym and are no stops, each weighted by its count, with
    [w] the adaptiveness of the table it reads, taken as 0.01 when it
    is below 0.0001; it writes exactly 0 when no such codon was
    counted. *)
Theorem cai_out_value nncod pm s tbl :
  cai_table pm s = Some tbl ->
  payload (cai_out c_log c_exp nncod pm s)
  = inl [CNum (if nonzero (cai_codons (tables s) nncod)
               then c_exp (F64.div (cai_log_sum c_log (tables s) nncod tbl)
                                   (F64.of_long (cai_codons (tables s) nncod)))
               else fzero)].
Proof.
  intros Htab.
  assert (Hfold : forall tb,
    fold_left (cai_step c_log (tables s) nncod) (zrange 1 65) (tb, fzero, 0)
    = (fst (fst (fold_left (cai_step c_log (tables s) nncod) (zrange 1 65)
                   (tb, fzero, 0))),
       cai_log_sum c_log (tables s) nncod tb,
       cai_codons (tables s) nncod)).
  { intros tb.
    destruct (cai_fold_spec (tables s) nncod tb (zrange 1 65)
                (NoDup_zrange 1 65) tb fzero 0 eq_refl) as [I1 I2];
      [reflexivity|].
    unfold cai_log_sum, cai_codons.
    destruct (fold_left (cai_step c_log (tables s) nncod) (zrange 1 65)
                (tb, fzero, 0)) as [[t1 sg] tot].
    cbn [fst snd] in *. subst sg tot. now rewrite Z.add_0_l. }
  unfold cai_out, cai_first_call. unfold cai_table in Htab.
  destruct (cai_ttt (statics s)).
  - injection Htab as <-. rewrite Hfold. reflexivity.
  - destruct (caifile pm) as [f|].
    + destruct (cai_load f (user_cai (statics s))) as [tb|why|ub];
        try discriminate.
      injection Htab as <-.
      cbn [set_statics with_cai statics tables user_cai].
      rewrite Hfold. reflexivity.
    + injection Htab as <-.
      cbn [set_statics with_cai statics tables cai_val].
      rewrite Hfold. reflexivity.
Qed.

End CaiValue.

Lemma cai_out_value_witness :
  let s := counted "ATGGCTGCCTAA" in
  let nncod := ncod (counts s) in
  cai_codons (tables s) nncod = 2
  /\ payload (cai_out id_libm id_libm nncod plain_menu s)
     = inl [CNum (if nonzero (cai_codons (tables s) nncod)
                  then id_libm
                         (F64.div (cai_log_sum id_libm (tables s) nncod
                                     unit_weights)
                                  (F64.of_long (cai_codons (tables s) nncod)))
                  else fzero)].
Proof.
  split; [vm_compute; reflexivity|].
  apply (cai_out_value id_libm id_libm
           (ncod (counts (counted "ATGGCTGCCTAA"))) plain_menu
           (counted "ATGGCTGCCTAA") unit_weights).
  reflexivity.
Defined.

(* ================================================================== *)
(** * fop_out: the index *)

Lemma fop_loop_spec t fopc h nncod :
  forall l opt std nonopt,
    (forall x, In x l ->
       (Arr.get 0 h (ca_at (ca t) x) =? 0) = negb (eligible t fopc x)) ->
    forallb (fun x => negb (eligible t fopc x)
                      || ((1 <=? Arr.get 0 fopc x) && (Arr.get 0 fopc x <=? 3)))
            l = true ->
    fold_left (fop_step t fopc h nncod) l (inl (opt, std, nonopt))
    = inl (opt + zsum (fun x => if eligible t fopc x && (Arr.get 0 fopc x =? 3)
                                then Arr.get 0 nncod x else 0) l,
           std + zsum (fun x => if eligible t fopc x && (Arr.get 0 fopc x =? 2)
                                then Arr.get 0 nncod x else 0) l,
           nonopt + zsum (fun x => if eligible t fopc x
                                      && (Arr.get 0 fopc x =? 1)
                                   then Arr.get 0 nncod x else 0) l).
Proof.
  induction l as [|x l IH]; intros opt std nonopt Hh Hleg; cbn [fold_left].
  - unfold zsum. cbn [fold_right]. now rewrite !Z.add_0_r.
  - rewrite !zsum_cons. cbv beta.
    cbn [forallb] in Hleg. apply andb_true_iff in Hleg.
    destruct Hleg as [Hx Hleg].
    cbn [fop_step]. rewrite (Hh x) by now left.
    destruct (eligible t fopc x); cbn [negb andb orb] in *.
    + apply andb_true_iff in Hx. destruct Hx as [H1 H3].
      apply Z.leb_le in H1, H3.
      destruct (Z.eqb_spec (Arr.get 0 fopc x) 3) as [E3|E3].
      * replace (Arr.get 0 fopc x =? 2) with false
          by (symmetry; apply Z.eqb_neq; lia).
        replace (Arr.get 0 fopc x =? 1) with false
          by (symmetry; apply Z.eqb_neq; lia).
        rewrite IH by auto with datatypes.
        now rewrite !Z.add_0_l, <- !Z.add_assoc.
      * destruct (Z.eqb_spec (Arr.get 0 fopc x) 2) as [E2|E2].
        -- replace (Arr.get 0 fopc x =? 1) with false
             by (symmetry; apply Z.eqb_neq; lia).
           rewrite IH by auto with datatypes.
           now rewrite !Z.add_0_l, <- !Z.add_assoc.
        -- replace (Arr.get 0 fopc x =? 1) with true
             by (symmetry; apply Z.eqb_eq; lia).
           rewrite IH by auto with datatypes.
           now rewrite !Z.add_0_l, <- !Z.add_assoc.
    + rewrite IH by auto with datatypes.
      now rewrite !Z.add_0_l.
Qed.

(** The three classes make up the eligible codons. *)
Lemma fop_classes_total t fopc nncod :
  legal_classes t fopc = true ->
  fop_class_total t fopc nncod 3 + fop_class_total t fopc nncod 1
  + fop_class_total t fopc nncod 2
  = cbi_tot t fopc nncod.
Proof.
  unfold legal_classes, fop_class_total, cbi_tot.
  generalize (zrange 1 65). induction l as [|x l IH]; intros Hleg.
  - reflexivity.
  - cbn [forallb] in Hleg. apply andb_true_iff in Hleg.
    destruct Hleg as [Hx Hleg]. specialize (IH Hleg).
    rewrite !zsum_cons.
    destruct (eligible t fopc x); cbn [negb andb orb] in *; [|lia].
    apply andb_true_iff in Hx. destruct Hx as [H1 H3].
    apply Z.leb_le in H1, H3.
    destruct (Z.eqb_spec (Arr.get 0 fopc x) 3),
      (Z.eqb_spec (Arr.get 0 fopc x) 2),
      (Z.eqb_spec (Arr.get 0 fopc x) 1); lia.
Qed.

(** [fop_out] writes, in [float] arithmetic, the occurrences of the
    optimal codons over the occurrences of all the codons of the
    synonymous non-stop families with at least one optimal codon, for
    the classification it reads, whose eligible codons are all
    classified 1, 2 or 3; it writes exactly 0 when the gene has no such
    codon.  This holds on a first call, with the built-in or a loaded
    classification, and on every later call whose eligibility flags are
    those of the classification read; [factor_in_rare] is as its
    initialiser leaves it. *)
Theorem fop_out_value nncod pm s fopc :
  wf_code (ca (tables s)) = true ->
  List.length (has_opt_info_fop (statics s)) = 22%nat ->
  factor_in_rare (statics s) = false ->
  fop_classes pm s = Some fopc ->
  fop_flags s fopc = true ->
  legal_classes (tables s) fopc = true ->
  let opt := cbi_opt (tables s) fopc nncod in
  let tot := cbi_tot (tables s) fopc nncod in
  payload (fop_out nncod pm s)
  = inl [CNum (if nonzero tot then F32.div (F32.of_long opt) (F32.of_long tot)
               else fzero)].
Proof.
  intros Hwf Hlen Hrare Htab Hflags Hleg opt tot.
  assert (Hloop : forall h,
    flags_of (tables s) fopc h = true ->
    fold_left (fop_step (tables s) fopc h nncod) (zrange 1 65)
              (inl (0, 0, 0))
    = inl (fop_class_total (tables s) fopc nncod 3,
           fop_class_total (tables s) fopc nncod 2,
           fop_class_total (tables s) fopc nncod 1)).
  { intros h Hh. rewrite fop_loop_spec.
    - now rewrite !Z.add_0_l.
    - intros x Hx. unfold flags_of in Hh.
      rewrite forallb_forall in Hh. now apply eqb_prop, Hh.
    - exact Hleg. }
  assert (Hval : forall rare,
    rare = false ->
    fop_value rare (fop_class_total (tables s) fopc nncod 3)
      (fop_class_total (tables s) fopc nncod 2)
      (fop_class_total (tables s) fopc nncod 1)
    = if nonzero tot then F32.div (F32.of_long opt) (F32.of_long tot)
      else fzero).
  { intros rare ->. unfold fop_value. cbn [andb].
    rewrite (fop_classes_total _ _ _ Hleg). reflexivity. }
  unfold fop_out, fop_first_call. unfold fop_classes in Htab.
  unfold fop_flags in Hflags.
  destruct (first_call_fop (statics s)).
  - rewrite Hrare. destruct (fopfile pm) as [cs|].
    + destruct (fop_load cs (user_fop (statics s))) as [tbl|why];
        [|discriminate].
      injection Htab as ->.
      cbn [set_statics with_fop statics tables user_fop has_opt_info_fop
           factor_in_rare].
      rewrite Hloop by now apply opt_info_flags.
      rewrite Hval by assumption. reflexivity.
    + injection Htab as <-.
      cbn [set_statics with_fop statics tables user_fop has_opt_info_fop
           factor_in_rare].
      rewrite Hloop by now apply opt_info_flags.
      rewrite Hval by assumption. reflexivity.
  - injection Htab as <-. cbn [orb] in Hflags.
    rewrite Hloop by assumption.
    rewrite Hval by assumption. reflexivity.
Qed.

Lemma fop_out_value_witness :
  let s := counted "ATTATCATAATA" in
  let nncod := ncod (counts s) in
  let fopc := 0 :: fop_digits ile_source in
  let pm := {| warn := true; totals := false; caifile := None;
               cbifile := None; fopfile := Some ile_source |} in
  cbi_opt (tables s) fopc nncod = 2 /\ cbi_tot (tables s) fopc nncod = 4
  /\ payload (fop_out nncod pm s)
     = inl [CNum (if nonzero (cbi_tot (tables s) fopc nncod)
                  then F32.div (F32.of_long (cbi_opt (tables s) fopc nncod))
                               (F32.of_long (cbi_tot (tables s) fopc nncod))
                  else fzero)].
Proof.
  split; [vm_compute; reflexivity|]. split; [vm_compute; reflexivity|].
  apply (fop_out_value (ncod (counts (counted "ATTATCATAATA")))
           {| warn := true; totals := false; caifile := None;
              cbifile := None; fopfile := Some ile_source |}
           (counted "ATTATCATAATA") (0 :: fop_digits ile_source));
    vm_compute; reflexivity.
Defined.

(* ================================================================== *)
(** * dinuc_count: the total *)

Lemma zsum_add f g l :
  zsum (fun x => f x + g x) l = zsum f l + zsum g l.
Proof.
  induction l as [|x l IH]; [reflexivity|].
  rewrite !zsum_cons, IH. lia.
Qed.

Lemma zsum_zero l : zsum (fun _ => 0) l = 0.
Proof. induction l as [|x l IH]; [reflexivity|]. now rewrite zsum_cons, IH. Qed.

Lemma zsum_single (P : bool) x l :
  NoDup l -> In x l ->
  zsum (fun j => if (x =? j) && P then 1 else 0) l = if P then 1 else 0.
Proof.
  induction 1 as [|y l Hy Hl IH]; intros Hin; [contradiction|].
  rewrite zsum_cons. destruct Hin as [->|Hin].
  - rewrite Z.eqb_refl. cbn [andb].
    rewrite (zsum_ext _ (fun _ => 0)), zsum_zero; [lia|].
    intros j Hj. destruct (Z.eqb_spec x j) as [->|]; [contradiction|].
    reflexivity.
  - rewrite IH by assumption.
    destruct (Z.eqb_spec x y) as [->|]; [contradiction|]. reflexivity.
Qed.

Lemma dinucs_range cs :
  forall last, 0 <= last <= 4 ->
    Forall (fun p => 0 <= p < 16) (dinucs last cs).
Proof.
  induction cs as [|c cs IH]; intros last Hl; cbn [dinucs]; [constructor|].
  pose proof (dinuc_base_range c) as Hc.
  destruct ((dinuc_base c =? 0) || (last =? 0)) eqn:E; [now apply IH|].
  apply orb_false_iff in E. destruct E as [E1 E2].
  apply Z.eqb_neq in E1, E2.
  constructor; [lia | now apply IH].
Qed.

(** Every pair lands in one cell. *)
Lemma frame_count_total ps :
  Forall (fun p => 0 <= p < 16) ps ->
  forall f0, 0 <= f0 < 3 ->
    zsum (fun f => zsum (fun j => frame_count f0 f j ps) (zrange 0 16))
         (zrange 0 3)
    = Z.of_nat (List.length ps).
Proof.
  induction 1 as [|p ps Hp Hps IH]; intros f0 Hf.
  - cbn [frame_count List.length].
    rewrite (zsum_ext _ (fun _ => 0)), zsum_zero; [reflexivity|].
    intros f _. apply zsum_zero.
  - cbn [frame_count].
    rewrite (zsum_ext _ (fun f =>
               zsum (fun j => if (p =? j) && (f0 =? f) then 1 else 0)
                    (zrange 0 16)
               + zsum (fun j => frame_count
                                  (if f0 + 1 =? 3 then 0 else f0 + 1) f j ps)
                      (zrange 0 16)))
      by (intros f _; apply zsum_add).
    rewrite zsum_add, IH
      by (destruct (Z.eqb_spec (f0 + 1) 3); lia).
    rewrite (zsum_ext _ (fun f => if (f0 =? f) && true then 1 else 0)).
    + rewrite zsum_single
        by (apply NoDup_zrange || (apply in_zrange; lia)).
      cbn [List.length]. lia.
    + intros f _. rewrite andb_true_r.
      apply zsum_single; [apply NoDup_zrange | apply in_zrange; lia].
Qed.

Lemma dinucs_all_bases cs :
  all_bases cs ->
  forall last,
    Z.of_nat (List.length (dinucs last cs))
    = if last =? 0 then Z.max 0 (Z.of_nat (List.length cs) - 1)
      else Z.of_nat (List.length cs).
Proof.
  induction 1 as [|c cs Hc Hcs IH]; intros last; cbn [dinucs List.length].
  - destruct (last =? 0); reflexivity.
  - apply Z.eqb_neq in Hc. rewrite Hc. cbn [orb].
    specialize (IH (dinuc_base c)). rewrite Hc in IH.
    destruct (last =? 0); cbn [List.length]; lia.
Qed.

(** [dinuc_count] adds one to the total of the dinucleotide counts for
    every pair of neighbouring recognised bases; after [clean_up], a
    sequence of [n >= 1] bases that are all recognised adds [n - 1]. *)
Theorem dinuc_count_total seq ttot st st' :
  din_shape (dn_din st) -> 0 <= dn_fram st < 3 -> 0 <= dn_a st <= 4 ->
  dinuc_count seq ttot st = Some st' ->
  let cs := firstn (Z.to_nat ttot) seq in
  din_total (dn_din st')
  = din_total (dn_din st) + Z.of_nat (List.length (dinucs (dn_a st) cs))
  /\ (all_bases cs -> dn_a st = 0 ->
      din_total (dn_din st')
      = din_total (dn_din st) + Z.max 0 (Z.of_nat (List.length cs) - 1)).
Proof.
  intros Hd Hf Ha H. cbn zeta.
  destruct (dinuc_count_spec seq ttot st st' Hd Hf Ha H) as (_ & G & _).
  cbn zeta in G.
  assert (T : din_total (dn_din st')
              = din_total (dn_din st)
                + Z.of_nat (List.length
                              (dinucs (dn_a st) (firstn (Z.to_nat ttot) seq)))).
  { unfold din_total.
    rewrite (zsum_ext _ (fun f =>
               zsum (din_at (dn_din st) f) (zrange 0 16)
               + zsum (fun j => frame_count (dn_fram st) f j
                                  (dinucs (dn_a st)
                                     (firstn (Z.to_nat ttot) seq)))
                      (zrange 0 16))).
    - rewrite zsum_add, frame_count_total;
        [reflexivity | now apply dinucs_range | assumption].
    - intros f _. rewrite <- zsum_add. apply zsum_ext. intros j _. apply G. }
  split; [exact T|].
  intros Hb H0. rewrite T, (dinucs_all_bases _ Hb), H0. reflexivity.
Qed.

Lemma dinuc_count_total_witness :
  let st := {| dn_din := repeat (repeat 0 16) 3; dn_fram := 0; dn_a := 0 |} in
  let seq := buffer (chars "ACGTTA") in
  exists st',
    dinuc_count seq 6 st = Some st'
    /\ din_total (dn_din st')
       = din_total (dn_din st)
         + Z.of_nat (List.length (dinucs (dn_a st) (firstn 6 seq)))
    /\ (all_bases (firstn 6 seq) -> dn_a st = 0 ->
        din_total (dn_din st')
        = din_total (dn_din st)
          + Z.max 0 (Z.of_nat (List.length (firstn 6 seq)) - 1)).
Proof.
  eexists. split; [vm_compute; reflexivity|].
  apply (dinuc_count_total (buffer (chars "ACGTTA")) 6
           {| dn_din := repeat (repeat 0 16) 3; dn_fram := 0; dn_a := 0 |}).
  - split; [reflexivity|]. repeat constructor.
  - cbn. lia.
  - cbn. lia.
  - vm_compute. reflexivity.
Defined.

(* ================================================================== *)
(** * codon_error: the levels *)

(** At the levels 1 to 4 [codon_error] returns the sum of
    [ncod[1..64]] and never touches a tally, the dinucleotide counts or
    a table; only level 1 can change the state, by counting one more
    sequence with internal stops.  With the warnings off it writes nothing and
    changes nothing at any of these levels.  Every other level ends the
    run with exit code 99. *)
Theorem codon_error_levels x y level pm s :
  (1 <= level <= 4 ->
   exists ws s1,
     codon_error x y level pm s = Done (loc_cod_tot s) [] ws false s1
     /\ counts s1 = counts s /\ num_sequence s1 = num_sequence s
     /\ din s1 = din s /\ fram s1 = fram s
     /\ tables s1 = tables s /\ cai_val s1 = cai_val s
     /\ statics s1 = statics s
     /\ num_seq_int_stop s <= num_seq_int_stop s1 <= num_seq_int_stop s + 1
     /\ (level <> 1 -> s1 = s)
     /\ (warn pm = false -> ws = [] /\ s1 = s))
  /\ (~ 1 <= level <= 4 -> codon_error x y level pm s = Exit 99 ProgrammeError).
Proof.
  split.
  - intros Hl.
    assert (Hc : level = 1 \/ level = 2 \/ level = 3 \/ level = 4) by lia.
    destruct Hc as [->|[->|[->| ->]]]; unfold codon_error.
    + change (1 =? 1) with true. cbv iota.
      unfold valid_start. cbn [negb andb].
      destruct (nonzero (stop_count s - valid_stops (counts s))),
        (warn pm) eqn:Ew; cbn [andb app];
        do 2 eexists; (split; [reflexivity|]);
        cbn [counts num_sequence num_seq_int_stop din fram tables cai_val
             statics];
        repeat split; try reflexivity; try lia; intros; congruence.
    + change (2 =? 1) with false. change (2 =? 2) with true. cbv iota.
      destruct (warn pm) eqn:Ew; rewrite ?andb_false_r; cbn [app].
      * destruct ((Arr.get 0 (ncod (counts s)) 0 =? 1)
                  && negb (ca_at (ca (tables s)) x =? 11) && true);
          do 2 eexists; (split; [reflexivity|]);
          repeat split; try reflexivity; try lia; intros; congruence.
      * do 2 eexists. split; [reflexivity|]. repeat split; lia.
    + change (3 =? 1) with false. change (3 =? 2) with false.
      change (3 =? 3) with true. cbv iota.
      destruct (warn pm) eqn:Ew;
        do 2 eexists; (split; [reflexivity|]);
        repeat split; try reflexivity; try lia; intros; congruence.
    + change (4 =? 1) with false. change (4 =? 2) with false.
      change (4 =? 3) with false. change (4 =? 4) with true. cbv iota.
      do 2 eexists. split; [reflexivity|]. repeat split; lia.
  - intros Hl. unfold codon_error.
    replace (level =? 1) with false by (symmetry; apply Z.eqb_neq; lia).
    replace (level =? 2) with false by (symmetry; apply Z.eqb_neq; lia).
    replace (level =? 3) with false by (symmetry; apply Z.eqb_neq; lia).
    replace (level =? 4) with false by (symmetry; apply Z.eqb_neq; lia).
    reflexivity.
Qed.
